(** * Package aggregation and rendering of [pkg/spdx/package.go]

    A shallow embedding of the [Package] type of the SPDX generator and of
    its operations ([ReadSourceFile], [AddFile], [preProcessSubPackage],
    [AddPackage], [AddDependency] and [Render]), followed by the properties
    the specification states about them.

    Conventions.
    - A Go [string] is a Rocq [string]: a sequence of bytes.
    - A Go [error] is [option string]: [None] is [nil], [Some m] an error
      whose [Error()] text is [m].
    - A method with a pointer receiver returns the receiver's new value next
      to its Go results; an argument passed by pointer and written to is
      returned as well.
    - The [map[string]*T] fields that the code ranges over are association
      lists wrapped in [option] ([None] is the nil map); the order of the
      list stands for the order in which the runtime happens to visit the
      entries, which Go leaves unspecified.  Properties are proved for every
      list, hence for every visiting order; none depends on the order in
      which a later loop over the same map visits it.
    - The [map[string]string] checksum tables, which are only looked up or
      printed in key order, are [gmap]s wrapped in [option].
    - [sync.RWMutex] has no sequential meaning and is left out.
    - The nodes of a package tree are distinct objects: no package is its
      own descendant and no node has two parents. *)

From Stdlib Require Import ZArith Ascii.
From stdpp Require Import base list strings sorting gmap.

(** ** Strings *)

Module Str.

Definition nl : string := String (ascii_of_nat 10) "".

(** The double quote. *)
Definition dquote : ascii := ascii_of_nat 34.

(** [strings.Join(l, "")]. *)
Fixpoint concat (l : list string) : string :=
  match l with
  | [] => ""
  | s :: l => s +:+ concat l
  end.

(** [strings.HasPrefix]. *)
Fixpoint has_prefix (pre s : string) : bool :=
  match pre, s with
  | EmptyString, _ => true
  | String a pre, String b s => if decide (a = b) then has_prefix pre s else false
  | String _ _, EmptyString => false
  end.

Fixpoint drop (n : nat) (s : string) : string :=
  match n, s with
  | O, _ => s
  | S n, String _ s => drop n s
  | S _, EmptyString => ""
  end.

(** [strings.TrimPrefix]: [s] without the leading [pre], or [s] itself when
    it does not start with [pre]. *)
Definition trim_prefix (s pre : string) : string :=
  if has_prefix pre s then drop (String.length pre) s else s.

(** [strings.Contains], as a proposition and as a test. *)
Definition contains (s sub : string) : Prop :=
  ∃ a b, s = a +:+ sub +:+ b.

Fixpoint containsb (s sub : string) : bool :=
  has_prefix sub s ||
  match s with
  | EmptyString => false
  | String _ s' => containsb s' sub
  end.

(** [strings.HasSuffix], as a proposition. *)
Definition has_suffix (s suf : string) : Prop := ∃ a, s = a +:+ suf.

Fixpoint all (P : ascii → Prop) (s : string) : Prop :=
  match s with
  | EmptyString => True
  | String c s => P c ∧ all P s
  end.

Fixpoint filter (keep : ascii → bool) (s : string) : string :=
  match s with
  | EmptyString => ""
  | String c s => if keep c then String c (filter keep s) else filter keep s
  end.

End Str.

(** ** [crypto/sha1] and [fmt.Sprintf("%x", ...)]

  The code hashes byte strings with Go's [crypto/sha1] and prints the
  digest with [%x].  SHA-1 is written out after FIPS 180-4 on 32-bit words
  held in [Z]; [Sha1.hex] is the composition the code uses at both call
  sites: [fmt.Sprintf("%x", h.Sum(nil))] after [h.Write([]byte(s))]. *)

Module Sha1.
Local Open Scope Z_scope.

Definition w32 (x : Z) : Z := Z.land x 0xFFFFFFFF.

Definition rotl (n x : Z) : Z :=
  w32 (Z.lor (Z.shiftl x n) (Z.shiftr x (32 - n))).

Fixpoint bytes (s : string) : list Z :=
  match s with
  | EmptyString => []
  | String c s => Z.of_N (N_of_ascii c) :: bytes s
  end.

(** The [n] low bytes of [x], most significant first. *)
Definition be_bytes (n : nat) (x : Z) : list Z :=
  List.map (λ i, Z.land (Z.shiftr x (8 * Z.of_nat i)) 0xFF) (List.rev (seq 0 n)).

(** Padding: a 1 bit, zeros up to 56 mod 64 bytes, the bit length on 8
    bytes. *)
Definition pad (m : list Z) : list Z :=
  let len := Z.of_nat (length m) in
  m ++ [0x80] ++ replicate (Z.to_nat ((55 - len) mod 64)) 0
    ++ be_bytes 8 (8 * len).

Fixpoint words (l : list Z) : list Z :=
  match l with
  | a :: b :: c :: d :: l =>
      Z.lor (Z.shiftl a 24) (Z.lor (Z.shiftl b 16) (Z.lor (Z.shiftl c 8) d))
        :: words l
  | _ => []
  end.

Definition f (t : nat) (b c d : Z) : Z :=
  if (t <? 20)%nat then Z.lor (Z.land b c) (Z.land (Z.lxor b 0xFFFFFFFF) d)
  else if (t <? 40)%nat then Z.lxor b (Z.lxor c d)
  else if (t <? 60)%nat then Z.lor (Z.land b c) (Z.lor (Z.land b d) (Z.land c d))
  else Z.lxor b (Z.lxor c d).

Definition K (t : nat) : Z :=
  if (t <? 20)%nat then 0x5A827999
  else if (t <? 40)%nat then 0x6ED9EBA1
  else if (t <? 60)%nat then 0x8F1BBCDC
  else 0xCA62C1D6.

Definition state : Type := Z * Z * Z * Z * Z.

Definition init : state :=
  (0x67452301, 0xEFCDAB89, 0x98BADCFE, 0x10325476, 0xC3D2E1F0).

(** [n] rounds from round [t]; [w] is the window W(t) .. W(t+15) of the
    message schedule. *)
Fixpoint rounds (n t : nat) (w : list Z) (s : state) : state :=
  match n with
  | O => s
  | S n =>
      let '(a, b, c, d, e) := s in
      let wt := nth 0 w 0 in
      let tmp := w32 (rotl 5 a + f t b c d + e + K t + wt) in
      let wnext :=
        rotl 1 (Z.lxor (nth 13 w 0) (Z.lxor (nth 8 w 0) (Z.lxor (nth 2 w 0) wt))) in
      rounds n (S t) (tl w ++ [wnext]) (tmp, a, rotl 30 b, c, d)
  end.

Definition block (s : state) (w : list Z) : state :=
  let '(h0, h1, h2, h3, h4) := s in
  let '(a, b, c, d, e) := rounds 80 0 w s in
  (w32 (h0 + a), w32 (h1 + b), w32 (h2 + c), w32 (h3 + d), w32 (h4 + e)).

Fixpoint blocks (fuel : nat) (ws : list Z) (s : state) : state :=
  match fuel, ws with
  | S fuel, _ :: _ => blocks fuel (drop 16 ws) (block s (take 16 ws))
  | _, _ => s
  end.

(** [h.Sum(nil)]: the 20 bytes of the digest. *)
Definition Sum (m : list Z) : list Z :=
  let ws := words (pad m) in
  let '(h0, h1, h2, h3, h4) := blocks (length ws) ws init in
  be_bytes 4 h0 ++ be_bytes 4 h1 ++ be_bytes 4 h2 ++ be_bytes 4 h3
    ++ be_bytes 4 h4.

Definition hexdigits : list ascii :=
  ["0"; "1"; "2"; "3"; "4"; "5"; "6"; "7"; "8"; "9";
   "a"; "b"; "c"; "d"; "e"; "f"]%char.

Definition hexdigit (n : Z) : ascii :=
  nth (Z.to_nat (Z.land n 15)) hexdigits "0"%char.

(** [%x] on a byte slice: two lower-case digits per byte. *)
Fixpoint hex_of_bytes (l : list Z) : string :=
  match l with
  | [] => ""
  | b :: l => String (hexdigit (Z.shiftr b 4)) (String (hexdigit b) (hex_of_bytes l))
  end.

Definition hex (s : string) : string := hex_of_bytes (Sum (bytes s)).

Definition is_hexdigit (c : ascii) : Prop := c ∈ hexdigits.

End Sha1.


(** ** Errors ([github.com/pkg/errors]) *)

Definition error : Type := option string.

Module errors.

Definition New (msg : string) : error := Some msg.

(** [errors.Wrap(err, msg)]: nil when [err] is nil, otherwise an error that
    prints as [msg: err]. *)
Definition Wrap (err : error) (msg : string) : error :=
  match err with
  | None => None
  | Some e => Some (msg +:+ ": " +:+ e)
  end.

End errors.

(** ** Go maps that are ranged over *)

Definition gomap (V : Type) : Type := option (list (string * V)).

(** The entries of a map; a nil map has none ([len], [range] and lookup do
    not tell a nil map from an empty one). *)
Definition entries {V : Type} (m : gomap V) : list (string * V) :=
  match m with
  | None => []
  | Some l => l
  end.

Definition keys {V : Type} (m : gomap V) : list string := (entries m).*1.

(** [v, ok := m[k]]. *)
Fixpoint assoc_lookup {V : Type} (k : string) (l : list (string * V)) : option V :=
  match l with
  | [] => None
  | (k', v) :: l => if decide (k = k') then Some v else assoc_lookup k l
  end.

(** [m[k] = v] on a non-nil map: the binding of [k] is replaced, or a new
    entry is added. *)
Fixpoint assoc_insert {V : Type} (k : string) (v : V) (l : list (string * V))
  : list (string * V) :=
  match l with
  | [] => [(k, v)]
  | (k', v') :: l =>
      if decide (k = k') then (k, v) :: l else (k', v') :: assoc_insert k v l
  end.

Definition has_key {V : Type} (m : gomap V) (k : string) : bool :=
  bool_decide (is_Some (assoc_lookup k (entries m))).

(** ** The data model *)

(** Modelled from the spec: the constants [NONE] and [NOASSERTION] are
    declared in another file of the package; section 4.4 and the glossary
    give the two sentinel strings. *)
Definition NONE : string := "NONE".
Definition NOASSERTION : string := "NOASSERTION".

(** Modelled from the spec: the constant [validNameCharsRe] is declared in
    another file of the package; section 4.1 says that the characters that
    survive are the letters, the digits, [.] and [-], so the expression is
    taken to be the complement class [[^a-zA-Z0-9.-]+].  [validNameChar]
    tells whether a byte is outside that class, i.e. is kept. *)
Definition validNameChar (c : ascii) : bool :=
  let n := nat_of_ascii c in
  ((97 <=? n) && (n <=? 122)) || ((65 <=? n) && (n <=? 90))
  || ((48 <=? n) && (n <=? 57)) || (n =? 46) || (n =? 45).

Module File.

(** Modelled from the spec: the [File] type is declared in another file of
    the package; section 3 lists the fields the package code reads. *)
Record t : Type := mk {
  ID : string;
  Name : string;
  Checksum : option (gmap string string);
  LicenseInfoInFile : string
}.

Definition set_ID (v : string) (f : t) : t :=
  mk v (Name f) (Checksum f) (LicenseInfoInFile f).

End File.

Record PackageOptions : Type := mkPackageOptions {
  WorkDir : string
}.

(** The anonymous struct type of [Supplier] and [Originator]. *)
Record Entity : Type := mkEntity {
  Person : string;
  Organization : string
}.

#[warnings="-register-all"]
Inductive Package : Type := mkPackage {
  FilesAnalyzed : bool;
  Name : string;
  ID : string;
  DownloadLocation : string;
  VerificationCode : string;
  LicenseConcluded : string;
  LicenseInfoFromFiles : list string;
  LicenseDeclared : string;
  LicenseComments : string;
  CopyrightText : string;
  Version : string;
  FileName : string;
  SourceFile : string;
  Supplier : Entity;
  Originator : Entity;
  Packages : option (list (string * Package));
  Files : gomap File.t;
  Checksum : option (gmap string string);
  Dependencies : option (list (string * Package));
  options : option PackageOptions
}.

Definition set_FilesAnalyzed (v : bool) (p : Package) : Package :=
  let 'mkPackage _ a2 a3 a4 a5 a6 a7 a8 a9 a10 a11 a12 a13 a14 a15 a16 a17 a18 a19 a20 := p in
  mkPackage v a2 a3 a4 a5 a6 a7 a8 a9 a10 a11 a12 a13 a14 a15 a16 a17 a18 a19 a20.

Definition set_Name (v : string) (p : Package) : Package :=
  let 'mkPackage a1 _ a3 a4 a5 a6 a7 a8 a9 a10 a11 a12 a13 a14 a15 a16 a17 a18 a19 a20 := p in
  mkPackage a1 v a3 a4 a5 a6 a7 a8 a9 a10 a11 a12 a13 a14 a15 a16 a17 a18 a19 a20.

Definition set_ID (v : string) (p : Package) : Package :=
  let 'mkPackage a1 a2 _ a4 a5 a6 a7 a8 a9 a10 a11 a12 a13 a14 a15 a16 a17 a18 a19 a20 := p in
  mkPackage a1 a2 v a4 a5 a6 a7 a8 a9 a10 a11 a12 a13 a14 a15 a16 a17 a18 a19 a20.

Definition set_VerificationCode (v : string) (p : Package) : Package :=
  let 'mkPackage a1 a2 a3 a4 _ a6 a7 a8 a9 a10 a11 a12 a13 a14 a15 a16 a17 a18 a19 a20 := p in
  mkPackage a1 a2 a3 a4 v a6 a7 a8 a9 a10 a11 a12 a13 a14 a15 a16 a17 a18 a19 a20.

Definition set_LicenseInfoFromFiles (v : list string) (p : Package) : Package :=
  let 'mkPackage a1 a2 a3 a4 a5 a6 _ a8 a9 a10 a11 a12 a13 a14 a15 a16 a17 a18 a19 a20 := p in
  mkPackage a1 a2 a3 a4 a5 a6 v a8 a9 a10 a11 a12 a13 a14 a15 a16 a17 a18 a19 a20.

Definition set_FileName (v : string) (p : Package) : Package :=
  let 'mkPackage a1 a2 a3 a4 a5 a6 a7 a8 a9 a10 a11 _ a13 a14 a15 a16 a17 a18 a19 a20 := p in
  mkPackage a1 a2 a3 a4 a5 a6 a7 a8 a9 a10 a11 v a13 a14 a15 a16 a17 a18 a19 a20.

Definition set_SourceFile (v : string) (p : Package) : Package :=
  let 'mkPackage a1 a2 a3 a4 a5 a6 a7 a8 a9 a10 a11 a12 _ a14 a15 a16 a17 a18 a19 a20 := p in
  mkPackage a1 a2 a3 a4 a5 a6 a7 a8 a9 a10 a11 a12 v a14 a15 a16 a17 a18 a19 a20.

Definition set_Packages (v : option (list (string * Package))) (p : Package) : Package :=
  let 'mkPackage a1 a2 a3 a4 a5 a6 a7 a8 a9 a10 a11 a12 a13 a14 a15 _ a17 a18 a19 a20 := p in
  mkPackage a1 a2 a3 a4 a5 a6 a7 a8 a9 a10 a11 a12 a13 a14 a15 v a17 a18 a19 a20.

Definition set_Files (v : gomap File.t) (p : Package) : Package :=
  let 'mkPackage a1 a2 a3 a4 a5 a6 a7 a8 a9 a10 a11 a12 a13 a14 a15 a16 _ a18 a19 a20 := p in
  mkPackage a1 a2 a3 a4 a5 a6 a7 a8 a9 a10 a11 a12 a13 a14 a15 a16 v a18 a19 a20.

Definition set_Checksum (v : option (gmap string string)) (p : Package) : Package :=
  let 'mkPackage a1 a2 a3 a4 a5 a6 a7 a8 a9 a10 a11 a12 a13 a14 a15 a16 a17 _ a19 a20 := p in
  mkPackage a1 a2 a3 a4 a5 a6 a7 a8 a9 a10 a11 a12 a13 a14 a15 a16 a17 v a19 a20.

Definition set_Dependencies (v : option (list (string * Package))) (p : Package) : Package :=
  let 'mkPackage a1 a2 a3 a4 a5 a6 a7 a8 a9 a10 a11 a12 a13 a14 a15 a16 a17 a18 _ a20 := p in
  mkPackage a1 a2 a3 a4 a5 a6 a7 a8 a9 a10 a11 a12 a13 a14 a15 a16 a17 a18 v a20.

(** [p.Options()]. *)
Definition Options (p : Package) : option PackageOptions := options p.

(** [NewPackage]: every field has its zero value but [options]. *)
Definition NewPackage : Package :=
  mkPackage false "" "" "" "" "" [] "" "" "" "" "" ""
    (mkEntity "" "") (mkEntity "" "") None None None None
    (Some (mkPackageOptions "")).

(** ** Source file ingestion *)

Section ReadSourceFile.

(** The collaborators of [ReadSourceFile]: the file system as seen through
    [util.Exists], [hash.SHA256ForFile] and [hash.SHA512ForFile] of
    [sigs.k8s.io/release-utils], and the path separator of the platform. *)
Variable util_Exists : string → bool.
Variable hash_SHA256ForFile : string → string * error.
Variable hash_SHA512ForFile : string → string * error.
Variable filepath_Separator : ascii.

(** [p.ReadSourceFile(path)].  The result is [None] when the call panics:
    [p.Options()] returns the [options] pointer, and reading [WorkDir]
    through a nil pointer is a run-time panic. *)
Definition ReadSourceFile (p : Package) (path : string) : option (Package * error) :=
  if negb (util_Exists path) then
    Some (p, errors.New "unable to find package source file")
  else
    let '(s256, err) := hash_SHA256ForFile path in
    if err is Some _ then Some (p, errors.Wrap err "getting source file sha256")
    else
      let '(s512, err) := hash_SHA512ForFile path in
      if err is Some _ then Some (p, errors.Wrap err "getting source file sha512")
      else
        let p := set_Checksum (Some {[ "SHA256" := s256; "SHA512" := s512 ]}) p in
        let p := set_SourceFile path p in
        match Options p with
        | None => None
        | Some o =>
            Some (set_FileName
                    (Str.trim_prefix path (WorkDir o +:+ String filepath_Separator ""))
                    p,
                  None)
        end.

End ReadSourceFile.

(** ** Attaching files, sub-packages and dependencies *)

(** [p.AddFile(file)].  The [Write] of a [hash.Hash] never returns an error,
    so the branch that wraps it is not reachable. *)
Definition AddFile (p : Package) (file : File.t) : Package * File.t * error :=
  let p := if Files p is None then set_Files (Some []) p else p in
  if decide (File.ID file = "") then
    if decide (File.Name file = "") then
      (p, file, errors.New "unable to generate file ID, filename not set")
    else if decide (Name p = "") then
      (p, file, errors.New "unable to generate file ID, package not set")
    else
      let file :=
        File.set_ID ("SPDXRef-File-" +:+ Sha1.hex (Name p +:+ ":" +:+ File.Name file)) file in
      (set_Files (Some (assoc_insert (File.ID file) file (entries (Files p)))) p,
       file, None)
  else
    (set_Files (Some (assoc_insert (File.ID file) file (entries (Files p)))) p,
     file, None).

(** [reg.ReplaceAllString(name, "")] for [reg] the complement class of
    [validNameChar] repeated: every maximal run of bytes outside the class
    is replaced by nothing, which leaves the bytes of the class. *)
Definition stripInvalidChars (name : string) : string :=
  Str.filter validNameChar name.

(** [p.preProcessSubPackage(pkg)]: the new value of [pkg] and the error. *)
Definition preProcessSubPackage (p pkg : Package) : Package * error :=
  let pkg :=
    if decide (ID pkg = "") then
      let id := stripInvalidChars (Name pkg) in
      if decide (id ≠ "") then set_ID ("SPDXRef-Package-" +:+ id) pkg else pkg
    else pkg in
  if decide (ID pkg = "") then
    (pkg, errors.New "package name is needed to add a new package")
  else if has_key (Packages p) (ID pkg) then
    (pkg, errors.New ("a package named " +:+ ID pkg +:+ " already exists as a subpackage"))
  else if has_key (Dependencies p) (ID pkg) then
    (pkg, errors.New ("a package named " +:+ ID pkg +:+ " already exists as a dependency"))
  else (pkg, None).

(** [p.AddPackage(pkg)]: the new values of [p] and [pkg], and the error. *)
Definition AddPackage (p pkg : Package) : Package * Package * error :=
  let p := if Packages p is None then set_Packages (Some []) p else p in
  let '(pkg, err) := preProcessSubPackage p pkg in
  if err is Some _ then
    (p, pkg, errors.Wrap err "performing subpackage preprocessing")
  else
    (set_Packages (Some (assoc_insert (ID pkg) pkg (entries (Packages p)))) p,
     pkg, None).

(** [p.AddDependency(pkg)]. *)
Definition AddDependency (p pkg : Package) : Package * Package * error :=
  let p := if Dependencies p is None then set_Dependencies (Some []) p else p in
  let '(pkg, err) := preProcessSubPackage p pkg in
  if err is Some _ then
    (p, pkg, errors.Wrap err "performing subpackage preprocessing")
  else
    (set_Dependencies (Some (assoc_insert (ID pkg) pkg (entries (Dependencies p)))) p,
     pkg, None).

(** ** The package template ([html/template])

    In an HTML text context, the only one this template has, the engine
    pipes every printed value through its HTML escaper.  The escaper goes by
    the replacement table of the engine: the NUL byte becomes U+FFFD (three
    bytes in UTF-8), the double quote, [&], the single quote, [+], [<] and
    [>] become character references, and every other byte is left as it
    is. *)

Definition htmlEscapeChar (c : ascii) : string :=
  if decide (c = ascii_of_nat 0) then
    String (ascii_of_nat 239) (String (ascii_of_nat 191) (String (ascii_of_nat 189) ""))
  else if decide (c = Str.dquote) then "&#34;"
  else if decide (c = "&"%char) then "&amp;"
  else if decide (c = "'"%char) then "&#39;"
  else if decide (c = "+"%char) then "&#43;"
  else if decide (c = "<"%char) then "&lt;"
  else if decide (c = ">"%char) then "&gt;"
  else String c "".

Fixpoint htmlEscape (s : string) : string :=
  match s with
  | EmptyString => ""
  | String c s => htmlEscapeChar c +:+ htmlEscape s
  end.

(** [{{ if .X }}body{{ end }}] on a string field: the body when the string
    is not empty. *)
Definition ifSet (x body : string) : string :=
  if decide (x = "") then "" else body.

(** [{{ if .X }}{{ .X }}{{ else }}sentinel{{ end }}]. *)
Definition orElse (x sentinel : string) : string :=
  if decide (x = "") then sentinel else htmlEscape x.

(** The entries of a checksum table in the order of their keys, which is the
    order in which a template ranges over a map. *)
Definition sortedEntries (m : option (gmap string string)) : list (string * string) :=
  match m with
  | None => []
  | Some m => merge_sort (λ x y, String.le x.1 y.1) (map_to_list m)
  end.

Definition checksumLines (m : option (gmap string string)) : string :=
  Str.concat
    ((λ kv : string * string,
        ifSet kv.2
          ("PackageChecksum: " +:+ htmlEscape kv.1 +:+ ": " +:+ htmlEscape kv.2 +:+ Str.nl))
     <$> sortedEntries m).

Definition licenseInfoLines (tags : list string) : string :=
  Str.concat
    ((λ tag, "PackageLicenseInfoFromFiles: " +:+ htmlEscape tag +:+ Str.nl) <$> tags).

(** [tmpl.Execute(&buf, p)] for [packageTemplate]: the text of the template
    with its actions evaluated and the white space next to the [{{-] and
    [-}}] markers removed.  Nothing in it can fail. *)
Definition execTemplate (p : Package) : string :=
  "##### Package: " +:+ htmlEscape (Name p) +:+ Str.nl +:+ Str.nl
  +:+ ifSet (Name p) ("PackageName: " +:+ htmlEscape (Name p) +:+ Str.nl)
  +:+ ifSet (ID p) ("SPDXID: " +:+ htmlEscape (ID p) +:+ Str.nl)
  +:+ checksumLines (Checksum p)
  +:+ "PackageDownloadLocation: " +:+ orElse (DownloadLocation p) "NONE" +:+ Str.nl
  +:+ "FilesAnalyzed: " +:+ (if FilesAnalyzed p then "true" else "false") +:+ Str.nl
  +:+ ifSet (VerificationCode p)
        ("PackageVerificationCode: " +:+ htmlEscape (VerificationCode p) +:+ Str.nl)
  +:+ "PackageLicenseConcluded: " +:+ orElse (LicenseConcluded p) "NOASSERTION" +:+ Str.nl
  +:+ ifSet (FileName p) ("PackageFileName: " +:+ htmlEscape (FileName p) +:+ Str.nl)
  +:+ licenseInfoLines (LicenseInfoFromFiles p)
  +:+ ifSet (Version p) ("PackageVersion: " +:+ htmlEscape (Version p) +:+ Str.nl)
  +:+ "PackageLicenseDeclared: " +:+ orElse (LicenseDeclared p) "NOASSERTION" +:+ Str.nl
  +:+ "PackageCopyrightText: "
  +:+ (if decide (CopyrightText p = "") then "NOASSERTION"
       else "<text>" +:+ htmlEscape (CopyrightText p) +:+ Str.nl +:+ "</text>")
  +:+ Str.nl +:+ Str.nl.

(** ** Rendering *)

(** [sort.Strings]: the list in increasing order of Go's [<] on strings,
    which compares byte by byte as [String.le] does. *)
Definition sort_Strings (l : list string) : list string :=
  merge_sort String.le l.

(** The inner loop of [Render] that looks for [tag] among the tags already
    collected. *)
Fixpoint collected (tag : string) (filesTagList : list string) : bool :=
  match filesTagList with
  | [] => false
  | t :: l => if decide (t = tag) then true else collected tag l
  end.

(** The loop over [p.Files] that gathers the SHA1 values and the licence
    tags: the two lists, or the message of the error that ends [Render]. *)
Fixpoint collect (fs : list (string * File.t)) (shaList filesTagList : list string)
  : list string * list string + string :=
  match fs with
  | [] => inl (shaList, filesTagList)
  | (_, f) :: fs =>
      match File.Checksum f with
      | None => inr "unable to render package, file has no checksums"
      | Some cs =>
          match cs !! "SHA1" with
          | None =>
              inr "unable to render package, files were analyzed but some do not have sha1 checksum"
          | Some sha =>
              collect fs (shaList ++ [sha])
                (if decide (File.LicenseInfoInFile f ≠ "") then
                   if collected (File.LicenseInfoInFile f) filesTagList
                   then filesTagList
                   else filesTagList ++ [File.LicenseInfoInFile f]
                 else filesTagList)
          end
      end
  end.

(** The first part of [Render], up to the execution of the template: the
    package with its derived fields, or the message of the error. *)
Definition deriveFields (p : Package) : Package + string :=
  if FilesAnalyzed p then
    if decide (length (entries (Files p)) = 0) then
      inr "unable to get package verification code, package has no files"
    else
      match collect (entries (Files p)) [] [] with
      | inr msg => inr msg
      | inl (shaList, filesTagList) =>
          let p :=
            set_VerificationCode (Sha1.hex (Str.concat (sort_Strings shaList))) p in
          let p :=
            set_LicenseInfoFromFiles
              (LicenseInfoFromFiles p
                 ++ filter (λ tag, tag ≠ NONE ∧ tag ≠ NOASSERTION) filesTagList) p in
          let p :=
            if decide (length filesTagList = 0)
            then set_LicenseInfoFromFiles (LicenseInfoFromFiles p ++ [NONE]) p
            else p in
          inl p
      end
  else inl p.

(** [fmt.Sprintf("Relationship: %s VERB %s\n\n", a, b)]. *)
Definition relationship (verb a b : string) : string :=
  "Relationship: " +:+ a +:+ " " +:+ verb +:+ " " +:+ b +:+ Str.nl +:+ Str.nl.

Section Render.

(** Modelled from the spec: [File.Render] is declared in another file of the
    package; section 6 gives its contract, a fragment and an error. *)
Variable File_Render : File.t → string * error.

(** The loop of [Render] over the files: the fragment so far and the
    error. *)
Fixpoint renderFiles (pid : string) (fs : list (string * File.t)) (docFragment : string)
  : string * error :=
  match fs with
  | [] => (docFragment, None)
  | (_, f) :: fs =>
      let '(fileFragment, err) := File_Render f in
      if err is Some _ then ("", errors.Wrap err ("rendering file " +:+ File.Name f))
      else
        renderFiles pid fs
          (docFragment +:+ fileFragment +:+ relationship "CONTAINS" pid (File.ID f))
  end.

(** The loops of [Render] over the sub-packages and over the dependencies,
    for a given [Render] of the children: the children as the loop leaves
    them, the fragment so far and the error. *)
Definition renderPackages (render : Package → Package * (string * error))
    (verb pid : string)
  : list (string * Package) → string → list (string * Package) * (string * error) :=
  fix go pkgs docFragment :=
    match pkgs with
    | [] => ([], (docFragment, None))
    | (k, pkg) :: pkgs =>
        let '(pkg, (pkgDoc, err)) := render pkg in
        if err is Some _ then
          ((k, pkg) :: pkgs, ("", errors.Wrap err ("rendering pkg " +:+ Name pkg)))
        else
          let '(pkgs, r) :=
            go pkgs (docFragment +:+ pkgDoc +:+ relationship verb pid (ID pkg)) in
          ((k, pkg) :: pkgs, r)
    end.

(** [p.Render()]: the package after the call, the fragment and the error.
    Parsing the constant template cannot fail. *)
Fixpoint Render (p : Package) : Package * (string * error) :=
  match deriveFields p with
  | inr msg => (p, ("", errors.New msg))
  | inl p1 =>
      match renderFiles (ID p1) (entries (Files p1)) (execTemplate p1) with
      | (_, Some e) => (p1, ("", Some e))
      | (docFragment, None) =>
          match
            match Packages p with
            | None => (None, (docFragment, None))
            | Some pkgs =>
                let '(pkgs, r) :=
                  renderPackages Render "CONTAINS" (ID p1) pkgs docFragment in
                (Some pkgs, r)
            end
          with
          | (subs, (_, Some e)) => (set_Packages subs p1, ("", Some e))
          | (subs, (docFragment, None)) =>
              let p2 := set_Packages subs p1 in
              match Dependencies p with
              | None => (p2, (docFragment, None))
              | Some pkgs =>
                  let '(pkgs, r) :=
                    renderPackages Render "DEPENDS_ON" (ID p1) pkgs docFragment in
                  (set_Dependencies (Some pkgs) p2, r)
              end
          end
      end
  end.

End Render.

(** ** Notions used to state the properties *)

(** The file carries a SHA1 content hash: it has a checksum table with an
    entry under [SHA1]. *)
Definition hasSHA1 (f : File.t) : Prop :=
  ∃ cs, File.Checksum f = Some cs ∧ is_Some (cs !! "SHA1").

#[global] Instance hasSHA1_dec (f : File.t) : Decision (hasSHA1 f).
Proof.
  unfold hasSHA1. destruct (File.Checksum f) as [cs|].
  - destruct (cs !! "SHA1") as [sha|] eqn:E.
    + left. exists cs. by rewrite E.
    + right. intros (cs' & [= <-] & H). rewrite E in H. by destruct H.
  - right. by intros (cs & ? & _).
Defined.

(** [f.Checksum["SHA1"]]: the entry, or the empty string. *)
Definition sha1Of (f : File.t) : string :=
  match File.Checksum f with
  | Some cs => default "" (cs !! "SHA1")
  | None => ""
  end.

(** The SHA1 values of the files of a package. *)
Definition fileSHA1s (p : Package) : list string :=
  (λ kf : string * File.t, sha1Of kf.2) <$> entries (Files p).

(** The verification code the specification describes: the digest of the
    sorted SHA1 values joined together. *)
Definition verificationCodeOf (hashes : list string) : string :=
  Sha1.hex (Str.concat (sort_Strings hashes)).

(** The files attached one after the other by successive calls of
    [AddFile]. *)
Fixpoint AddFiles (p : Package) (files : list File.t) : Package :=
  match files with
  | [] => p
  | f :: files => AddFiles (AddFile p f).1.1 files
  end.

(** The file as [AddFile] leaves it, the identifier it is attached under,
    and whether the call succeeds. *)
Definition attached (p : Package) (f : File.t) : File.t := (AddFile p f).1.2.

Definition attachedID (p : Package) (f : File.t) : string := File.ID (attached p f).

Definition attaches (p : Package) (f : File.t) : Prop := (AddFile p f).2 = None.

(** The identifier a package is attached under: its own, or the one derived
    from its name, if there is one. *)
Definition derivedID (pkg : Package) : option string :=
  if decide (ID pkg = "") then
    let id := stripInvalidChars (Name pkg) in
    if decide (id = "") then None else Some ("SPDXRef-Package-" +:+ id)
  else Some (ID pkg).

(** The error of an attachment that fails on an identifier already in
    use. *)
Definition conflictError (id : string) (err : error) : Prop :=
  err = Some ("performing subpackage preprocessing: a package named " +:+ id
              +:+ " already exists as a subpackage")
  ∨ err = Some ("performing subpackage preprocessing: a package named " +:+ id
                +:+ " already exists as a dependency").

(** The error message names the file: it holds its name or its
    identifier. *)
Definition names_file (msg : string) (f : File.t) : Prop :=
  Str.contains msg (File.Name f) ∨ Str.contains msg (File.ID f).

(** The pieces of [execTemplate], one per line or group of lines of the
    template: the header comes first, every other piece is a whole number of
    lines. *)
Definition segments (p : Package) : list string :=
  [ "##### Package: " +:+ htmlEscape (Name p) +:+ Str.nl +:+ Str.nl;
    ifSet (Name p) ("PackageName: " +:+ htmlEscape (Name p) +:+ Str.nl);
    ifSet (ID p) ("SPDXID: " +:+ htmlEscape (ID p) +:+ Str.nl);
    checksumLines (Checksum p);
    "PackageDownloadLocation: " +:+ orElse (DownloadLocation p) "NONE" +:+ Str.nl;
    "FilesAnalyzed: " +:+ (if FilesAnalyzed p then "true" else "false") +:+ Str.nl;
    ifSet (VerificationCode p)
      ("PackageVerificationCode: " +:+ htmlEscape (VerificationCode p) +:+ Str.nl);
    "PackageLicenseConcluded: " +:+ orElse (LicenseConcluded p) "NOASSERTION" +:+ Str.nl;
    ifSet (FileName p) ("PackageFileName: " +:+ htmlEscape (FileName p) +:+ Str.nl) ]
  ++ ((λ tag, "PackageLicenseInfoFromFiles: " +:+ htmlEscape tag +:+ Str.nl)
        <$> LicenseInfoFromFiles p)
  ++ [ ifSet (Version p) ("PackageVersion: " +:+ htmlEscape (Version p) +:+ Str.nl);
       "PackageLicenseDeclared: " +:+ orElse (LicenseDeclared p) "NOASSERTION" +:+ Str.nl;
       "PackageCopyrightText: "
       +:+ (if decide (CopyrightText p = "") then "NOASSERTION"
            else "<text>" +:+ htmlEscape (CopyrightText p) +:+ Str.nl +:+ "</text>")
       +:+ Str.nl +:+ Str.nl ].

(** A piece of text made of whole lines: empty, or ending with a newline. *)
Definition whole_lines (s : string) : Prop := s = "" ∨ Str.has_suffix s Str.nl.

(** The fragment holds [line] as a line of its own, after the first one. *)
Definition has_line (frag line : string) : Prop :=
  Str.contains frag (Str.nl +:+ line +:+ Str.nl).


(** The sub-packages and the dependencies of a package have pairwise
    distinct identifiers, within each map and across the two. *)
Definition distinct_children (p : Package) : Prop :=
  NoDup (keys (Packages p) ++ keys (Dependencies p)).

(** The message of an attachment that fails for want of an identifier. *)
Definition nameNeeded : string :=
  "performing subpackage preprocessing: package name is needed to add a new package".

(** The part of a fragment that comes from the files: for each file in
    turn its own fragment and the relationship line. *)
Definition filesDoc (File_Render : File.t → string * error) (pid : string)
    (fs : list (string * File.t)) : string :=
  Str.concat
    ((λ kf : string * File.t,
        (File_Render kf.2).1 +:+ relationship "CONTAINS" pid (File.ID kf.2)) <$> fs).

(** The part that comes from the sub-packages or from the dependencies: for
    each package in turn its rendered fragment and the relationship line. *)
Definition packagesDoc (File_Render : File.t → string * error) (verb pid : string)
    (pkgs : list (string * Package)) : string :=
  Str.concat
    ((λ kp : string * Package,
        (Render File_Render kp.2).2.1 +:+ relationship verb pid (ID kp.2)) <$> pkgs).

(** The children of a package as a successful render leaves them. *)
Definition renderedChildren (File_Render : File.t → string * error)
    (pkgs : list (string * Package)) : list (string * Package) :=
  (λ kp : string * Package, (kp.1, (Render File_Render kp.2).1)) <$> pkgs.

(** A child after a render of its parent: under the same key, either as it
    was or as its own render leaves it. *)
Definition child_after (File_Render : File.t → string * error)
    (a b : string * Package) : Prop :=
  a.1 = b.1 ∧ (b.2 = a.2 ∨ b.2 = (Render File_Render a.2).1).

(** The three errors of the derived fields. *)
Definition incompleteData (e : string) : Prop :=
  e = "unable to get package verification code, package has no files"
  ∨ e = "unable to render package, file has no checksums"
  ∨ e = "unable to render package, files were analyzed but some do not have sha1 checksum".

(** The bytes the HTML escaper replaces. *)
Definition htmlEscaped (c : ascii) : Prop :=
  c = ascii_of_nat 0 ∨ c = Str.dquote ∨ c = "&"%char ∨ c = "'"%char
  ∨ c = "+"%char ∨ c = "<"%char ∨ c = ">"%char.

(** ** Example data *)

(** A [File.Render] that returns an empty fragment. *)
Definition emptyFileRender (f : File.t) : string * error := ("", None).

(** The package and the file of the end-to-end example of section 8 of the
    specification, with the content hash as a parameter. *)
Definition aaaa : string := "aaaaaaaaaaaaaaaaaaaaaaaaaaaaaaaaaaaaaaaa".

Definition bbbb : string := "bbbbbbbbbbbbbbbbbbbbbbbbbbbbbbbbbbbbbbbb".

Definition main_c (h : string) : File.t :=
  File.mk "" "main.c" (Some {[ "SHA1" := h ]}) "".

Definition util_c (h : string) : File.t :=
  File.mk "" "util.c" (Some {[ "SHA1" := h ]}) "".

Definition hello : Package := set_FilesAnalyzed true (set_Name "hello" NewPackage).

(** [hello] after [hello.AddFile(main_c h)]. *)
Definition hello_main_c (h : string) : Package := (AddFile hello (main_c h)).1.1.

(** [hello] with the identifier it is given when it is attached to a parent
    as a sub-package, and that package after [AddFile(main_c h)]. *)
Definition hello_attached : Package := (AddPackage NewPackage hello).1.2.

Definition hello_example (h : string) : Package :=
  (AddFile hello_attached (main_c h)).1.1.

(** The identifier of the file of the example. *)
Definition main_c_ID : string := "SPDXRef-File-" +:+ Sha1.hex "hello:main.c".

(** A file without a checksum table and a file whose table has no SHA1
    entry. *)
Definition no_checksums_c : File.t := File.mk "" "main.c" None "".

Definition no_sha1_c : File.t :=
  File.mk "" "main.c" (Some {[ "SHA256" := aaaa ]}) "".

(** A package whose working directory is [/work]. *)
Definition work_package : Package :=
  mkPackage false "" "" "" "" "" [] "" "" "" "" "" ""
    (mkEntity "" "") (mkEntity "" "") None None None None
    (Some (mkPackageOptions "/work")).


(** Files with a licence tag, and a package that holds four of them. *)
Definition licensed (name tag : string) : File.t :=
  File.mk "" name (Some {[ "SHA1" := aaaa ]}) tag.


(** A package whose only file is tagged [NONE]. *)
Definition none_package : Package := AddFiles hello [licensed "a.c" "NONE"].

(** [work_package] after it has read [/work/hello.tar], with [aaaa] and
    [bbbb] for the two digests. *)
Definition work_package_read : Package :=
  set_FileName "hello.tar"
    (set_SourceFile "/work/hello.tar"
       (set_Checksum (Some {[ "SHA256" := aaaa; "SHA512" := bbbb ]}) work_package)).

(** * Properties *)

(** ** Facts about strings *)

Lemma str_app_nil_l (a : string) : "" +:+ a = a.
Proof. reflexivity. Qed.

Lemma str_app_cons (x : ascii) (a b : string) :
  String x a +:+ b = String x (a +:+ b).
Proof. reflexivity. Qed.

Lemma str_app_assoc (a b c : string) : (a +:+ b) +:+ c = a +:+ (b +:+ c).
Proof.
  induction a as [|x a IH]; [done|]. by rewrite !str_app_cons, IH.
Qed.

Lemma str_app_nil_r (a : string) : a +:+ "" = a.
Proof. induction a as [|x a IH]; [done|]. by rewrite str_app_cons, IH. Qed.

Lemma str_app_length (a b : string) :
  String.length (a +:+ b) = String.length a + String.length b.
Proof.
  induction a as [|x a IH]; [done|]. rewrite str_app_cons. simpl. by rewrite IH.
Qed.

Lemma has_prefix_app (pre s : string) : Str.has_prefix pre (pre +:+ s) = true.
Proof.
  induction pre as [|a pre IH]; [done|].
  rewrite str_app_cons. simpl. by rewrite decide_True.
Qed.

Lemma has_prefix_inv (pre s : string) :
  Str.has_prefix pre s = true → ∃ r, s = pre +:+ r.
Proof.
  revert s. induction pre as [|a pre IH]; intros s; simpl.
  - intros _. by exists s.
  - destruct s as [|b s]; [done|].
    destruct (decide (a = b)) as [->|]; [|done].
    intros [r ->]%IH. exists r. by rewrite str_app_cons.
Qed.

Lemma drop_app (pre s : string) : Str.drop (String.length pre) (pre +:+ s) = s.
Proof.
  induction pre as [|a pre IH]; [by destruct s|]. by rewrite str_app_cons.
Qed.

Lemma trim_prefix_app (pre rest : string) :
  Str.trim_prefix (pre +:+ rest) pre = rest.
Proof. unfold Str.trim_prefix. by rewrite has_prefix_app, drop_app. Qed.

Lemma trim_prefix_none (pre s : string) :
  Str.has_prefix pre s = false → Str.trim_prefix s pre = s.
Proof. unfold Str.trim_prefix. by intros ->. Qed.

Lemma containsb_sound (s sub : string) :
  Str.containsb s sub = true → Str.contains s sub.
Proof.
  induction s as [|c s IH]; simpl.
  - rewrite orb_false_r. intros [r Hr]%has_prefix_inv. by exists "", r.
  - intros [H|H]%orb_true_iff.
    + apply has_prefix_inv in H as [r Hr]. by exists "", r.
    + destruct (IH H) as (a & b & ->). exists (String c a), b.
      by rewrite str_app_cons.
Qed.

Lemma containsb_complete (s sub : string) :
  Str.contains s sub → Str.containsb s sub = true.
Proof.
  intros (a & b & ->). induction a as [|c a IH].
  - rewrite str_app_nil_l.
    assert (Str.has_prefix sub (sub +:+ b) = true) as H by apply has_prefix_app.
    destruct (sub +:+ b); simpl; by rewrite H.
  - rewrite str_app_cons. simpl. rewrite IH. apply orb_true_r.
Qed.

Lemma not_contains (s sub : string) :
  Str.containsb s sub = false → ¬ Str.contains s sub.
Proof. intros Hf Hc. apply containsb_complete in Hc. congruence. Qed.

Lemma contains_here (s sub t : string) : Str.contains (sub +:+ t) sub.
Proof. by exists "", t. Qed.

Lemma contains_app_l (a b sub : string) :
  Str.contains a sub → Str.contains (a +:+ b) sub.
Proof.
  intros (x & y & ->). exists x, (y +:+ b). by rewrite !str_app_assoc.
Qed.

Lemma contains_app_r (a b sub : string) :
  Str.contains b sub → Str.contains (a +:+ b) sub.
Proof.
  intros (x & y & ->). exists (a +:+ x), y. by rewrite !str_app_assoc.
Qed.

(** A piece that starts where the text before it ends on a newline starts
    a line. *)
Lemma contains_after_nl (a b line : string) :
  Str.has_suffix a Str.nl → Str.contains (a +:+ line +:+ b) (Str.nl +:+ line).
Proof.
  intros [x ->]. exists x, b. by rewrite !str_app_assoc.
Qed.

Lemma has_suffix_app (a b suf : string) :
  Str.has_suffix b suf → Str.has_suffix (a +:+ b) suf.
Proof. intros [x ->]. exists (a +:+ x). by rewrite str_app_assoc. Qed.

Lemma has_suffix_here (a suf : string) : Str.has_suffix (a +:+ suf) suf.
Proof. by exists a. Qed.


(** ** Facts about the digest *)

Lemma hexdigit_is_hexdigit (n : Z) : Sha1.is_hexdigit (Sha1.hexdigit n).
Proof.
  unfold Sha1.is_hexdigit, Sha1.hexdigit.
  apply list_elem_of_In, nth_In.
  assert (0 ≤ Z.land n 15 < 16)%Z as H.
  { change 15%Z with (Z.ones 4). rewrite Z.land_ones by lia.
    apply Z.mod_pos_bound. lia. }
  simpl. lia.
Qed.

Lemma hex_of_bytes_all (l : list Z) :
  Str.all Sha1.is_hexdigit (Sha1.hex_of_bytes l).
Proof.
  induction l as [|b l IH]; simpl; [done|].
  auto using hexdigit_is_hexdigit.
Qed.

Lemma hex_of_bytes_length (l : list Z) :
  String.length (Sha1.hex_of_bytes l) = 2 * length l.
Proof. induction l as [|b l IH]; simpl; [done|]. rewrite IH. lia. Qed.

Lemma Sum_length (m : list Z) : length (Sha1.Sum m) = 20.
Proof.
  unfold Sha1.Sum.
  destruct (Sha1.blocks _ _ _) as [[[[h0 h1] h2] h3] h4].
  reflexivity.
Qed.

Lemma sha1_hex_length (s : string) : String.length (Sha1.hex s) = 40.
Proof. unfold Sha1.hex. by rewrite hex_of_bytes_length, Sum_length. Qed.

Lemma sha1_hex_all (s : string) : Str.all Sha1.is_hexdigit (Sha1.hex s).
Proof. apply hex_of_bytes_all. Qed.

Lemma sha1_hex_nonempty (s : string) : Sha1.hex s ≠ "".
Proof.
  intros H. pose proof (sha1_hex_length s) as Hl. rewrite H in Hl. done.
Qed.

(** The test vectors of FIPS 180-4 and RFC 3174. *)
Example sha1_empty :
  Sha1.hex "" = "da39a3ee5e6b4b0d3255bfef95601890afd80709".
Proof. vm_compute. reflexivity. Qed.

Example sha1_abc :
  Sha1.hex "abc" = "a9993e364706816aba3e25717850c26c9cd0d89d".
Proof. vm_compute. reflexivity. Qed.

Example sha1_two_blocks :
  Sha1.hex "abcdbcdecdefdefgefghfghighijhijkijkljklmklmnlmnomnopnopq"
  = "84983e441c3bd26ebaae4aa1f95129e5e54670f1".
Proof. vm_compute. reflexivity. Qed.

(** Hexadecimal digits pass through the HTML escaper unchanged. *)
Lemma htmlEscape_hex (s : string) :
  Str.all Sha1.is_hexdigit s → htmlEscape s = s.
Proof.
  induction s as [|c s IH]; simpl; [done|].
  intros [Hc Hs]. rewrite (IH Hs).
  unfold Sha1.is_hexdigit, Sha1.hexdigits in Hc.
  rewrite !elem_of_cons in Hc.
  destruct Hc as [->|[->|[->|[->|[->|[->|[->|[->|[->|[->|[->|[->|[->|[->|[->|[->|Hc]]]]]]]]]]]]]]]];
    try reflexivity.
  by apply elem_of_nil in Hc.
Qed.

(** ** Association lists as maps *)

Section Assoc.

Context {V : Type}.
Implicit Types (l : list (string * V)) (k : string) (v : V).

Lemma assoc_lookup_is_Some k l : is_Some (assoc_lookup k l) ↔ k ∈ l.*1.
Proof.
  induction l as [|[k' v'] l IH]; simpl.
  - rewrite elem_of_nil. split; [by intros [??]|done].
  - rewrite elem_of_cons. destruct (decide (k = k')) as [->|Hne].
    + split; [by left|by eauto].
    + rewrite IH. split; [by right|]. by intros [?|?].
Qed.

Lemma assoc_lookup_insert k v l : assoc_lookup k (assoc_insert k v l) = Some v.
Proof.
  induction l as [|[k' v'] l IH]; simpl.
  - by rewrite decide_True.
  - destruct (decide (k = k')) as [->|Hne]; simpl.
    + by rewrite decide_True.
    + by rewrite decide_False.
Qed.

Lemma filter_absent_key k l :
  k ∉ l.*1 → filter (λ e, e.1 ≠ k) l = l.
Proof.
  induction l as [|[k' v'] l IH]; [done|]. simpl.
  rewrite not_elem_of_cons. intros [Hne Hnin].
  rewrite filter_cons_True by (simpl; congruence). by rewrite IH.
Qed.

(** Storing under a key keeps the other bindings and leaves one binding for
    the key. *)
Lemma assoc_insert_perm k v l :
  NoDup l.*1 → assoc_insert k v l ≡ₚ (k, v) :: filter (λ e, e.1 ≠ k) l.
Proof.
  induction l as [|[k' v'] l IH]; simpl; [done|].
  rewrite NoDup_cons. intros [Hnin Hnd].
  destruct (decide (k = k')) as [->|Hne].
  - rewrite filter_cons_False by (simpl; naive_solver).
    by rewrite filter_absent_key.
  - rewrite filter_cons_True by (simpl; congruence).
    rewrite IH by done. apply perm_swap.
Qed.

Lemma assoc_insert_keys k v l : ∀ k', k' ∈ (assoc_insert k v l).*1 → k' = k ∨ k' ∈ l.*1.
Proof.
  induction l as [|[k1 v1] l IH]; simpl; intros k'.
  - rewrite list_elem_of_singleton. auto.
  - destruct (decide (k = k1)) as [->|Hne]; simpl; rewrite !elem_of_cons.
    + intros [->|H]; auto.
    + intros [->|H]; [auto|]. apply IH in H as [->|H]; auto.
Qed.

Lemma assoc_insert_NoDup k v l : NoDup l.*1 → NoDup (assoc_insert k v l).*1.
Proof.
  induction l as [|[k1 v1] l IH]; simpl.
  - intros _. apply NoDup_singleton.
  - rewrite NoDup_cons. intros [Hnin Hnd].
    destruct (decide (k = k1)) as [->|Hne]; simpl; rewrite NoDup_cons.
    + done.
    + split; [|by apply IH].
      intros [->|H]%assoc_insert_keys; done.
Qed.

End Assoc.

(** ** Sorting *)

Lemma sort_Strings_perm (l1 l2 : list string) :
  l1 ≡ₚ l2 → sort_Strings l1 = sort_Strings l2.
Proof.
  intros Hp. unfold sort_Strings.
  apply (Sorted_unique String.le).
  - apply Sorted_merge_sort; apply _.
  - apply Sorted_merge_sort; apply _.
  - by rewrite !merge_sort_Permutation.
Qed.


(** ** The shape of [Render] *)

Section RenderFacts.

Variable File_Render : File.t → string * error.

Lemma Render_unfold (p : Package) :
  Render File_Render p =
  match deriveFields p with
  | inr msg => (p, ("", errors.New msg))
  | inl p1 =>
      match renderFiles File_Render (ID p1) (entries (Files p1)) (execTemplate p1) with
      | (_, Some e) => (p1, ("", Some e))
      | (docFragment, None) =>
          match
            match Packages p with
            | None => (None, (docFragment, None))
            | Some pkgs =>
                let '(pkgs, r) :=
                  renderPackages (Render File_Render) "CONTAINS" (ID p1) pkgs docFragment in
                (Some pkgs, r)
            end
          with
          | (subs, (_, Some e)) => (set_Packages subs p1, ("", Some e))
          | (subs, (docFragment, None)) =>
              let p2 := set_Packages subs p1 in
              match Dependencies p with
              | None => (p2, (docFragment, None))
              | Some pkgs =>
                  let '(pkgs, r) :=
                    renderPackages (Render File_Render) "DEPENDS_ON" (ID p1) pkgs docFragment in
                  (set_Dependencies (Some pkgs) p2, r)
              end
          end
      end
  end.
Proof. destruct p; reflexivity. Qed.

Lemma renderFiles_extends pid fs doc d :
  renderFiles File_Render pid fs doc = (d, None) → ∃ r, d = doc +:+ r.
Proof.
  revert doc. induction fs as [|[k f] fs IH]; intros doc; simpl.
  - intros [= <-]. exists "". by rewrite str_app_nil_r.
  - destruct (File_Render f) as [frag [e|]]; [done|].
    intros [r ->]%IH. eexists. by rewrite !str_app_assoc.
Qed.

Lemma renderPackages_extends render verb pid pkgs doc pkgs' d :
  renderPackages render verb pid pkgs doc = (pkgs', (d, None)) →
  ∃ r, d = doc +:+ r.
Proof.
  revert doc pkgs'. induction pkgs as [|[k pkg] pkgs IH]; intros doc pkgs'; simpl.
  - intros [= <- <-]. exists "". by rewrite str_app_nil_r.
  - destruct (render pkg) as [pkg' [pkgDoc [e|]]]; [done|].
    destruct (renderPackages _ _ _ pkgs _) as [pkgs1 r1] eqn:E.
    intros [= <- ->]. apply IH in E as [r ->].
    eexists. by rewrite !str_app_assoc.
Qed.

(** A render that fails on the derived fields returns the package as it
    was, an empty fragment and the error. *)
Lemma Render_derive_error (p : Package) (msg : string) :
  deriveFields p = inr msg → Render File_Render p = (p, ("", Some msg)).
Proof. intros H. by rewrite Render_unfold, H. Qed.

(** A render that succeeds returns the executed template of the package
    with its derived fields, followed by the fragments of the children. *)
Lemma Render_success (p p' : Package) (frag : string) :
  Render File_Render p = (p', (frag, None)) →
  ∃ p1 r, deriveFields p = inl p1 ∧ frag = execTemplate p1 +:+ r.
Proof.
  rewrite Render_unfold.
  destruct (deriveFields p) as [p1|msg]; [|done].
  destruct (renderFiles _ _ _ _) as [d [e|]] eqn:Ef; [done|].
  apply renderFiles_extends in Ef as [r1 ->].
  intros H. exists p1.
  destruct (Packages p) as [pkgs|].
  - destruct (renderPackages _ _ _ pkgs _) as [pkgs1 [d1 [e|]]] eqn:E1; [done|].
    apply renderPackages_extends in E1 as [r2 ->].
    destruct (Dependencies p) as [deps|].
    + destruct (renderPackages _ _ _ deps _) as [deps1 [d2 e2]] eqn:E2.
      injection H as _ <- ->.
      apply renderPackages_extends in E2 as [r3 ->].
      eexists. split; [done|]. by rewrite ?str_app_assoc.
    + injection H as _ <-. eexists. split; [done|]. by rewrite ?str_app_assoc.
  - destruct (Dependencies p) as [deps|].
    + destruct (renderPackages _ _ _ deps _) as [deps1 [d2 e2]] eqn:E2.
      injection H as _ <- ->.
      apply renderPackages_extends in E2 as [r3 ->].
      eexists. split; [done|]. by rewrite ?str_app_assoc.
    + injection H as _ <-. eexists. split; [done|]. by rewrite ?str_app_assoc.
Qed.

(** Whatever happens after the fields are derived, the package that
    [Render] leaves differs from the derived one in its children only. *)
Lemma Render_post (p p1 : Package) :
  deriveFields p = inl p1 →
  ∃ subs deps, (Render File_Render p).1 = set_Dependencies deps (set_Packages subs p1).
Proof.
  intros H. rewrite Render_unfold, H.
  assert (∀ q, q = set_Dependencies (Dependencies q) (set_Packages (Packages q) q))
    as Hid by (by intros []).
  assert (∀ subs q, set_Packages subs q
            = set_Dependencies (Dependencies q) (set_Packages subs q))
    as Hid2 by (by intros ? []).
  destruct (renderFiles _ _ _ _) as [d [e|]]; [by eauto|].
  destruct (Packages p) as [pkgs|].
  - destruct (renderPackages _ _ _ pkgs _) as [pkgs1 [d1 [e|]]]; simpl; [by eauto|].
    destruct (Dependencies p) as [deps|]; [|by eauto].
    destruct (renderPackages _ _ _ deps _) as [deps1 r]; simpl. by eauto.
  - destruct (Dependencies p) as [deps|]; [|by eauto].
    destruct (renderPackages _ _ _ deps _) as [deps1 r]; simpl. by eauto.
Qed.

End RenderFacts.

(** ** The derived fields *)

Lemma fields_set_children (subs deps : option (list (string * Package))) (p : Package) :
  let q := set_Dependencies deps (set_Packages subs p) in
  FilesAnalyzed q = FilesAnalyzed p ∧ Name q = Name p ∧ ID q = ID p
  ∧ VerificationCode q = VerificationCode p
  ∧ LicenseInfoFromFiles q = LicenseInfoFromFiles p ∧ Files q = Files p.
Proof. by destruct p. Qed.

Lemma collect_ok (fs : list (string * File.t)) (shaList filesTagList : list string) :
  Forall (λ kf, hasSHA1 kf.2) fs →
  ∃ tags, collect fs shaList filesTagList
          = inl (shaList ++ ((λ kf, sha1Of kf.2) <$> fs), tags).
Proof.
  revert shaList filesTagList.
  induction fs as [|[k f] fs IH]; intros shaList filesTagList Hall; simpl.
  - eexists. by rewrite app_nil_r.
  - apply Forall_cons in Hall as [(cs & Hcs & [sha Hsha]) Hall]. simpl in *.
    unfold sha1Of. rewrite Hcs, Hsha. simpl.
    edestruct (IH (shaList ++ [sha])) as [tags ->]; [done|].
    eexists. by rewrite <- app_assoc.
Qed.

Lemma collect_error (fs : list (string * File.t)) (shaList filesTagList : list string) :
  ¬ Forall (λ kf, hasSHA1 kf.2) fs →
  ∃ msg, collect fs shaList filesTagList = inr msg
    ∧ (msg = "unable to render package, file has no checksums"
       ∨ msg = "unable to render package, files were analyzed but some do not have sha1 checksum").
Proof.
  revert shaList filesTagList.
  induction fs as [|[k f] fs IH]; intros shaList filesTagList Hall; simpl.
  - by destruct Hall.
  - destruct (File.Checksum f) as [cs|] eqn:Hcs; [|by eauto].
    destruct (cs !! "SHA1") as [sha|] eqn:Hsha; [|by eauto].
    apply IH. intros H. apply Hall. constructor; [|done].
    exists cs. by rewrite Hsha.
Qed.

Lemma collect_no_tags (fs : list (string * File.t)) (shaList filesTagList s t : list string) :
  Forall (λ kf, File.LicenseInfoInFile kf.2 = "") fs →
  collect fs shaList filesTagList = inl (s, t) → t = filesTagList.
Proof.
  revert shaList filesTagList.
  induction fs as [|[k f] fs IH]; intros shaList filesTagList Hall; simpl.
  - by intros [= _ <-].
  - apply Forall_cons in Hall as [Hf Hall]. simpl in Hf.
    destruct (File.Checksum f) as [cs|]; [|done].
    destruct (cs !! "SHA1") as [sha|]; [|done].
    rewrite Hf. rewrite decide_False by naive_solver.
    by apply IH.
Qed.

(** What [deriveFields] leaves untouched. *)
Lemma deriveFields_fields (p p1 : Package) :
  deriveFields p = inl p1 →
  FilesAnalyzed p1 = FilesAnalyzed p ∧ Name p1 = Name p ∧ ID p1 = ID p
  ∧ DownloadLocation p1 = DownloadLocation p
  ∧ LicenseConcluded p1 = LicenseConcluded p
  ∧ LicenseDeclared p1 = LicenseDeclared p
  ∧ CopyrightText p1 = CopyrightText p ∧ Version p1 = Version p
  ∧ FileName p1 = FileName p ∧ Files p1 = Files p
  ∧ Checksum p1 = Checksum p
  ∧ Packages p1 = Packages p ∧ Dependencies p1 = Dependencies p.
Proof.
  unfold deriveFields.
  destruct (FilesAnalyzed p) eqn:Hfa; [|by intros [= <-]].
  destruct (decide _); [done|].
  destruct (collect _ _ _) as [[shaList filesTagList]|]; [|done].
  intros [= <-]. destruct p; simpl in *.
  by destruct (decide (length filesTagList = 0)).
Qed.

Lemma deriveFields_analyzed (p : Package) :
  FilesAnalyzed p = true →
  entries (Files p) ≠ [] →
  Forall (λ kf, hasSHA1 kf.2) (entries (Files p)) →
  ∃ p1, deriveFields p = inl p1
    ∧ VerificationCode p1 = verificationCodeOf (fileSHA1s p).
Proof.
  intros Hfa Hne Hall. unfold deriveFields. rewrite Hfa.
  rewrite decide_False by (by destruct (entries (Files p))).
  destruct (collect_ok _ [] [] Hall) as [tags ->].
  eexists. split; [done|].
  destruct p; simpl. by destruct (decide (length tags = 0)).
Qed.

Lemma Render_VerificationCode File_Render (p : Package) :
  VerificationCode (Render File_Render p).1 =
  match deriveFields p with
  | inl p1 => VerificationCode p1
  | inr _ => VerificationCode p
  end.
Proof.
  destruct (deriveFields p) as [p1|msg] eqn:E.
  - destruct (Render_post File_Render p p1 E) as (subs & deps & ->).
    by destruct p1.
  - by rewrite (Render_derive_error _ _ _ E).
Qed.

(** ** C1: the verification code *)




(** ** C2: the verification code and the order of attachment *)

Lemma AddFile_name_only (p q : Package) (f : File.t) :
  Name p = Name q →
  attached p f = attached q f ∧ (attaches p f ↔ attaches q f).
Proof.
  intros Hn. unfold attached, attaches, AddFile.
  assert (∀ r : Package,
            Name (if Files r is None then set_Files (Some []) r else r) = Name r)
    as Hname by (intros r; destruct (Files r); [done|by destruct r]).
  rewrite !Hname, Hn.
  repeat destruct (decide _); simpl; done.
Qed.

Lemma AddFile_ok (p : Package) (f : File.t) :
  attaches p f →
  let q := (AddFile p f).1.1 in
  entries (Files q) = assoc_insert (attachedID p f) (attached p f) (entries (Files p))
  ∧ Name q = Name p ∧ FilesAnalyzed q = FilesAnalyzed p
  ∧ VerificationCode q = VerificationCode p.
Proof.
  unfold attaches, attachedID, attached, AddFile.
  destruct p as [fa name id dl vc lc liff ld lcm ct ver fn sf sup orig pkgs fs cs deps opts].
  destruct fs as [fs|]; simpl;
    repeat (destruct (decide _); simpl; try done).
Qed.

Lemma filter_all {A : Type} (P : A → Prop) `{∀ x, Decision (P x)} (l : list A) :
  (∀ x, P x) → filter P l = l.
Proof.
  intros HP. induction l as [|x l IH]; [done|].
  by rewrite filter_cons_True, IH.
Qed.

(** The bindings left by a sequence of successful [AddFile] calls on files
    with distinct identifiers: one per file, and the earlier bindings under
    the other keys.  [p0] fixes the package name the identifiers are
    derived from. *)
Lemma AddFiles_entries (p0 : Package) (files : list File.t) : ∀ p : Package,
  Name p = Name p0 →
  NoDup (keys (Files p)) →
  Forall (attaches p0) files →
  NoDup (attachedID p0 <$> files) →
  entries (Files (AddFiles p files))
    ≡ₚ ((λ f, (attachedID p0 f, attached p0 f)) <$> files)
       ++ filter (λ e, e.1 ∉ attachedID p0 <$> files) (entries (Files p))
  ∧ FilesAnalyzed (AddFiles p files) = FilesAnalyzed p
  ∧ VerificationCode (AddFiles p files) = VerificationCode p.
Proof.
  induction files as [|f files IH]; intros p Hn Hnd Hatt Hids; simpl.
  - split; [|done]. rewrite filter_all; [done|].
    intros e. apply not_elem_of_nil.
  - apply Forall_cons in Hatt as [Hf Hatt].
    apply NoDup_cons in Hids as [Hnin Hids].
    destruct (AddFile_name_only p p0 f Hn) as [Hsame Hiff].
    apply Hiff in Hf.
    destruct (AddFile_ok p f Hf) as (Hent & Hname & Hfa & Hvc).
    unfold attachedID in Hent. rewrite Hsame in Hent.
    fold (attachedID p0 f) in Hent.
    destruct (IH (AddFile p f).1.1) as (Hperm & Hfa' & Hvc'); try done.
    { congruence. }
    { unfold keys. rewrite Hent. by apply assoc_insert_NoDup. }
    split; [|by rewrite Hfa', Hvc'].
    rewrite Hperm, Hent.
    rewrite (assoc_insert_perm _ _ _ Hnd).
    rewrite filter_cons_True by done.
    rewrite list_filter_filter.
    rewrite <- Permutation_middle. constructor.
    apply Permutation_app_head.
    erewrite list_filter_iff; [done|].
    intros [k v]. simpl. rewrite not_elem_of_cons. tauto.
Qed.

Lemma deriveFields_perm (q1 q2 : Package) :
  FilesAnalyzed q1 = FilesAnalyzed q2 →
  VerificationCode q1 = VerificationCode q2 →
  entries (Files q1) ≡ₚ entries (Files q2) →
  match deriveFields q1 with inl r => VerificationCode r | inr _ => VerificationCode q1 end
  = match deriveFields q2 with inl r => VerificationCode r | inr _ => VerificationCode q2 end.
Proof.
  intros Hfa Hvc Hperm.
  destruct (FilesAnalyzed q1) eqn:Hfa1; symmetry in Hfa.
  2: { unfold deriveFields. by rewrite Hfa1, Hfa. }
  destruct (decide (entries (Files q1) = [])) as [He|Hne].
  { assert (entries (Files q2) = []) as He2.
    { symmetry. apply Permutation_nil_l. by rewrite <- He. }
    unfold deriveFields. by rewrite Hfa1, Hfa, He, He2. }
  assert (entries (Files q2) ≠ []) as Hne2.
  { intros He2. apply Hne. apply Permutation_nil_r. by rewrite <- He2. }
  destruct (decide (Forall (λ kf, hasSHA1 kf.2) (entries (Files q1)))) as [Hall|Hnall].
  - destruct (deriveFields_analyzed q1 Hfa1 Hne Hall) as (r1 & -> & ->).
    destruct (deriveFields_analyzed q2 Hfa Hne2) as (r2 & -> & ->).
    { by rewrite <- Hperm. }
    unfold verificationCodeOf, fileSHA1s.
    f_equal. f_equal. apply sort_Strings_perm. by rewrite Hperm.
  - assert (¬ Forall (λ kf, hasSHA1 kf.2) (entries (Files q2))) as Hnall2.
    { by rewrite <- Hperm. }
    unfold deriveFields. rewrite Hfa1, Hfa.
    rewrite !decide_False by (by intros ?%length_zero_iff_nil).
    destruct (collect_error _ [] [] Hnall) as (m1 & -> & _).
    by destruct (collect_error _ [] [] Hnall2) as (m2 & -> & _).
Qed.

(** The verification code that [Render] leaves does not depend on the order
    in which the files of the package are visited. *)
Lemma Render_VerificationCode_any_order
    (File_Render : File.t → string * error) (q1 q2 : Package) :
  FilesAnalyzed q1 = FilesAnalyzed q2 →
  VerificationCode q1 = VerificationCode q2 →
  entries (Files q1) ≡ₚ entries (Files q2) →
  VerificationCode (Render File_Render q1).1
  = VerificationCode (Render File_Render q2).1.
Proof.
  intros. rewrite !Render_VerificationCode. by apply deriveFields_perm.
Qed.

(** C2 (as amended): for any files that [AddFile] attaches under pairwise
    distinct identifiers, the verification code computed by [Render] is the
    same for every order in which the files were attached. *)
Theorem verification_code_order_independent
    (File_Render : File.t → string * error) (p : Package) (files1 files2 : list File.t) :
  NoDup (keys (Files p)) →
  Forall (attaches p) files1 →
  NoDup (attachedID p <$> files1) →
  files1 ≡ₚ files2 →
  VerificationCode (Render File_Render (AddFiles p files1)).1
  = VerificationCode (Render File_Render (AddFiles p files2)).1.
Proof.
  intros Hnd Hatt Hids Hperm.
  destruct (AddFiles_entries p files1 p eq_refl Hnd Hatt Hids) as (He1 & Hfa1 & Hvc1).
  destruct (AddFiles_entries p files2 p eq_refl Hnd) as (He2 & Hfa2 & Hvc2).
  { by rewrite <- Hperm. }
  { by rewrite <- Hperm. }
  rewrite !Render_VerificationCode.
  apply deriveFields_perm; [congruence..|].
  rewrite He1, He2. apply Permutation_app.
  - by rewrite Hperm.
  - erewrite list_filter_iff; [done|].
    intros e. simpl. by rewrite Hperm.
Qed.

Lemma verification_code_order_independent_witness :
  NoDup (keys (Files hello))
  ∧ Forall (attaches hello) [main_c aaaa; util_c bbbb]
  ∧ NoDup (attachedID hello <$> [main_c aaaa; util_c bbbb])
  ∧ [main_c aaaa; util_c bbbb] ≡ₚ [util_c bbbb; main_c aaaa]
  ∧ VerificationCode
      (Render emptyFileRender (AddFiles hello [main_c aaaa; util_c bbbb])).1
    = VerificationCode
        (Render emptyFileRender (AddFiles hello [util_c bbbb; main_c aaaa])).1.
Proof.
  assert (NoDup (keys (Files hello))) as H1 by apply NoDup_nil_2.
  assert (Forall (attaches hello) [main_c aaaa; util_c bbbb]) as H2
    by (repeat constructor).
  assert (NoDup (attachedID hello <$> [main_c aaaa; util_c bbbb])) as H3.
  { apply (bool_decide_unpack _). vm_compute. exact I. }
  assert ([main_c aaaa; util_c bbbb] ≡ₚ [util_c bbbb; main_c aaaa]) as H4
    by apply perm_swap.
  split; [exact H1|]. split; [exact H2|]. split; [exact H3|]. split; [exact H4|].
  exact (verification_code_order_independent emptyFileRender hello _ _ H1 H2 H3 H4).
Defined.

(** C2 as stated fails when two of the files are attached under the same
    identifier (here two files named [main.c] without an identifier of
    their own): [AddFile] keeps the last one only, so the order of
    attachment decides which hash enters the verification code. *)
Lemma verification_code_depends_on_order_for_equal_IDs :
  (AddFile hello (main_c aaaa)).2 = None
  ∧ (AddFile (AddFile hello (main_c aaaa)).1.1 (main_c bbbb)).2 = None
  ∧ [main_c aaaa; main_c bbbb] ≡ₚ [main_c bbbb; main_c aaaa]
  ∧ VerificationCode
      (Render emptyFileRender (AddFiles hello [main_c aaaa; main_c bbbb])).1
    = Sha1.hex bbbb
  ∧ VerificationCode
      (Render emptyFileRender (AddFiles hello [main_c bbbb; main_c aaaa])).1
    = Sha1.hex aaaa
  ∧ VerificationCode
      (Render emptyFileRender (AddFiles hello [main_c aaaa; main_c bbbb])).1
    ≠ VerificationCode
        (Render emptyFileRender (AddFiles hello [main_c bbbb; main_c aaaa])).1.
Proof.
  split; [vm_compute; reflexivity|].
  split; [vm_compute; reflexivity|].
  split; [apply perm_swap|].
  split; [vm_compute; reflexivity|].
  split; [vm_compute; reflexivity|].
  vm_compute. discriminate.
Qed.

(** ** C3: synthesized identifiers *)

Lemma ID_set_ID (v : string) (p : Package) : ID (set_ID v p) = v.
Proof. by destruct p. Qed.

Lemma preProcessSubPackage_ID (p pkg : Package) :
  ID pkg = "" → stripInvalidChars (Name pkg) ≠ "" →
  ID (preProcessSubPackage p pkg).1
  = "SPDXRef-Package-" +:+ stripInvalidChars (Name pkg).
Proof.
  intros Hid Hne. unfold preProcessSubPackage.
  rewrite (decide_True _ _ Hid), (decide_True _ _ Hne).
  repeat case_match; simpl; apply ID_set_ID.
Qed.

Lemma AddPackage_pkg (p pkg : Package) :
  ∃ q, Name q = Name p ∧ (AddPackage p pkg).1.2 = (preProcessSubPackage q pkg).1.
Proof.
  unfold AddPackage.
  exists (if Packages p is None then set_Packages (Some []) p else p).
  split; [destruct (Packages p); [done|by destruct p]|].
  by destruct (preProcessSubPackage _ pkg) as [pkg1 [e|]].
Qed.

Lemma AddDependency_pkg (p pkg : Package) :
  ∃ q, Name q = Name p ∧ (AddDependency p pkg).1.2 = (preProcessSubPackage q pkg).1.
Proof.
  unfold AddDependency.
  exists (if Dependencies p is None then set_Dependencies (Some []) p else p).
  split; [destruct (Dependencies p); [done|by destruct p]|].
  by destruct (preProcessSubPackage _ pkg) as [pkg1 [e|]].
Qed.

(** C3 (as amended): when a File with empty ID is attached via [AddFile] to
    a package whose Name is non-empty and the file Name is non-empty, the
    synthesized file ID equals [SPDXRef-File-] followed by the 40 hex
    characters of the SHA1 digest of [<package name>:<file name>]; and when
    a Package with empty ID, from whose Name at least one character
    survives the stripping, is attached as a sub-package or dependency, its
    ID equals [SPDXRef-Package-] followed by Name with every character
    outside letters, digits, [.] and [-] stripped. *)
Theorem synthesized_identifiers (p : Package) (file : File.t) (pkg : Package) :
  (File.ID file = "" → Name p ≠ "" → File.Name file ≠ "" →
   let digest := Sha1.hex (Name p +:+ ":" +:+ File.Name file) in
   (AddFile p file).2 = None
   ∧ File.ID (AddFile p file).1.2 = "SPDXRef-File-" +:+ digest
   ∧ String.length digest = 40
   ∧ Str.all Sha1.is_hexdigit digest
   ∧ assoc_lookup ("SPDXRef-File-" +:+ digest) (entries (Files (AddFile p file).1.1))
     = Some (AddFile p file).1.2)
  ∧ (ID pkg = "" → stripInvalidChars (Name pkg) ≠ "" →
     stripInvalidChars (Name pkg) = Str.filter validNameChar (Name pkg)
     ∧ ID (AddPackage p pkg).1.2
       = "SPDXRef-Package-" +:+ stripInvalidChars (Name pkg)
     ∧ ID (AddDependency p pkg).1.2
       = "SPDXRef-Package-" +:+ stripInvalidChars (Name pkg)).
Proof.
  split.
  - intros Hid Hpn Hfn digest.
    split; [|split; [|split; [apply sha1_hex_length|split; [apply sha1_hex_all|]]]].
    + unfold AddFile. rewrite (decide_True _ _ Hid), (decide_False _ _ Hfn).
      assert (Name (if Files p is None then set_Files (Some []) p else p) = Name p)
        as -> by (destruct (Files p); [done|by destruct p]).
      by rewrite (decide_False _ _ Hpn).
    + unfold AddFile. rewrite (decide_True _ _ Hid), (decide_False _ _ Hfn).
      assert (Name (if Files p is None then set_Files (Some []) p else p) = Name p)
        as -> by (destruct (Files p); [done|by destruct p]).
      by rewrite (decide_False _ _ Hpn).
    + unfold AddFile. rewrite (decide_True _ _ Hid), (decide_False _ _ Hfn).
      assert (Name (if Files p is None then set_Files (Some []) p else p) = Name p)
        as -> by (destruct (Files p); [done|by destruct p]).
      rewrite (decide_False _ _ Hpn). cbn [fst snd].
      assert (∀ v q, entries (Files (set_Files (Some v) q)) = v) as ->
        by (by intros ? []).
      apply assoc_lookup_insert.
  - intros Hid Hne. split; [done|]. split.
    + destruct (AddPackage_pkg p pkg) as (q & _ & ->).
      by apply preProcessSubPackage_ID.
    + destruct (AddDependency_pkg p pkg) as (q & _ & ->).
      by apply preProcessSubPackage_ID.
Qed.

Lemma synthesized_identifiers_witness :
  (File.ID (main_c aaaa) = "" ∧ Name hello ≠ "" ∧ File.Name (main_c aaaa) ≠ ""
   ∧ File.ID (AddFile hello (main_c aaaa)).1.2
     = "SPDXRef-File-" +:+ Sha1.hex (Name hello +:+ ":" +:+ File.Name (main_c aaaa)))
  ∧ (ID hello = "" ∧ stripInvalidChars (Name hello) ≠ ""
     ∧ ID (AddPackage NewPackage hello).1.2
       = "SPDXRef-Package-" +:+ stripInvalidChars (Name hello)).
Proof.
  assert (File.ID (main_c aaaa) = "") as H1 by reflexivity.
  assert (Name hello ≠ "") as H2 by (vm_compute; discriminate).
  assert (File.Name (main_c aaaa) ≠ "") as H3 by (vm_compute; discriminate).
  assert (ID hello = "") as H4 by reflexivity.
  assert (stripInvalidChars (Name hello) ≠ "") as H5 by (vm_compute; discriminate).
  split.
  - split; [exact H1|]. split; [exact H2|]. split; [exact H3|].
    exact (proj1 (proj2 (proj1 (synthesized_identifiers hello (main_c aaaa) hello) H1 H2 H3))).
  - split; [exact H4|]. split; [exact H5|].
    exact (proj1 (proj2 (proj2 (synthesized_identifiers NewPackage (main_c aaaa) hello) H4 H5))).
Defined.

Example stripInvalidChars_example :
  stripInvalidChars "hello world_1.0-rc2 (x86)!" = "helloworld1.0-rc2x86".
Proof. reflexivity. Qed.

Example attached_file_ID :
  File.ID (AddFile hello (main_c aaaa)).1.2
  = "SPDXRef-File-721e00ec4e522cf0757591169a375f96212928c7".
Proof. vm_compute. reflexivity. Qed.

(** C3 as stated fails: the identifiers the code builds start with
    [SPDXRef-], so they are not [File-] or [Package-] followed by the
    derived part; and a package whose non-empty Name has no character of
    the class keeps its empty ID. *)
Lemma synthesized_identifiers_have_SPDXRef_prefix :
  (File.ID (main_c aaaa) = "" ∧ Name hello ≠ "" ∧ File.Name (main_c aaaa) ≠ ""
   ∧ File.ID (AddFile hello (main_c aaaa)).1.2
     ≠ "File-" +:+ Sha1.hex (Name hello +:+ ":" +:+ File.Name (main_c aaaa)))
  ∧ (ID hello = "" ∧ Name hello ≠ ""
     ∧ ID (AddPackage NewPackage hello).1.2 = "SPDXRef-Package-hello"
     ∧ ID (AddPackage NewPackage hello).1.2
       ≠ "Package-" +:+ stripInvalidChars (Name hello)
     ∧ ID (AddDependency NewPackage hello).1.2
       ≠ "Package-" +:+ stripInvalidChars (Name hello))
  ∧ (let pkg := set_Name "@@@" NewPackage in
     ID pkg = "" ∧ Name pkg ≠ ""
     ∧ ID (AddPackage NewPackage pkg).1.2 = ""
     ∧ ID (AddPackage NewPackage pkg).1.2
       ≠ "Package-" +:+ stripInvalidChars (Name pkg)).
Proof.
  split; [|split].
  - split; [reflexivity|]. split; [vm_compute; discriminate|].
    split; [vm_compute; discriminate|]. vm_compute. discriminate.
  - split; [reflexivity|]. split; [vm_compute; discriminate|].
    split; [vm_compute; reflexivity|].
    split; vm_compute; discriminate.
  - split; [reflexivity|]. split; [vm_compute; discriminate|].
    split; [vm_compute; reflexivity|]. vm_compute. discriminate.
Qed.

(** ** The lines of the template *)

Lemma concat_app (l1 l2 : list string) :
  Str.concat (l1 ++ l2) = Str.concat l1 +:+ Str.concat l2.
Proof.
  induction l1 as [|s l1 IH]; simpl; [done|]. by rewrite IH, str_app_assoc.
Qed.

Lemma execTemplate_segments (p : Package) :
  execTemplate p = Str.concat (segments p).
Proof.
  unfold execTemplate, segments, licenseInfoLines.
  rewrite !concat_app. simpl. by rewrite !str_app_assoc, str_app_nil_r.
Qed.

Lemma whole_lines_ifSet (x body : string) :
  Str.has_suffix body Str.nl → whole_lines (ifSet x body).
Proof. unfold ifSet. destruct (decide _); [by left|by right]. Qed.

Lemma whole_lines_app (a b : string) :
  whole_lines a → whole_lines b → whole_lines (a +:+ b).
Proof.
  intros [->|Ha] [->|Hb].
  - by left.
  - right. by rewrite str_app_nil_l.
  - right. by rewrite str_app_nil_r.
  - right. by apply has_suffix_app.
Qed.

Lemma whole_lines_concat (l : list string) :
  Forall whole_lines l → whole_lines (Str.concat l).
Proof.
  induction 1 as [|s l Hs Hl IH]; simpl; [by left|]. by apply whole_lines_app.
Qed.

Lemma has_suffix_nl_app (a b : string) :
  Str.has_suffix a Str.nl → whole_lines b → Str.has_suffix (a +:+ b) Str.nl.
Proof.
  intros Ha [->|Hb]; [by rewrite str_app_nil_r|by apply has_suffix_app].
Qed.

Lemma ends_nl (a : string) : Str.has_suffix (a +:+ Str.nl) Str.nl.
Proof. apply has_suffix_here. Qed.

Lemma ends_nl2 (a b : string) : Str.has_suffix (a +:+ b +:+ Str.nl) Str.nl.
Proof. apply has_suffix_app, has_suffix_here. Qed.

Lemma ends_nl3 (a b c : string) : Str.has_suffix (a +:+ b +:+ c +:+ Str.nl) Str.nl.
Proof. do 2 apply has_suffix_app. apply has_suffix_here. Qed.

Lemma segments_whole_lines (p : Package) :
  ∃ header rest, segments p = header :: rest
    ∧ Str.has_suffix header Str.nl ∧ Forall whole_lines rest.
Proof.
  eexists _, _. split; [reflexivity|]. split; [apply ends_nl3|].
  repeat first
    [ apply Forall_cons_2 | apply Forall_app_2 | apply Forall_nil_2 ];
    try (apply whole_lines_ifSet, ends_nl2);
    try (right; apply ends_nl2);
    try (right; apply ends_nl3).
  - unfold checksumLines. apply whole_lines_concat, Forall_fmap, Forall_true.
    intros kv. simpl. apply whole_lines_ifSet. do 3 apply has_suffix_app. apply ends_nl.
  - apply Forall_fmap, Forall_true. intros tag. simpl. right. apply ends_nl2.
Qed.

(** Every piece after the header starts on a new line of the executed
    template. *)
Lemma template_segment (p : Package) (seg : string) :
  seg ∈ tail (segments p) → Str.contains (execTemplate p) (Str.nl +:+ seg).
Proof.
  rewrite execTemplate_segments.
  destruct (segments_whole_lines p) as (header & rest & -> & Hh & Hrest).
  simpl. intros (r1 & r2 & ->)%list_elem_of_split.
  apply Forall_app in Hrest as [Hr1 _].
  rewrite concat_app. simpl.
  rewrite <- str_app_assoc.
  apply contains_after_nl.
  apply has_suffix_nl_app; [done|]. by apply whole_lines_concat.
Qed.

Lemma template_line (p : Package) (line : string) :
  line +:+ Str.nl ∈ tail (segments p) → has_line (execTemplate p) line.
Proof. apply template_segment. Qed.

Lemma ifSet_set (x body : string) : x ≠ "" → ifSet x body = body.
Proof. intros H. unfold ifSet. by rewrite decide_False. Qed.

Lemma orElse_unset (sentinel : string) : orElse "" sentinel = sentinel.
Proof. reflexivity. Qed.


Lemma line_PackageName (p : Package) :
  Name p ≠ "" → has_line (execTemplate p) ("PackageName: " +:+ htmlEscape (Name p)).
Proof.
  intros H. apply template_line. rewrite str_app_assoc.
  unfold segments. cbn [tail app]. rewrite (ifSet_set _ _ H). by left.
Qed.


Lemma line_PackageDownloadLocation (p : Package) :
  has_line (execTemplate p)
    ("PackageDownloadLocation: " +:+ orElse (DownloadLocation p) "NONE").
Proof.
  apply template_line. rewrite str_app_assoc.
  unfold segments. cbn [tail app]. do 3 right. by left.
Qed.

Lemma line_PackageVerificationCode (p : Package) :
  VerificationCode p ≠ "" →
  has_line (execTemplate p)
    ("PackageVerificationCode: " +:+ htmlEscape (VerificationCode p)).
Proof.
  intros H. apply template_line. rewrite str_app_assoc.
  unfold segments. cbn [tail app]. rewrite (ifSet_set (VerificationCode p) _ H).
  do 5 right. by left.
Qed.

Lemma line_PackageLicenseConcluded (p : Package) :
  has_line (execTemplate p)
    ("PackageLicenseConcluded: " +:+ orElse (LicenseConcluded p) "NOASSERTION").
Proof.
  apply template_line. rewrite str_app_assoc.
  unfold segments. cbn [tail app]. do 6 right. by left.
Qed.

Lemma line_PackageFileName (p : Package) :
  FileName p ≠ "" →
  has_line (execTemplate p) ("PackageFileName: " +:+ htmlEscape (FileName p)).
Proof.
  intros H. apply template_line. rewrite str_app_assoc.
  unfold segments. cbn [tail app]. rewrite (ifSet_set (FileName p) _ H).
  do 7 right. by left.
Qed.

Lemma line_PackageLicenseInfoFromFiles (p : Package) (tag : string) :
  tag ∈ LicenseInfoFromFiles p →
  has_line (execTemplate p) ("PackageLicenseInfoFromFiles: " +:+ htmlEscape tag).
Proof.
  intros H. apply template_line. rewrite str_app_assoc.
  unfold segments. cbn [tail app]. do 8 right.
  apply elem_of_app. left.
  apply (list_elem_of_fmap_2
           (λ tag, "PackageLicenseInfoFromFiles: " +:+ htmlEscape tag +:+ Str.nl) _ _ H).
Qed.


Lemma line_PackageLicenseDeclared (p : Package) :
  has_line (execTemplate p)
    ("PackageLicenseDeclared: " +:+ orElse (LicenseDeclared p) "NOASSERTION").
Proof.
  apply template_line. rewrite str_app_assoc.
  unfold segments. cbn [tail app]. do 8 right.
  apply elem_of_app. right. right. by left.
Qed.


Lemma template_header (p : Package) :
  ∃ r, execTemplate p = "##### Package: " +:+ htmlEscape (Name p) +:+ Str.nl +:+ r.
Proof. eexists. reflexivity. Qed.

(** ** C7: sentinel values *)

Lemma deriveFields_no_tags (p : Package) :
  FilesAnalyzed p = true →
  entries (Files p) ≠ [] →
  Forall (λ kf, hasSHA1 kf.2) (entries (Files p)) →
  Forall (λ kf, File.LicenseInfoInFile kf.2 = "") (entries (Files p)) →
  deriveFields p
  = inl (set_LicenseInfoFromFiles (LicenseInfoFromFiles p ++ [NONE])
           (set_VerificationCode (verificationCodeOf (fileSHA1s p)) p)).
Proof.
  intros Hfa Hne Hall Hno. unfold deriveFields. rewrite Hfa.
  rewrite decide_False by (by destruct (entries (Files p))).
  destruct (collect_ok _ [] [] Hall) as [tags Hc]. rewrite Hc.
  apply (collect_no_tags _ _ _ _ _ Hno) in Hc as ->.
  destruct p; simpl. by rewrite app_nil_r.
Qed.

Lemma deriveFields_NONE (p p1 : Package) :
  FilesAnalyzed p = true →
  Forall (λ kf, File.LicenseInfoInFile kf.2 = "") (entries (Files p)) →
  deriveFields p = inl p1 →
  NONE ∈ LicenseInfoFromFiles p1.
Proof.
  intros Hfa Hno. unfold deriveFields. rewrite Hfa.
  destruct (decide _); [done|].
  destruct (collect _ _ _) as [[shaList tags]|] eqn:Hc; [|done].
  apply (collect_no_tags _ _ _ _ _ Hno) in Hc as ->.
  intros [= <-]. destruct p; simpl.
  apply elem_of_app. right. by left.
Qed.

(** C7 (as amended): a package with FilesAnalyzed true whose files all have
    empty LicenseInfoInFile renders the line
    [PackageLicenseInfoFromFiles: NONE]; and a package with empty
    LicenseConcluded renders [PackageLicenseConcluded: NOASSERTION] while
    one with empty LicenseDeclared renders
    [PackageLicenseDeclared: NOASSERTION]. *)
Theorem sentinel_lines
    (File_Render : File.t → string * error) (p p' : Package) (frag : string) :
  Render File_Render p = (p', (frag, None)) →
  (FilesAnalyzed p = true →
   (∀ k f, (k, f) ∈ entries (Files p) → File.LicenseInfoInFile f = "") →
   has_line frag "PackageLicenseInfoFromFiles: NONE")
  ∧ (LicenseConcluded p = "" → has_line frag "PackageLicenseConcluded: NOASSERTION")
  ∧ (LicenseDeclared p = "" → has_line frag "PackageLicenseDeclared: NOASSERTION").
Proof.
  intros (p1 & r & Hd & ->)%Render_success.
  destruct (deriveFields_fields p p1 Hd)
    as (_ & _ & _ & _ & Hlc & Hld & _).
  split; [|split].
  - intros Hfa Hno. apply contains_app_l.
    apply (line_PackageLicenseInfoFromFiles p1 NONE).
    apply (deriveFields_NONE p p1 Hfa); [|done].
    apply Forall_forall. intros [k f] Hin. by apply (Hno k).
  - intros H. apply contains_app_l.
    pose proof (line_PackageLicenseConcluded p1) as Hl.
    by rewrite Hlc, H in Hl.
  - intros H. apply contains_app_l.
    pose proof (line_PackageLicenseDeclared p1) as Hl.
    by rewrite Hld, H in Hl.
Qed.

Lemma sentinel_lines_witness :
  let r := Render emptyFileRender (hello_example aaaa) in
  r.2.2 = None
  ∧ FilesAnalyzed (hello_example aaaa) = true
  ∧ LicenseConcluded (hello_example aaaa) = ""
  ∧ LicenseDeclared (hello_example aaaa) = ""
  ∧ has_line r.2.1 "PackageLicenseInfoFromFiles: NONE"
  ∧ has_line r.2.1 "PackageLicenseConcluded: NOASSERTION"
  ∧ has_line r.2.1 "PackageLicenseDeclared: NOASSERTION".
Proof.
  intros r.
  assert (Render emptyFileRender (hello_example aaaa) = (r.1, (r.2.1, None))) as Hr
    by (vm_compute; reflexivity).
  assert (FilesAnalyzed (hello_example aaaa) = true) as Hfa by reflexivity.
  assert (∀ k f, (k, f) ∈ entries (Files (hello_example aaaa)) →
                 File.LicenseInfoInFile f = "") as Hno.
  { intros k f Hin.
    assert (Forall (λ kf, File.LicenseInfoInFile kf.2 = "")
              (entries (Files (hello_example aaaa)))) as HF
      by (repeat constructor).
    by apply (proj1 (Forall_forall _ _) HF (k, f)). }
  assert (LicenseConcluded (hello_example aaaa) = "") as Hlc by reflexivity.
  assert (LicenseDeclared (hello_example aaaa) = "") as Hld by reflexivity.
  destruct (sentinel_lines emptyFileRender _ _ _ Hr) as (H1 & H2 & H3).
  split; [vm_compute; reflexivity|].
  split; [exact Hfa|]. split; [exact Hlc|]. split; [exact Hld|].
  split; [exact (H1 Hfa Hno)|]. split; [exact (H2 Hlc)|exact (H3 Hld)].
Defined.

(** C7 as stated fails for a package with FilesAnalyzed false: the whole
    block that derives [LicenseInfoFromFiles] is skipped, and the template
    prints no [PackageLicenseInfoFromFiles] line for an empty list, whether
    the package has no file or files without licence tags. *)
Lemma no_LicenseInfoFromFiles_line_when_not_analyzed :
  let p := set_Name "hello" NewPackage in
  let q := (AddFile p (main_c aaaa)).1.1 in
  FilesAnalyzed p = false
  ∧ (Render emptyFileRender p).2.2 = None
  ∧ ¬ Str.contains (Render emptyFileRender p).2.1 "PackageLicenseInfoFromFiles"
  ∧ FilesAnalyzed q = false
  ∧ (∀ k f, (k, f) ∈ entries (Files q) → File.LicenseInfoInFile f = "")
  ∧ (Render emptyFileRender q).2.2 = None
  ∧ ¬ Str.contains (Render emptyFileRender q).2.1 "PackageLicenseInfoFromFiles".
Proof.
  intros p q.
  split; [reflexivity|]. split; [vm_compute; reflexivity|].
  split; [apply not_contains; vm_compute; reflexivity|].
  split; [reflexivity|].
  split.
  { intros k f Hin.
    assert (Forall (λ kf, File.LicenseInfoInFile kf.2 = "") (entries (Files q))) as HF
      by (repeat constructor).
    by apply (proj1 (Forall_forall _ _) HF (k, f)). }
  split; [vm_compute; reflexivity|].
  apply not_contains; vm_compute; reflexivity.
Qed.

(** ** C4: the end-to-end example *)

Lemma sort_Strings_singleton (h : string) : sort_Strings [h] = [h].
Proof. reflexivity. Qed.

Lemma hello_example_eq (h : string) :
  hello_example h
  = mkPackage true "hello" "SPDXRef-Package-hello" "" "" "" [] "" "" "" "" "" ""
      (mkEntity "" "") (mkEntity "" "") None
      (Some [(main_c_ID, File.mk main_c_ID "main.c" (Some {[ "SHA1" := h ]}) "")])
      None None (Some (mkPackageOptions "")).
Proof. reflexivity. Qed.

Lemma hello_example_derived (h : string) :
  deriveFields (hello_example h)
  = inl (set_LicenseInfoFromFiles [NONE]
           (set_VerificationCode (Sha1.hex h) (hello_example h))).
Proof.
  assert (sha1Of (File.mk main_c_ID "main.c" (Some {[ "SHA1" := h ]}) "") = h) as Hsha.
  { unfold sha1Of. cbn [File.Checksum]. by rewrite lookup_singleton_eq. }
  rewrite deriveFields_no_tags.
  - rewrite hello_example_eq. unfold verificationCodeOf, fileSHA1s.
    cbn [Files entries fmap list_fmap snd]. rewrite Hsha.
    rewrite sort_Strings_singleton. cbn [Str.concat]. by rewrite str_app_nil_r.
  - by rewrite hello_example_eq.
  - by rewrite hello_example_eq.
  - rewrite hello_example_eq. cbn [Files entries].
    constructor; [|constructor]. eexists. split; [reflexivity|].
    by rewrite lookup_singleton_eq.
  - rewrite hello_example_eq. cbn [Files entries]. by repeat constructor.
Qed.

Lemma hello_example_render
    (File_Render : File.t → string * error) (h fileFragment : string) :
  File_Render (File.mk main_c_ID "main.c" (Some {[ "SHA1" := h ]}) "")
  = (fileFragment, None) →
  let p1 := set_LicenseInfoFromFiles [NONE]
              (set_VerificationCode (Sha1.hex h) (hello_example h)) in
  Render File_Render (hello_example h)
  = (p1, (execTemplate p1 +:+ fileFragment
            +:+ relationship "CONTAINS" "SPDXRef-Package-hello" main_c_ID,
          None)).
Proof.
  intros HF p1. rewrite Render_unfold, hello_example_derived. fold p1.
  assert (ID p1 = "SPDXRef-Package-hello") as -> by reflexivity.
  assert (entries (Files p1)
          = [(main_c_ID, File.mk main_c_ID "main.c" (Some {[ "SHA1" := h ]}) "")])
    as -> by reflexivity.
  cbn [renderFiles]. rewrite HF. cbn [File.ID].
  assert (Packages (hello_example h) = None) as -> by reflexivity.
  assert (Dependencies (hello_example h) = None) as -> by reflexivity.
  cbn zeta.
  assert (set_Packages None p1 = p1) as -> by reflexivity.
  by rewrite <- str_app_assoc.
Qed.

(** C4 (as amended): for a package with Name [hello] that carries the
    identifier [SPDXRef-Package-hello] it is given when attached as a
    sub-package, one file with Name [main.c] attached via [AddFile] with a
    SHA1 content hash [h], FilesAnalyzed true and no explicit license
    fields, [Render] (when the file renders) returns a fragment with the
    line [PackageVerificationCode: ] followed by the hex SHA1 digest of
    [h], the line [PackageLicenseInfoFromFiles: NONE], and the trailing
    line [Relationship: SPDXRef-Package-hello CONTAINS SPDXRef-File-]
    followed by the hex SHA1 digest of [hello:main.c]. *)
Theorem end_to_end_example
    (File_Render : File.t → string * error) (h fileFragment : string) :
  File_Render (attached hello_attached (main_c h)) = (fileFragment, None) →
  ∃ p' frag,
    Render File_Render (hello_example h) = (p', (frag, None))
    ∧ has_line frag ("PackageVerificationCode: " +:+ Sha1.hex h)
    ∧ has_line frag "PackageLicenseInfoFromFiles: NONE"
    ∧ Str.has_suffix frag
        ("Relationship: SPDXRef-Package-hello CONTAINS SPDXRef-File-"
           +:+ Sha1.hex "hello:main.c" +:+ Str.nl +:+ Str.nl).
Proof.
  intros HF. eexists _, _.
  split; [by apply hello_example_render|].
  set (p1 := set_LicenseInfoFromFiles _ _).
  assert (VerificationCode p1 = Sha1.hex h) as Hvc by reflexivity.
  split; [|split].
  - apply contains_app_l.
    rewrite <- (htmlEscape_hex (Sha1.hex h)) at 1 by apply sha1_hex_all.
    rewrite <- Hvc. apply line_PackageVerificationCode.
    rewrite Hvc. apply sha1_hex_nonempty.
  - apply contains_app_l.
    apply (line_PackageLicenseInfoFromFiles p1 NONE).
    assert (LicenseInfoFromFiles p1 = [NONE]) as -> by reflexivity. by left.
  - do 2 apply has_suffix_app.
    unfold relationship, main_c_ID. exists "".
    generalize (Sha1.hex "hello:main.c"). intros digest.
    by rewrite !str_app_assoc.
Qed.

Lemma end_to_end_example_witness :
  emptyFileRender (attached hello_attached (main_c aaaa)) = ("", None)
  ∧ ∃ p' frag,
      Render emptyFileRender (hello_example aaaa) = (p', (frag, None))
      ∧ has_line frag ("PackageVerificationCode: " +:+ Sha1.hex aaaa)
      ∧ has_line frag "PackageLicenseInfoFromFiles: NONE"
      ∧ Str.has_suffix frag
          ("Relationship: SPDXRef-Package-hello CONTAINS SPDXRef-File-"
             +:+ Sha1.hex "hello:main.c" +:+ Str.nl +:+ Str.nl).
Proof.
  split; [reflexivity|].
  apply (end_to_end_example emptyFileRender aaaa ""). reflexivity.
Defined.

Example end_to_end_digests :
  Sha1.hex aaaa = "a56559418dc7908ce5f0b24b05c78e055cb863dc"
  ∧ Sha1.hex "hello:main.c" = "721e00ec4e522cf0757591169a375f96212928c7".
Proof. split; vm_compute; reflexivity. Qed.

(** C4 as stated fails: the relationship line carries the [SPDXRef-]
    identifiers, and a package that was given no identifier has none in
    it, so the fragment holds no [Relationship: Package-hello CONTAINS
    File-...] line in either case. *)
Lemma end_to_end_relationship_line_differs :
  let claimed :=
    "Relationship: Package-hello CONTAINS File-" +:+ Sha1.hex "hello:main.c" in
  (Render emptyFileRender (hello_main_c aaaa)).2.2 = None
  ∧ ¬ Str.contains (Render emptyFileRender (hello_main_c aaaa)).2.1 claimed
  ∧ Str.contains (Render emptyFileRender (hello_main_c aaaa)).2.1
      ("Relationship:  CONTAINS SPDXRef-File-721e00ec4e522cf0757591169a375f96212928c7"
         +:+ Str.nl +:+ Str.nl)
  ∧ (Render emptyFileRender (hello_example aaaa)).2.2 = None
  ∧ ¬ Str.contains (Render emptyFileRender (hello_example aaaa)).2.1 claimed
  ∧ Str.contains (Render emptyFileRender (hello_example aaaa)).2.1
      ("Relationship: SPDXRef-Package-hello CONTAINS SPDXRef-File-721e00ec4e522cf0757591169a375f96212928c7"
         +:+ Str.nl +:+ Str.nl).
Proof.
  intros claimed.
  split; [vm_compute; reflexivity|].
  split; [apply not_contains; vm_compute; reflexivity|].
  split; [apply containsb_sound; vm_compute; reflexivity|].
  split; [vm_compute; reflexivity|].
  split; [apply not_contains; vm_compute; reflexivity|].
  apply containsb_sound; vm_compute; reflexivity.
Qed.

(** ** C5: identifiers already in use *)

Lemma has_key_elem_of {V : Type} (m : gomap V) (k : string) :
  has_key m k = true ↔ k ∈ keys m.
Proof.
  unfold has_key, keys. rewrite bool_decide_eq_true. apply assoc_lookup_is_Some.
Qed.

Lemma str_cons_app_nonempty (c : ascii) (a b : string) : String c a +:+ b ≠ "".
Proof. by rewrite str_app_cons. Qed.

Lemma preProcessSubPackage_conflict (q pkg : Package) (id : string) :
  derivedID pkg = Some id →
  id ∈ keys (Packages q) ∨ id ∈ keys (Dependencies q) →
  (preProcessSubPackage q pkg).2
  = Some ("a package named " +:+ id +:+ " already exists as a subpackage")
  ∨ (preProcessSubPackage q pkg).2
    = Some ("a package named " +:+ id +:+ " already exists as a dependency").
Proof.
  intros Hid Hin. unfold preProcessSubPackage.
  set (pkg' := if decide (ID pkg = "") then _ else _).
  assert (ID pkg' = id ∧ id ≠ "") as [Hid' Hne].
  { unfold pkg', derivedID in *.
    destruct (decide (ID pkg = "")) as [He|He].
    - destruct (decide (stripInvalidChars (Name pkg) = "")) as [Hs|Hs]; [done|].
      injection Hid as <-. rewrite (decide_True _ _ Hs), ID_set_ID.
      split; [done|]. apply str_cons_app_nonempty.
    - injection Hid as <-. done. }
  rewrite Hid'. rewrite (decide_False _ _ Hne).
  destruct (has_key (Packages q) id) eqn:Hp; [by left|].
  destruct (has_key (Dependencies q) id) eqn:Hd; [by right|].
  destruct Hin as [Hin|Hin]; apply has_key_elem_of in Hin; congruence.
Qed.

(** C5: attaching a sub-package via [AddPackage], or a dependency via
    [AddDependency], whose derived or explicit ID already exists in the
    sub-package map or in the dependency map of the parent fails with a
    conflict error, and neither the Packages map nor the Dependencies map
    gains or loses an entry. *)
Theorem attach_conflict (p pkg : Package) (id : string) :
  derivedID pkg = Some id →
  id ∈ keys (Packages p) ∨ id ∈ keys (Dependencies p) →
  (conflictError id (AddPackage p pkg).2
   ∧ entries (Packages (AddPackage p pkg).1.1) = entries (Packages p)
   ∧ entries (Dependencies (AddPackage p pkg).1.1) = entries (Dependencies p))
  ∧ (conflictError id (AddDependency p pkg).2
     ∧ entries (Packages (AddDependency p pkg).1.1) = entries (Packages p)
     ∧ entries (Dependencies (AddDependency p pkg).1.1) = entries (Dependencies p)).
Proof.
  intros Hid Hin. split.
  - unfold AddPackage.
    set (q := if Packages p is None then set_Packages (Some []) p else p).
    assert (entries (Packages q) = entries (Packages p)
            ∧ Dependencies q = Dependencies p) as [Hq1 Hq2].
    { unfold q. destruct (Packages p) eqn:E; simpl; rewrite ?E; [done|].
      destruct p; simpl in *. by subst. }
    pose proof (preProcessSubPackage_conflict q pkg id Hid) as Hc.
    unfold keys in Hc. rewrite Hq1, Hq2 in Hc. specialize (Hc Hin).
    destruct (preProcessSubPackage q pkg) as [pkg1 err]. simpl in Hc.
    unfold conflictError.
    destruct Hc as [-> | ->]; simpl; rewrite Hq1, Hq2; auto.
  - unfold AddDependency.
    set (q := if Dependencies p is None then set_Dependencies (Some []) p else p).
    assert (Packages q = Packages p
            ∧ entries (Dependencies q) = entries (Dependencies p)) as [Hq1 Hq2].
    { unfold q. destruct (Dependencies p) eqn:E; simpl; rewrite ?E; [done|].
      destruct p; simpl in *. by subst. }
    pose proof (preProcessSubPackage_conflict q pkg id Hid) as Hc.
    unfold keys in Hc. rewrite Hq1, Hq2 in Hc. specialize (Hc Hin).
    destruct (preProcessSubPackage q pkg) as [pkg1 err]. simpl in Hc.
    unfold conflictError.
    destruct Hc as [-> | ->]; simpl; rewrite Hq1, Hq2; auto.
Qed.

Lemma attach_conflict_witness :
  let parent := (AddDependency NewPackage hello).1.1 in
  derivedID hello = Some "SPDXRef-Package-hello"
  ∧ ("SPDXRef-Package-hello" ∈ keys (Packages parent)
     ∨ "SPDXRef-Package-hello" ∈ keys (Dependencies parent))
  ∧ conflictError "SPDXRef-Package-hello" (AddPackage parent hello).2
  ∧ entries (Packages (AddPackage parent hello).1.1) = entries (Packages parent)
  ∧ entries (Dependencies (AddPackage parent hello).1.1) = entries (Dependencies parent).
Proof.
  intros parent.
  assert (derivedID hello = Some "SPDXRef-Package-hello") as H1 by reflexivity.
  assert ("SPDXRef-Package-hello" ∈ keys (Packages parent)
          ∨ "SPDXRef-Package-hello" ∈ keys (Dependencies parent)) as H2.
  { right. vm_compute. by left. }
  split; [exact H1|]. split; [exact H2|].
  exact (proj1 (attach_conflict parent hello _ H1 H2)).
Defined.

(** ** C6: incomplete data *)

(** C6 (as amended): for every package with FilesAnalyzed true, [Render]
    fails if the package has zero files, and fails if any file has no
    checksums or no SHA1 content-hash entry, with one of two fixed messages;
    in every such failure case the returned document fragment is empty and
    the package is left as it was. *)
Theorem Render_incomplete_data
    (File_Render : File.t → string * error) (p : Package) :
  FilesAnalyzed p = true →
  (entries (Files p) = [] →
   Render File_Render p
   = (p, ("", Some "unable to get package verification code, package has no files")))
  ∧ ((∃ k f, (k, f) ∈ entries (Files p) ∧ ¬ hasSHA1 f) →
     Render File_Render p
     = (p, ("", Some "unable to render package, file has no checksums"))
     ∨ Render File_Render p
       = (p, ("", Some "unable to render package, files were analyzed but some do not have sha1 checksum"))).
Proof.
  intros Hfa. split.
  - intros He. apply Render_derive_error.
    unfold deriveFields. by rewrite Hfa, He.
  - intros (k & f & Hin & Hno).
    assert (¬ Forall (λ kf, hasSHA1 kf.2) (entries (Files p))) as Hnall.
    { intros Hall. apply Hno.
      by apply (proj1 (Forall_forall _ _) Hall (k, f)). }
    destruct (collect_error _ [] [] Hnall) as (msg & Hc & Hmsg).
    assert (deriveFields p = inr msg) as Hd.
    { unfold deriveFields. rewrite Hfa, Hc.
      rewrite decide_False; [done|].
      intros Hl%length_zero_iff_nil. rewrite Hl in Hin. by apply elem_of_nil in Hin. }
    rewrite (Render_derive_error _ _ _ Hd).
    destruct Hmsg as [-> | ->]; auto.
Qed.

Lemma Render_incomplete_data_witness :
  let p := (AddFile hello no_sha1_c).1.1 in
  FilesAnalyzed hello = true ∧ entries (Files hello) = []
  ∧ Render emptyFileRender hello
    = (hello, ("", Some "unable to get package verification code, package has no files"))
  ∧ FilesAnalyzed p = true
  ∧ (∃ k f, (k, f) ∈ entries (Files p) ∧ ¬ hasSHA1 f)
  ∧ (Render emptyFileRender p
     = (p, ("", Some "unable to render package, file has no checksums"))
     ∨ Render emptyFileRender p
       = (p, ("", Some "unable to render package, files were analyzed but some do not have sha1 checksum"))).
Proof.
  intros p.
  assert (FilesAnalyzed hello = true) as H1 by reflexivity.
  assert (entries (Files hello) = []) as H2 by reflexivity.
  assert (FilesAnalyzed p = true) as H3 by reflexivity.
  assert (∃ k f, (k, f) ∈ entries (Files p) ∧ ¬ hasSHA1 f) as H4.
  { exists (attachedID hello no_sha1_c), (attached hello no_sha1_c).
    split; [by left|].
    apply (bool_decide_unpack _). vm_compute. exact I. }
  split; [exact H1|]. split; [exact H2|].
  split; [exact (proj1 (Render_incomplete_data emptyFileRender hello H1) H2)|].
  split; [exact H3|]. split; [exact H4|].
  exact (proj2 (Render_incomplete_data emptyFileRender p H3) H4).
Defined.

(** C6 as stated fails on the part that has the error name the offending
    file: the two messages are constants, and hold neither the name nor
    the identifier of the file. *)
Lemma Render_error_does_not_name_the_file :
  let f1 := attached hello no_checksums_c in
  let p1 := (AddFile hello no_checksums_c).1.1 in
  let f2 := attached hello no_sha1_c in
  let p2 := (AddFile hello no_sha1_c).1.1 in
  (File.Name f1 = "main.c" ∧ File.ID f1 = main_c_ID ∧ File.Checksum f1 = None
   ∧ entries (Files p1) = [(main_c_ID, f1)]
   ∧ Render emptyFileRender p1
     = (p1, ("", Some "unable to render package, file has no checksums"))
   ∧ ¬ names_file "unable to render package, file has no checksums" f1)
  ∧ (File.Name f2 = "main.c" ∧ File.ID f2 = main_c_ID ∧ ¬ hasSHA1 f2
     ∧ entries (Files p2) = [(main_c_ID, f2)]
     ∧ Render emptyFileRender p2
       = (p2, ("", Some "unable to render package, files were analyzed but some do not have sha1 checksum"))
     ∧ ¬ names_file
           "unable to render package, files were analyzed but some do not have sha1 checksum"
           f2).
Proof.
  intros f1 p1 f2 p2. split.
  - split; [reflexivity|]. split; [reflexivity|]. split; [reflexivity|].
    split; [reflexivity|]. split; [vm_compute; reflexivity|].
    intros [H|H]; revert H; apply not_contains; vm_compute; reflexivity.
  - split; [reflexivity|]. split; [reflexivity|].
    split; [apply (bool_decide_unpack _); vm_compute; exact I|].
    split; [reflexivity|]. split; [vm_compute; reflexivity|].
    intros [H|H]; revert H; apply not_contains; vm_compute; reflexivity.
Qed.

(** ** C8: rendering twice *)

(** C8, the code at the failing input: a second [Render] of the example
    package appends [NONE] to [LicenseInfoFromFiles] once more, so the
    field holds more than the last render derived and the second fragment
    differs from the first. *)
Theorem Render_twice_repeats_LicenseInfoFromFiles :
  let r1 := Render emptyFileRender (hello_example aaaa) in
  let r2 := Render emptyFileRender r1.1 in
  LicenseInfoFromFiles (hello_example aaaa) = []
  ∧ r1.2.2 = None ∧ r2.2.2 = None
  ∧ LicenseInfoFromFiles r1.1 = [NONE]
  ∧ LicenseInfoFromFiles r2.1 = [NONE; NONE]
  ∧ VerificationCode r1.1 = VerificationCode r2.1
  ∧ r2.2.1 ≠ r1.2.1
  ∧ Str.contains r2.2.1
      ("PackageLicenseInfoFromFiles: NONE" +:+ Str.nl
         +:+ "PackageLicenseInfoFromFiles: NONE" +:+ Str.nl)
  ∧ ¬ Str.contains r1.2.1
        ("PackageLicenseInfoFromFiles: NONE" +:+ Str.nl
           +:+ "PackageLicenseInfoFromFiles: NONE" +:+ Str.nl).
Proof.
  intros r1 r2.
  split; [reflexivity|].
  split; [vm_compute; reflexivity|]. split; [vm_compute; reflexivity|].
  split; [vm_compute; reflexivity|]. split; [vm_compute; reflexivity|].
  split; [vm_compute; reflexivity|].
  split; [vm_compute; discriminate|].
  split; [apply containsb_sound; vm_compute; reflexivity|].
  apply not_contains; vm_compute; reflexivity.
Qed.

(** [Render] leaves the identifier and the files of the package alone. *)
Lemma Render_keeps_ID (File_Render : File.t → string * error) (p : Package) :
  ID (Render File_Render p).1 = ID p
  ∧ Name (Render File_Render p).1 = Name p
  ∧ Files (Render File_Render p).1 = Files p.
Proof.
  destruct (deriveFields p) as [p1|msg] eqn:E.
  - destruct (Render_post File_Render p p1 E) as (subs & deps & ->).
    destruct (deriveFields_fields p p1 E)
      as (_ & Hn & Hi & _ & _ & _ & _ & _ & _ & Hf & _).
    destruct (fields_set_children subs deps p1) as (_ & -> & -> & _ & _ & ->).
    done.
  - by rewrite (Render_derive_error _ _ _ E).
Qed.

(** ** C9: source file ingestion *)



Example ReadSourceFile_strips_WorkDir :
  let read :=
    ReadSourceFile (λ _, true) (λ _, (aaaa, None)) (λ _, (bbbb, None)) "/" work_package in
  (FileName <$> (fst <$> read "/work/dist/hello.tar")) = Some "dist/hello.tar"
  ∧ (FileName <$> (fst <$> read "/other/hello.tar")) = Some "/other/hello.tar"
  ∧ (snd <$> read "/other/hello.tar") = Some None.
Proof. repeat split. Qed.

(** ** C10: HTML escaping *)






(** * Further properties of the operations *)

(** ** More on association lists *)

Section AssocMore.

Context {V : Type}.
Implicit Types (l : list (string * V)) (k : string) (v : V).

Lemma assoc_lookup_insert_ne k k' v l :
  k ≠ k' → assoc_lookup k (assoc_insert k' v l) = assoc_lookup k l.
Proof.
  intros Hne. induction l as [|[k1 v1] l IH]; simpl.
  - by rewrite decide_False.
  - destruct (decide (k' = k1)) as [->|Hk]; simpl.
    + by rewrite !decide_False.
    + destruct (decide (k = k1)); [done|apply IH].
Qed.

Lemma assoc_insert_keys_present k v l :
  k ∈ l.*1 → (assoc_insert k v l).*1 = l.*1.
Proof.
  induction l as [|[k1 v1] l IH]; simpl.
  - by intros ?%elem_of_nil.
  - destruct (decide (k = k1)) as [->|Hk]; simpl; [done|].
    rewrite elem_of_cons. intros [?|Hin]; [done|]. f_equal. by apply IH.
Qed.

Lemma assoc_insert_keys_absent k v l :
  k ∉ l.*1 → (assoc_insert k v l).*1 = l.*1 ++ [k].
Proof.
  induction l as [|[k1 v1] l IH]; simpl; [done|].
  rewrite not_elem_of_cons. intros [Hne Hnin].
  rewrite decide_False by done. simpl. f_equal. by apply IH.
Qed.

Lemma assoc_insert_insert k v l :
  assoc_insert k v (assoc_insert k v l) = assoc_insert k v l.
Proof.
  induction l as [|[k1 v1] l IH]; simpl.
  - by rewrite decide_True.
  - destruct (decide (k = k1)) as [->|Hk]; simpl.
    + by rewrite decide_True.
    + rewrite decide_False by done. f_equal. by apply IH.
Qed.

Lemma assoc_lookup_None k l : assoc_lookup k l = None ↔ k ∉ l.*1.
Proof.
  rewrite <- assoc_lookup_is_Some. rewrite <- eq_None_not_Some. done.
Qed.

End AssocMore.

(** ** [AddFile] *)

Lemma AddFile_init_Files (p : Package) :
  let q := if Files p is None then set_Files (Some []) p else p in
  entries (Files q) = entries (Files p) ∧ Name q = Name p
  ∧ Packages q = Packages p ∧ Dependencies q = Dependencies p.
Proof.
  destruct (Files p) eqn:E; simpl; rewrite ?E; [done|].
  destruct p; simpl in *. by subst.
Qed.

Lemma entries_set_Files (l : list (string * File.t)) (q : Package) :
  entries (Files (set_Files (Some l) q)) = l.
Proof. by destruct q. Qed.

Lemma attaches_iff (p : Package) (f : File.t) :
  attaches p f ↔ File.ID f ≠ "" ∨ (File.Name f ≠ "" ∧ Name p ≠ "").
Proof.
  unfold attaches, AddFile.
  destruct (AddFile_init_Files p) as (_ & -> & _).
  repeat destruct (decide _); simpl; split; try done; tauto.
Qed.

Lemma attached_fields (p : Package) (f : File.t) :
  File.Name (attached p f) = File.Name f
  ∧ File.Checksum (attached p f) = File.Checksum f
  ∧ File.LicenseInfoInFile (attached p f) = File.LicenseInfoInFile f.
Proof.
  unfold attached, AddFile. repeat destruct (decide _); simpl; done.
Qed.

(** X1: [AddFile] fails exactly when the file has no identifier and either
    the file or the package has no name, the file name being looked at
    first; a failed call stores nothing and leaves the file as it was. *)
Theorem AddFile_failure (p : Package) (f : File.t) :
  ((AddFile p f).2 ≠ None ↔
   File.ID f = "" ∧ (File.Name f = "" ∨ Name p = ""))
  ∧ (File.ID f = "" → File.Name f = "" →
     (AddFile p f).2 = Some "unable to generate file ID, filename not set")
  ∧ (File.ID f = "" → File.Name f ≠ "" → Name p = "" →
     (AddFile p f).2 = Some "unable to generate file ID, package not set")
  ∧ ((AddFile p f).2 ≠ None →
     entries (Files (AddFile p f).1.1) = entries (Files p)
     ∧ (AddFile p f).1.2 = f).
Proof.
  destruct (AddFile_init_Files p) as (He & Hn & _).
  unfold AddFile. rewrite Hn.
  destruct (decide (File.ID f = "")) as [Hid|Hid];
    [destruct (decide (File.Name f = "")) as [Hfn|Hfn];
       [|destruct (decide (Name p = "")) as [Hpn|Hpn]]|]; simpl.
  - split; [split; [by auto|by intros _]|]. by rewrite He.
  - split; [split; [by auto|by intros _]|]. by rewrite He.
  - split; [split; [done|by intros [_ [?|?]]]|]. done.
  - split; [split; [done|by intros [? _]]|]. done.
Qed.

Lemma AddFile_failure_witness :
  File.ID no_checksums_c = ""
  ∧ Name NewPackage = ""
  ∧ (AddFile NewPackage no_checksums_c).2 ≠ None
  ∧ entries (Files (AddFile NewPackage no_checksums_c).1.1) = entries (Files NewPackage)
  ∧ (AddFile NewPackage no_checksums_c).1.2 = no_checksums_c.
Proof.
  assert (File.ID no_checksums_c = "") as H1 by reflexivity.
  assert (Name NewPackage = "") as H2 by reflexivity.
  destruct (AddFile_failure NewPackage no_checksums_c) as (Hiff & _ & _ & Hst).
  assert ((AddFile NewPackage no_checksums_c).2 ≠ None) as H3.
  { apply Hiff. split; [exact H1|right; exact H2]. }
  split; [exact H1|]. split; [exact H2|]. split; [exact H3|]. exact (Hst H3).
Defined.

(** X2: after a successful [AddFile] the file is found under its
    identifier, the bindings of the other identifiers are as before, a file
    that came with an identifier is stored as it is, and one that came
    without differs from the stored one in the identifier only. *)
Theorem AddFile_lookup (p : Package) (f : File.t) :
  attaches p f →
  let q := (AddFile p f).1.1 in
  assoc_lookup (attachedID p f) (entries (Files q)) = Some (attached p f)
  ∧ (∀ k, k ≠ attachedID p f →
       assoc_lookup k (entries (Files q)) = assoc_lookup k (entries (Files p)))
  ∧ (File.ID f ≠ "" → attached p f = f)
  ∧ File.Name (attached p f) = File.Name f
  ∧ File.Checksum (attached p f) = File.Checksum f
  ∧ File.LicenseInfoInFile (attached p f) = File.LicenseInfoInFile f.
Proof.
  intros Hatt q. destruct (AddFile_ok p f Hatt) as (He & _).
  fold q in He. rewrite He.
  split; [apply assoc_lookup_insert|].
  split; [intros k Hk; by apply assoc_lookup_insert_ne|].
  unfold attached, AddFile.
  repeat destruct (decide _); simpl; try done.
Qed.

Lemma AddFile_lookup_witness :
  attaches hello (main_c aaaa)
  ∧ assoc_lookup (attachedID hello (main_c aaaa))
      (entries (Files (AddFile hello (main_c aaaa)).1.1))
    = Some (attached hello (main_c aaaa)).
Proof.
  assert (attaches hello (main_c aaaa)) as H by reflexivity.
  split; [exact H|]. exact (proj1 (AddFile_lookup hello (main_c aaaa) H)).
Defined.

(** X3: a successful [AddFile] under an identifier the package already has
    replaces that binding and adds no key; under a new identifier it adds
    exactly that key. *)
Theorem AddFile_keys (p : Package) (f : File.t) :
  attaches p f →
  let q := (AddFile p f).1.1 in
  (attachedID p f ∈ keys (Files p) →
   keys (Files q) = keys (Files p)
   ∧ length (entries (Files q)) = length (entries (Files p)))
  ∧ (attachedID p f ∉ keys (Files p) →
     keys (Files q) = keys (Files p) ++ [attachedID p f]).
Proof.
  intros Hatt q. destruct (AddFile_ok p f Hatt) as (He & _).
  fold q in He. unfold keys. rewrite He. split.
  - intros Hin. rewrite assoc_insert_keys_present by done.
    split; [done|].
    rewrite <- (length_fmap fst (assoc_insert _ _ _)), <- (length_fmap fst (entries _)).
    by rewrite assoc_insert_keys_present.
  - intros Hnin. by rewrite assoc_insert_keys_absent.
Qed.

Lemma AddFile_keys_witness :
  attaches (hello_main_c aaaa) (main_c bbbb)
  ∧ attachedID (hello_main_c aaaa) (main_c bbbb) ∈ keys (Files (hello_main_c aaaa))
  ∧ keys (Files (AddFile (hello_main_c aaaa) (main_c bbbb)).1.1)
    = keys (Files (hello_main_c aaaa))
  ∧ attaches hello (main_c aaaa)
  ∧ (attachedID hello (main_c aaaa) ∉ keys (Files hello))
  ∧ keys (Files (AddFile hello (main_c aaaa)).1.1)
    = keys (Files hello) ++ [attachedID hello (main_c aaaa)].
Proof.
  assert (attaches (hello_main_c aaaa) (main_c bbbb)) as H1 by reflexivity.
  assert (attachedID (hello_main_c aaaa) (main_c bbbb)
          ∈ keys (Files (hello_main_c aaaa))) as H2 by (by left).
  assert (attaches hello (main_c aaaa)) as H3 by reflexivity.
  assert (attachedID hello (main_c aaaa) ∉ keys (Files hello)) as H4
    by apply not_elem_of_nil.
  split; [exact H1|]. split; [exact H2|].
  split; [exact (proj1 (proj1 (AddFile_keys _ _ H1) H2))|].
  split; [exact H3|]. split; [exact H4|].
  exact (proj2 (AddFile_keys _ _ H3) H4).
Defined.

Lemma AddFile_result (p : Package) (f : File.t) :
  attaches p f →
  (AddFile p f).1.1
  = set_Files (Some (assoc_insert (attachedID p f) (attached p f) (entries (Files p)))) p
  ∧ attachedID p f ≠ "".
Proof.
  unfold attaches, attachedID, attached, AddFile.
  destruct p as [fa name id dl vc lc liff ld lcm ct ver fn sf sup orig pkgs fs cs deps opts].
  destruct fs as [fs|]; simpl;
    repeat (destruct (decide _); simpl; try done);
    intros _; (split; [done|]); apply str_cons_app_nonempty.
Qed.

Lemma set_Files_set_Files (a b : gomap File.t) (p : Package) :
  set_Files a (set_Files b p) = set_Files a p.
Proof. by destruct p. Qed.

(** X4: attaching again the file that [AddFile] has just attached changes
    nothing: the call succeeds, the identifier is kept and the package is
    the same. *)
Theorem AddFile_twice (p : Package) (f : File.t) :
  attaches p f →
  AddFile (AddFile p f).1.1 (attached p f)
  = ((AddFile p f).1.1, attached p f, None).
Proof.
  intros Hatt. destruct (AddFile_result p f Hatt) as [Hq Hne].
  rewrite Hq. unfold attachedID in *.
  set (g := attached p f) in *.
  set (l := assoc_insert (File.ID g) g (entries (Files p))).
  assert (Files (set_Files (Some l) p) = Some l) as HF by (by destruct p).
  unfold AddFile at 1.
  assert ((if Files (set_Files (Some l) p) is None
           then set_Files (Some []) (set_Files (Some l) p)
           else set_Files (Some l) p) = set_Files (Some l) p) as ->
    by (by rewrite HF).
  rewrite (decide_False _ _ Hne), HF. cbn [entries]. unfold l.
  by rewrite assoc_insert_insert, set_Files_set_Files.
Qed.

Lemma AddFile_twice_witness :
  attaches hello (main_c aaaa)
  ∧ AddFile (AddFile hello (main_c aaaa)).1.1 (attached hello (main_c aaaa))
    = ((AddFile hello (main_c aaaa)).1.1, attached hello (main_c aaaa), None).
Proof.
  assert (attaches hello (main_c aaaa)) as H by reflexivity.
  split; [exact H|exact (AddFile_twice hello (main_c aaaa) H)].
Defined.

Lemma attachedID_derived (p : Package) (f : File.t) :
  File.ID f = "" → File.Name f ≠ "" → Name p ≠ "" →
  attachedID p f = "SPDXRef-File-" +:+ Sha1.hex (Name p +:+ ":" +:+ File.Name f).
Proof.
  intros Hid Hfn Hpn. unfold attachedID, attached, AddFile.
  destruct (AddFile_init_Files p) as (_ & -> & _).
  by rewrite (decide_True _ _ Hid), (decide_False _ _ Hfn), (decide_False _ _ Hpn).
Qed.

(** X5: the identifier [AddFile] derives depends on the two names only, so
    two files without identifier that have the same name are attached
    under the same identifier, whatever their contents: of the two, the
    package keeps the second. *)
Theorem AddFile_same_name (p : Package) (f1 f2 : File.t) :
  File.ID f1 = "" → File.ID f2 = "" →
  File.Name f1 = File.Name f2 → File.Name f1 ≠ "" → Name p ≠ "" →
  let q1 := (AddFile p f1).1.1 in
  let q2 := (AddFile q1 f2).1.1 in
  (AddFile p f1).2 = None ∧ (AddFile q1 f2).2 = None
  ∧ attachedID p f1 = attachedID q1 f2
  ∧ keys (Files q2) = keys (Files q1)
  ∧ assoc_lookup (attachedID p f1) (entries (Files q2)) = Some (attached q1 f2)
  ∧ File.Checksum (attached q1 f2) = File.Checksum f2.
Proof.
  intros Hid1 Hid2 Hn Hne Hp q1 q2.
  assert (attaches p f1) as Ha1 by (apply attaches_iff; auto).
  destruct (AddFile_ok p f1 Ha1) as (He1 & Hn1 & _). fold q1 in He1, Hn1.
  assert (attaches q1 f2) as Ha2.
  { apply attaches_iff. right. split; congruence. }
  destruct (AddFile_ok q1 f2 Ha2) as (He2 & _). fold q2 in He2.
  assert (attachedID p f1 = attachedID q1 f2) as Hsame.
  { rewrite !attachedID_derived; try done; [|congruence..].
    by rewrite Hn1, Hn. }
  split; [done|]. split; [done|]. split; [done|].
  unfold keys. rewrite He2, <- Hsame.
  split; [|split; [apply assoc_lookup_insert|apply attached_fields]].
  apply assoc_insert_keys_present. rewrite He1.
  apply assoc_lookup_is_Some. rewrite assoc_lookup_insert. by eexists.
Qed.

Lemma AddFile_same_name_witness :
  File.ID (main_c aaaa) = "" ∧ File.ID (main_c bbbb) = ""
  ∧ File.Name (main_c aaaa) = File.Name (main_c bbbb)
  ∧ File.Name (main_c aaaa) ≠ "" ∧ Name hello ≠ ""
  ∧ keys (Files (AddFile (AddFile hello (main_c aaaa)).1.1 (main_c bbbb)).1.1)
    = keys (Files (AddFile hello (main_c aaaa)).1.1).
Proof.
  assert (File.ID (main_c aaaa) = "") as H1 by reflexivity.
  assert (File.ID (main_c bbbb) = "") as H2 by reflexivity.
  assert (File.Name (main_c aaaa) = File.Name (main_c bbbb)) as H3 by reflexivity.
  assert (File.Name (main_c aaaa) ≠ "") as H4 by (vm_compute; discriminate).
  assert (Name hello ≠ "") as H5 by (vm_compute; discriminate).
  split; [exact H1|]. split; [exact H2|]. split; [exact H3|].
  split; [exact H4|]. split; [exact H5|].
  exact (proj1 (proj2 (proj2 (proj2
           (AddFile_same_name hello (main_c aaaa) (main_c bbbb) H1 H2 H3 H4 H5))))).
Defined.

(** ** [AddPackage] and [AddDependency] *)

Lemma set_ID_same (p : Package) : set_ID (ID p) p = p.
Proof. by destruct p. Qed.

(** The three outcomes of [preProcessSubPackage]. *)
Lemma preProcessSubPackage_cases (q pkg : Package) :
  match derivedID pkg with
  | None =>
      preProcessSubPackage q pkg
      = (pkg, Some "package name is needed to add a new package")
  | Some id =>
      id ≠ ""
      ∧ preProcessSubPackage q pkg
        = (set_ID id pkg,
           if has_key (Packages q) id then
             Some ("a package named " +:+ id +:+ " already exists as a subpackage")
           else if has_key (Dependencies q) id then
             Some ("a package named " +:+ id +:+ " already exists as a dependency")
           else None)
  end.
Proof.
  unfold derivedID, preProcessSubPackage.
  destruct (decide (ID pkg = "")) as [He|He].
  - destruct (decide (stripInvalidChars (Name pkg) = "")) as [Hs|Hs].
    + destruct (decide (stripInvalidChars (Name pkg) ≠ "")) as [Hn|Hn]; [done|].
      by rewrite (decide_True _ _ He).
    + rewrite (decide_True _ _ Hs). rewrite ID_set_ID.
      assert ("SPDXRef-Package-" +:+ stripInvalidChars (Name pkg) ≠ "") as Hne
        by apply str_cons_app_nonempty.
      rewrite (decide_False _ _ Hne). split; [done|].
      by repeat case_match.
  - rewrite (decide_False _ _ He). split; [done|]. rewrite set_ID_same.
    by repeat case_match.
Qed.

Lemma init_Packages (p : Package) :
  let q := if Packages p is None then set_Packages (Some []) p else p in
  entries (Packages q) = entries (Packages p) ∧ Dependencies q = Dependencies p
  ∧ Files q = Files p
  ∧ ∀ l, set_Packages (Some l) q = set_Packages (Some l) p.
Proof.
  destruct (Packages p) eqn:E; simpl; rewrite ?E; [done|].
  destruct p; simpl in *. by subst.
Qed.

Lemma init_Dependencies (p : Package) :
  let q := if Dependencies p is None then set_Dependencies (Some []) p else p in
  Packages q = Packages p ∧ entries (Dependencies q) = entries (Dependencies p)
  ∧ Files q = Files p
  ∧ ∀ l, set_Dependencies (Some l) q = set_Dependencies (Some l) p.
Proof.
  destruct (Dependencies p) eqn:E; simpl; rewrite ?E; [done|].
  destruct p; simpl in *. by subst.
Qed.

Lemma assoc_insert_absent {V : Type} (k : string) (v : V) (l : list (string * V)) :
  k ∉ l.*1 → assoc_insert k v l = l ++ [(k, v)].
Proof.
  induction l as [|[k1 v1] l IH]; simpl; [done|].
  rewrite not_elem_of_cons. intros [Hne Hnin].
  rewrite decide_False by done. f_equal. by apply IH.
Qed.

Lemma has_key_false {V : Type} (m : gomap V) (k : string) :
  has_key m k = false ↔ k ∉ keys m.
Proof.
  rewrite <- has_key_elem_of. by destruct (has_key m k).
Qed.

(** What [AddPackage] does, by the identifier of the package. *)
Lemma AddPackage_cases (p pkg : Package) :
  match derivedID pkg with
  | None =>
      (AddPackage p pkg).2 = Some nameNeeded
      ∧ (AddPackage p pkg).1.2 = pkg
      ∧ entries (Packages (AddPackage p pkg).1.1) = entries (Packages p)
      ∧ Dependencies (AddPackage p pkg).1.1 = Dependencies p
  | Some id =>
      (AddPackage p pkg).1.2 = set_ID id pkg
      ∧ Dependencies (AddPackage p pkg).1.1 = Dependencies p
      ∧ Files (AddPackage p pkg).1.1 = Files p
      ∧ if decide (id ∈ keys (Packages p) ∨ id ∈ keys (Dependencies p)) then
          conflictError id (AddPackage p pkg).2
          ∧ entries (Packages (AddPackage p pkg).1.1) = entries (Packages p)
        else
          AddPackage p pkg
          = (set_Packages (Some (entries (Packages p) ++ [(id, set_ID id pkg)])) p,
             set_ID id pkg, None)
  end.
Proof.
  unfold AddPackage.
  destruct (init_Packages p) as (Hq1 & Hq2 & Hq3 & Hq4).
  set (q := if Packages p is None then set_Packages (Some []) p else p) in *.
  pose proof (preProcessSubPackage_cases q pkg) as Hc.
  destruct (derivedID pkg) as [id|].
  - destruct Hc as [Hne ->].
    assert (∀ l, Dependencies (set_Packages l q) = Dependencies q
                 ∧ Files (set_Packages l q) = Files q) as Hset
      by (by intros ?; destruct q).
    destruct (has_key (Packages q) id) eqn:Hp.
    { simpl. rewrite decide_True.
      - unfold conflictError. repeat split; try done; by left.
      - left. apply has_key_elem_of in Hp. unfold keys in *. by rewrite <- Hq1. }
    destruct (has_key (Dependencies q) id) eqn:Hd.
    { simpl. rewrite decide_True.
      - unfold conflictError. repeat split; try done; by right.
      - right. apply has_key_elem_of in Hd. by rewrite <- Hq2. }
    apply has_key_false in Hp, Hd. simpl.
    destruct (Hset (Some (assoc_insert (ID (set_ID id pkg)) (set_ID id pkg)
                            (entries (Packages q))))) as [-> ->].
    split; [done|]. split; [done|]. split; [done|].
    rewrite decide_False.
    + rewrite ID_set_ID, Hq4, Hq1. rewrite assoc_insert_absent; [done|].
      unfold keys in Hp. by rewrite <- Hq1.
    + unfold keys in *. rewrite <- Hq1, <- Hq2. by intros [?|?].
  - rewrite Hc. simpl. done.
Qed.

Lemma AddDependency_cases (p pkg : Package) :
  match derivedID pkg with
  | None =>
      (AddDependency p pkg).2 = Some nameNeeded
      ∧ (AddDependency p pkg).1.2 = pkg
      ∧ Packages (AddDependency p pkg).1.1 = Packages p
      ∧ entries (Dependencies (AddDependency p pkg).1.1) = entries (Dependencies p)
  | Some id =>
      (AddDependency p pkg).1.2 = set_ID id pkg
      ∧ Packages (AddDependency p pkg).1.1 = Packages p
      ∧ Files (AddDependency p pkg).1.1 = Files p
      ∧ if decide (id ∈ keys (Packages p) ∨ id ∈ keys (Dependencies p)) then
          conflictError id (AddDependency p pkg).2
          ∧ entries (Dependencies (AddDependency p pkg).1.1) = entries (Dependencies p)
        else
          AddDependency p pkg
          = (set_Dependencies
               (Some (entries (Dependencies p) ++ [(id, set_ID id pkg)])) p,
             set_ID id pkg, None)
  end.
Proof.
  unfold AddDependency.
  destruct (init_Dependencies p) as (Hq1 & Hq2 & Hq3 & Hq4).
  set (q := if Dependencies p is None then set_Dependencies (Some []) p else p) in *.
  pose proof (preProcessSubPackage_cases q pkg) as Hc.
  destruct (derivedID pkg) as [id|].
  - destruct Hc as [Hne ->].
    assert (∀ l, Packages (set_Dependencies l q) = Packages q
                 ∧ Files (set_Dependencies l q) = Files q) as Hset
      by (by intros ?; destruct q).
    destruct (has_key (Packages q) id) eqn:Hp.
    { simpl. rewrite decide_True.
      - unfold conflictError. repeat split; try done; by left.
      - left. apply has_key_elem_of in Hp. by rewrite <- Hq1. }
    destruct (has_key (Dependencies q) id) eqn:Hd.
    { simpl. rewrite decide_True.
      - unfold conflictError. repeat split; try done; by right.
      - right. apply has_key_elem_of in Hd. unfold keys in *. by rewrite <- Hq2. }
    apply has_key_false in Hp, Hd. simpl.
    destruct (Hset (Some (assoc_insert (ID (set_ID id pkg)) (set_ID id pkg)
                            (entries (Dependencies q))))) as [-> ->].
    split; [done|]. split; [done|]. split; [done|].
    rewrite decide_False.
    + rewrite ID_set_ID, Hq4, Hq2. rewrite assoc_insert_absent; [done|].
      unfold keys in Hd. by rewrite <- Hq2.
    + unfold keys in *. rewrite <- Hq1, <- Hq2. by intros [?|?].
  - rewrite Hc. simpl. done.
Qed.

Lemma conflictError_not_None (id : string) (err : error) :
  conflictError id err → err ≠ None ∧ err ≠ Some nameNeeded.
Proof.
  intros [-> | ->]; (split; [done|]); unfold nameNeeded;
    intros [= H]; vm_compute in H; discriminate H.
Qed.

(** X6: [AddPackage] and [AddDependency] fail for want of an identifier
    exactly when the package has no ID and no character of its name
    survives the stripping; the package is then returned as it was and the
    two maps keep their entries. *)
Theorem attach_needs_identifier (p pkg : Package) :
  (derivedID pkg = None ↔ ID pkg = "" ∧ stripInvalidChars (Name pkg) = "")
  ∧ (derivedID pkg = None ↔ (AddPackage p pkg).2 = Some nameNeeded)
  ∧ (derivedID pkg = None ↔ (AddDependency p pkg).2 = Some nameNeeded)
  ∧ (derivedID pkg = None →
     (AddPackage p pkg).1.2 = pkg
     ∧ entries (Packages (AddPackage p pkg).1.1) = entries (Packages p)
     ∧ Dependencies (AddPackage p pkg).1.1 = Dependencies p
     ∧ (AddDependency p pkg).1.2 = pkg
     ∧ Packages (AddDependency p pkg).1.1 = Packages p
     ∧ entries (Dependencies (AddDependency p pkg).1.1) = entries (Dependencies p)).
Proof.
  pose proof (AddPackage_cases p pkg) as HP.
  pose proof (AddDependency_cases p pkg) as HD.
  split.
  { unfold derivedID. repeat destruct (decide _); split; try done;
      intros [??]; done. }
  destruct (derivedID pkg) as [id|].
  - destruct HP as (_ & _ & _ & HP). destruct HD as (_ & _ & _ & HD).
    destruct (decide _) as [Hin|Hin].
    + destruct HP as [[_ HP]%conflictError_not_None _].
      destruct HD as [[_ HD]%conflictError_not_None _].
      repeat split; done.
    + rewrite HP, HD. simpl. repeat split; done.
  - destruct HP as (HP1 & HP2 & HP3 & HP4). destruct HD as (HD1 & HD2 & HD3 & HD4).
    repeat split; done.
Qed.

Lemma attach_needs_identifier_witness :
  let pkg := set_Name "@@@" NewPackage in
  derivedID pkg = None
  ∧ (AddPackage hello pkg).2 = Some nameNeeded
  ∧ (AddPackage hello pkg).1.2 = pkg
  ∧ entries (Packages (AddPackage hello pkg).1.1) = entries (Packages hello).
Proof.
  intros pkg.
  assert (derivedID pkg = None) as H by reflexivity.
  destruct (attach_needs_identifier hello pkg) as (_ & H1 & _ & H2).
  split; [exact H|]. split; [exact (proj1 H1 H)|].
  split; [exact (proj1 (H2 H))|exact (proj1 (proj2 (H2 H)))].
Defined.

(** X7: attaching a package whose identifier is in neither map succeeds: it
    is stored under that identifier as a new entry of the map it is attached
    to, with its ID set to it and nothing else about it changed, and the
    rest of the parent is as before. *)
Theorem attach_new_identifier (p pkg : Package) (id : string) :
  derivedID pkg = Some id →
  id ∉ keys (Packages p) → id ∉ keys (Dependencies p) →
  AddPackage p pkg
  = (set_Packages (Some (entries (Packages p) ++ [(id, set_ID id pkg)])) p,
     set_ID id pkg, None)
  ∧ AddDependency p pkg
    = (set_Dependencies (Some (entries (Dependencies p) ++ [(id, set_ID id pkg)])) p,
       set_ID id pkg, None)
  ∧ assoc_lookup id (entries (Packages (AddPackage p pkg).1.1)) = Some (set_ID id pkg)
  ∧ assoc_lookup id (entries (Dependencies (AddDependency p pkg).1.1))
    = Some (set_ID id pkg).
Proof.
  intros Hid HnP HnD.
  pose proof (AddPackage_cases p pkg) as HP.
  pose proof (AddDependency_cases p pkg) as HD.
  rewrite Hid in HP, HD.
  destruct HP as (_ & _ & _ & HP). destruct HD as (_ & _ & _ & HD).
  rewrite decide_False in HP, HD by (by intros [?|?]).
  rewrite HP, HD. split; [done|]. split; [done|]. simpl.
  assert (∀ l q, entries (Packages (set_Packages (Some l) q)) = l) as ->
    by (by intros ? []).
  assert (∀ l q, entries (Dependencies (set_Dependencies (Some l) q)) = l) as ->
    by (by intros ? []).
  rewrite <- !assoc_insert_absent by done.
  by rewrite !assoc_lookup_insert.
Qed.

Lemma attach_new_identifier_witness :
  derivedID hello = Some "SPDXRef-Package-hello"
  ∧ ("SPDXRef-Package-hello" ∉ keys (Packages NewPackage))
  ∧ ("SPDXRef-Package-hello" ∉ keys (Dependencies NewPackage))
  ∧ AddPackage NewPackage hello
    = (set_Packages
         (Some (entries (Packages NewPackage)
                  ++ [("SPDXRef-Package-hello", set_ID "SPDXRef-Package-hello" hello)]))
         NewPackage,
       set_ID "SPDXRef-Package-hello" hello, None).
Proof.
  assert (derivedID hello = Some "SPDXRef-Package-hello") as H1 by reflexivity.
  assert ("SPDXRef-Package-hello" ∉ keys (Packages NewPackage)) as H2
    by apply not_elem_of_nil.
  assert ("SPDXRef-Package-hello" ∉ keys (Dependencies NewPackage)) as H3
    by apply not_elem_of_nil.
  split; [exact H1|]. split; [exact H2|]. split; [exact H3|].
  exact (proj1 (attach_new_identifier NewPackage hello _ H1 H2 H3)).
Defined.

(** X8: [AddPackage] succeeds exactly when the package has a derived or
    explicit identifier that is in neither map of the parent, and so does
    [AddDependency]: whatever one of them accepts or refuses, the other
    does too. *)
Theorem attach_succeeds_iff (p pkg : Package) :
  ((AddPackage p pkg).2 = None ↔
   ∃ id, derivedID pkg = Some id
         ∧ (id ∉ keys (Packages p)) ∧ (id ∉ keys (Dependencies p)))
  ∧ ((AddPackage p pkg).2 = None ↔ (AddDependency p pkg).2 = None).
Proof.
  pose proof (AddPackage_cases p pkg) as HP.
  pose proof (AddDependency_cases p pkg) as HD.
  destruct (derivedID pkg) as [id|].
  - destruct HP as (_ & _ & _ & HP). destruct HD as (_ & _ & _ & HD).
    destruct (decide _) as [Hin|Hin].
    + destruct HP as [[HP _]%conflictError_not_None _].
      destruct HD as [[HD _]%conflictError_not_None _].
      split; [|done]. split; [done|].
      intros (id' & [= <-] & H1 & H2). destruct Hin; done.
    + rewrite HP, HD. simpl. split; [|done]. split; [|done].
      intros _. exists id. split; [done|]. split; intros ?; apply Hin; auto.
  - destruct HP as (HP & _). destruct HD as (HD & _). rewrite HP, HD.
    split; [|done]. split; [done|]. by intros (id & ? & _).
Qed.

(** X9: [AddPackage] and [AddDependency] keep the identifiers of the
    children of a package distinct, within each map and across the two. *)
Theorem attach_keeps_children_distinct (p pkg : Package) :
  distinct_children p →
  distinct_children (AddPackage p pkg).1.1
  ∧ distinct_children (AddDependency p pkg).1.1.
Proof.
  unfold distinct_children. intros Hnd.
  pose proof (AddPackage_cases p pkg) as HP.
  pose proof (AddDependency_cases p pkg) as HD.
  destruct (derivedID pkg) as [id|].
  - destruct HP as (_ & HP2 & _ & HP). destruct HD as (_ & HD2 & _ & HD).
    destruct (decide _) as [Hin|Hin].
    + destruct HP as [_ HP]. destruct HD as [_ HD].
      unfold keys. by rewrite HP, HP2, HD, HD2.
    + rewrite HP, HD. simpl.
      assert (∀ l q, keys (Packages (set_Packages (Some l) q)) = l.*1
                     ∧ Dependencies (set_Packages (Some l) q) = Dependencies q)
        as HsP by (by intros ? []).
      assert (∀ l q, keys (Dependencies (set_Dependencies (Some l) q)) = l.*1
                     ∧ Packages (set_Dependencies (Some l) q) = Packages q)
        as HsD by (by intros ? []).
      destruct (HsP (entries (Packages p) ++ [(id, set_ID id pkg)]) p) as [-> ->].
      destruct (HsD (entries (Dependencies p) ++ [(id, set_ID id pkg)]) p) as [-> ->].
      rewrite !fmap_app. simpl. fold (keys (Packages p)) (keys (Dependencies p)).
      assert (NoDup (id :: keys (Packages p) ++ keys (Dependencies p))) as Hnd'.
      { apply NoDup_cons. split; [|done]. rewrite elem_of_app. tauto. }
      split.
      * eapply NoDup_Permutation_proper; [|exact Hnd'].
        rewrite <- app_assoc. simpl. by rewrite <- Permutation_middle.
      * eapply NoDup_Permutation_proper; [|exact Hnd'].
        rewrite app_assoc. by rewrite <- Permutation_cons_append.
  - destruct HP as (_ & _ & HP1 & HP2). destruct HD as (_ & _ & HD1 & HD2).
    unfold keys. by rewrite HP1, HP2, HD1, HD2.
Qed.

Lemma attach_keeps_children_distinct_witness :
  distinct_children NewPackage
  ∧ distinct_children (AddPackage NewPackage hello).1.1
  ∧ distinct_children (AddDependency NewPackage hello).1.1.
Proof.
  assert (distinct_children NewPackage) as H by apply NoDup_nil_2.
  split; [exact H|exact (attach_keeps_children_distinct NewPackage hello H)].
Defined.

(** ** [ReadSourceFile] *)

Section ReadSourceFileFacts.

Variable util_Exists : string → bool.
Variable hash_SHA256ForFile : string → string * error.
Variable hash_SHA512ForFile : string → string * error.
Variable filepath_Separator : ascii.

Local Abbreviation read :=
  (ReadSourceFile util_Exists hash_SHA256ForFile hash_SHA512ForFile filepath_Separator).

Lemma ReadSourceFile_ok (p : Package) (path s256 s512 : string) (o : PackageOptions) :
  util_Exists path = true →
  hash_SHA256ForFile path = (s256, None) →
  hash_SHA512ForFile path = (s512, None) →
  options p = Some o →
  read p path
  = Some (set_FileName
            (Str.trim_prefix path (WorkDir o +:+ String filepath_Separator ""))
            (set_SourceFile path
               (set_Checksum (Some {[ "SHA256" := s256; "SHA512" := s512 ]}) p)),
          None).
Proof.
  intros Hex H256 H512 Ho. unfold ReadSourceFile, Options.
  rewrite Hex, H256, H512. simpl.
  assert (∀ cs sf q, options (set_SourceFile sf (set_Checksum cs q)) = options q)
    as -> by (by intros ?? []).
  by rewrite Ho.
Qed.

(** A call that returns without error went through every step. *)
Lemma ReadSourceFile_success_inv (p p' : Package) (path : string) :
  read p path = Some (p', None) →
  ∃ s256 s512 o,
    util_Exists path = true
    ∧ hash_SHA256ForFile path = (s256, None)
    ∧ hash_SHA512ForFile path = (s512, None)
    ∧ options p = Some o.
Proof.
  unfold ReadSourceFile, Options.
  destruct (util_Exists path); simpl; [|done].
  destruct (hash_SHA256ForFile path) as [s256 [e|]]; [done|].
  destruct (hash_SHA512ForFile path) as [s512 [e|]]; [done|].
  assert (∀ cs sf q, options (set_SourceFile sf (set_Checksum cs q)) = options q)
    as -> by (by intros ?? []).
  destruct (options p) as [o|]; [|done].
  intros _. by exists s256, s512, o.
Qed.

End ReadSourceFileFacts.

(** X10: when one of the two digests cannot be computed, [ReadSourceFile]
    returns the error of the hashing wrapped with the name of the digest and
    leaves the package as it was: no checksum of the other digest, no
    source file and no file name is stored. *)
Theorem ReadSourceFile_hash_failure
    (util_Exists : string → bool)
    (hash_SHA256ForFile hash_SHA512ForFile : string → string * error)
    (filepath_Separator : ascii) (p : Package) (path : string) :
  util_Exists path = true →
  (∀ s e, hash_SHA256ForFile path = (s, Some e) →
     ReadSourceFile util_Exists hash_SHA256ForFile hash_SHA512ForFile
       filepath_Separator p path
     = Some (p, Some ("getting source file sha256: " +:+ e)))
  ∧ (∀ s256 s e,
       hash_SHA256ForFile path = (s256, None) →
       hash_SHA512ForFile path = (s, Some e) →
       ReadSourceFile util_Exists hash_SHA256ForFile hash_SHA512ForFile
         filepath_Separator p path
       = Some (p, Some ("getting source file sha512: " +:+ e))).
Proof.
  intros Hex. split.
  - intros s e H. unfold ReadSourceFile. by rewrite Hex, H.
  - intros s256 s e H1 H2. unfold ReadSourceFile. by rewrite Hex, H1, H2.
Qed.

Lemma ReadSourceFile_hash_failure_witness :
  let exists_ := λ _ : string, true in
  let failing := λ _ : string, ("", Some "is a directory") in
  let sha := λ _ : string, (aaaa, @None string) in
  exists_ "/work" = true
  ∧ ReadSourceFile exists_ failing sha "/" work_package "/work"
    = Some (work_package, Some "getting source file sha256: is a directory")
  ∧ ReadSourceFile exists_ sha failing "/" work_package "/work"
    = Some (work_package, Some "getting source file sha512: is a directory").
Proof.
  intros exists_ failing sha.
  assert (exists_ "/work" = true) as H by reflexivity.
  split; [exact H|]. split.
  - exact (proj1 (ReadSourceFile_hash_failure exists_ failing sha "/" work_package
                    "/work" H) "" "is a directory" eq_refl).
  - exact (proj2 (ReadSourceFile_hash_failure exists_ sha failing "/" work_package
                    "/work" H) aaaa "" "is a directory" eq_refl eq_refl).
Defined.

(** X11: a successful [ReadSourceFile] replaces the checksum table: it
    holds the two digests and nothing else, whatever it held before; and
    the identity, the licence fields and the children of the package are
    untouched. *)
Theorem ReadSourceFile_replaces_checksums
    (util_Exists : string → bool)
    (hash_SHA256ForFile hash_SHA512ForFile : string → string * error)
    (filepath_Separator : ascii) (p p' : Package) (path : string) :
  ReadSourceFile util_Exists hash_SHA256ForFile hash_SHA512ForFile
    filepath_Separator p path = Some (p', None) →
  (∃ cs, Checksum p' = Some cs
     ∧ cs !! "SHA256" = Some (hash_SHA256ForFile path).1
     ∧ cs !! "SHA512" = Some (hash_SHA512ForFile path).1
     ∧ ∀ k, k ≠ "SHA256" → k ≠ "SHA512" → cs !! k = None)
  ∧ Name p' = Name p ∧ ID p' = ID p ∧ FilesAnalyzed p' = FilesAnalyzed p
  ∧ VerificationCode p' = VerificationCode p
  ∧ LicenseInfoFromFiles p' = LicenseInfoFromFiles p
  ∧ LicenseConcluded p' = LicenseConcluded p
  ∧ LicenseDeclared p' = LicenseDeclared p
  ∧ Files p' = Files p ∧ Packages p' = Packages p
  ∧ Dependencies p' = Dependencies p ∧ options p' = options p.
Proof.
  intros H.
  destruct (ReadSourceFile_success_inv _ _ _ _ _ _ _ H)
    as (s256 & s512 & o & Hex & H256 & H512 & Ho).
  rewrite (ReadSourceFile_ok _ _ _ _ _ _ _ _ _ Hex H256 H512 Ho) in H.
  injection H as <-. rewrite H256, H512. simpl.
  split; [|by destruct p].
  exists {[ "SHA256" := s256; "SHA512" := s512 ]}.
  split; [by destruct p|].
  split; [by rewrite lookup_insert_eq|].
  split; [rewrite lookup_insert_ne by done; by rewrite lookup_singleton_eq|].
  intros k H1 H2. rewrite lookup_insert_ne by done. by rewrite lookup_singleton_ne.
Qed.

Lemma ReadSourceFile_replaces_checksums_witness :
  let exists_ := λ _ : string, true in
  let sha256 := λ _ : string, (aaaa, @None string) in
  let sha512 := λ _ : string, (bbbb, @None string) in
  let p := set_Checksum (Some {[ "MD5" := "0123" ]}) work_package in
  ∃ p', ReadSourceFile exists_ sha256 sha512 "/" p "/work/hello.tar" = Some (p', None)
    ∧ ∃ cs, Checksum p' = Some cs ∧ cs !! "MD5" = None.
Proof.
  intros exists_ sha256 sha512 p.
  eexists. split; [reflexivity|].
  destruct (proj1 (ReadSourceFile_replaces_checksums exists_ sha256 sha512 "/" p _
                     "/work/hello.tar" eq_refl)) as (cs & Hcs & _ & _ & Hk).
  exists cs. split; [exact Hcs|]. by apply Hk.
Defined.

(** X12: reading the same source file again changes nothing: after a
    successful [ReadSourceFile], a second call on the same path returns the
    same package without error. *)
Theorem ReadSourceFile_twice
    (util_Exists : string → bool)
    (hash_SHA256ForFile hash_SHA512ForFile : string → string * error)
    (filepath_Separator : ascii) (p p' : Package) (path : string) :
  ReadSourceFile util_Exists hash_SHA256ForFile hash_SHA512ForFile
    filepath_Separator p path = Some (p', None) →
  ReadSourceFile util_Exists hash_SHA256ForFile hash_SHA512ForFile
    filepath_Separator p' path = Some (p', None).
Proof.
  intros H.
  destruct (ReadSourceFile_success_inv _ _ _ _ _ _ _ H)
    as (s256 & s512 & o & Hex & H256 & H512 & Ho).
  rewrite (ReadSourceFile_ok _ _ _ _ _ _ _ _ _ Hex H256 H512 Ho) in H.
  injection H as <-.
  erewrite ReadSourceFile_ok; [|done..|].
  - f_equal. f_equal. by destruct p.
  - destruct p; simpl in *. done.
Qed.

Lemma ReadSourceFile_twice_witness :
  let read :=
    ReadSourceFile (λ _, true) (λ _, (aaaa, None)) (λ _, (bbbb, None)) "/" in
  ∃ p', read work_package "/work/hello.tar" = Some (p', None)
        ∧ read p' "/work/hello.tar" = Some (p', None).
Proof.
  intros read. eexists. split; [reflexivity|].
  apply (ReadSourceFile_twice (λ _, true) (λ _, (aaaa, None)) (λ _, (bbbb, None))
           "/" work_package). reflexivity.
Defined.

(** X13: on a package without options (one that was not made by
    [NewPackage]) [ReadSourceFile] panics, but only once the path was found
    and both digests were computed: the earlier failures are reported as
    errors all the same. *)
Theorem ReadSourceFile_without_options
    (util_Exists : string → bool)
    (hash_SHA256ForFile hash_SHA512ForFile : string → string * error)
    (filepath_Separator : ascii) (p : Package) (path : string) :
  options p = None →
  ReadSourceFile util_Exists hash_SHA256ForFile hash_SHA512ForFile
    filepath_Separator p path = None
  ↔ util_Exists path = true
    ∧ (hash_SHA256ForFile path).2 = None ∧ (hash_SHA512ForFile path).2 = None.
Proof.
  intros Ho. unfold ReadSourceFile, Options.
  destruct (util_Exists path); simpl; [|by split; [|intros (?&_)]].
  destruct (hash_SHA256ForFile path) as [s256 [e|]]; simpl;
    [by split; [|intros (_&?&_)]|].
  destruct (hash_SHA512ForFile path) as [s512 [e|]]; simpl;
    [by split; [|intros (_&_&?)]|].
  assert (∀ cs sf q, options (set_SourceFile sf (set_Checksum cs q)) = options q)
    as -> by (by intros ?? []).
  by rewrite Ho.
Qed.

Lemma ReadSourceFile_without_options_witness :
  let p := mkPackage false "" "" "" "" "" [] "" "" "" "" "" ""
             (mkEntity "" "") (mkEntity "" "") None None None None None in
  options p = None
  ∧ ReadSourceFile (λ _, true) (λ _, (aaaa, None)) (λ _, (bbbb, None)) "/" p "/x" = None
  ∧ ReadSourceFile (λ _, false) (λ _, (aaaa, None)) (λ _, (bbbb, None)) "/" p "/x"
    ≠ None.
Proof.
  intros p. assert (options p = None) as H by reflexivity.
  split; [exact H|]. split.
  - apply (ReadSourceFile_without_options _ _ _ "/" p "/x" H). by repeat split.
  - intros Hn.
    apply (ReadSourceFile_without_options _ _ _ "/" p "/x" H) in Hn as [? _].
    discriminate.
Defined.

Lemma trim_prefix_cases (s pre : string) :
  s = pre +:+ Str.trim_prefix s pre
  ∨ (Str.has_prefix pre s = false ∧ Str.trim_prefix s pre = s).
Proof.
  unfold Str.trim_prefix. destruct (Str.has_prefix pre s) eqn:E; [|by right].
  left. apply has_prefix_inv in E as [r ->]. by rewrite drop_app.
Qed.

Lemma has_prefix_app_same (a b c : string) :
  Str.has_prefix (a +:+ b) (a +:+ c) = Str.has_prefix b c.
Proof.
  induction a as [|x a IH]; [done|].
  rewrite !str_app_cons. simpl. by rewrite decide_True.
Qed.

(** X14: the [FileName] a successful [ReadSourceFile] stores is the end of
    the path: the path is the working directory, the separator and the file
    name, or else the file name is the whole path.  With an empty working
    directory, as [NewPackage] leaves it, a path that starts with the
    separator loses it. *)
Theorem ReadSourceFile_FileName
    (util_Exists : string → bool)
    (hash_SHA256ForFile hash_SHA512ForFile : string → string * error)
    (filepath_Separator : ascii) (p p' : Package) (path : string) (o : PackageOptions) :
  ReadSourceFile util_Exists hash_SHA256ForFile hash_SHA512ForFile
    filepath_Separator p path = Some (p', None) →
  options p = Some o →
  (path = WorkDir o +:+ String filepath_Separator "" +:+ FileName p'
   ∨ FileName p' = path)
  ∧ Str.has_suffix path (FileName p')
  ∧ (WorkDir o = "" → ∀ rest, path = String filepath_Separator rest →
     FileName p' = rest).
Proof.
  intros H Ho.
  destruct (ReadSourceFile_success_inv _ _ _ _ _ _ _ H)
    as (s256 & s512 & o' & Hex & H256 & H512 & Ho').
  assert (o' = o) as -> by congruence.
  rewrite (ReadSourceFile_ok _ _ _ _ _ _ _ _ _ Hex H256 H512 Ho) in H.
  injection H as <-.
  assert (∀ v q, FileName (set_FileName v q) = v) as -> by (by intros ? []).
  destruct (trim_prefix_cases path (WorkDir o +:+ String filepath_Separator ""))
    as [Hc|[_ Hc]].
  - split; [left; by rewrite <- str_app_assoc|].
    split; [eexists; exact Hc|].
    intros Hw rest ->. rewrite Hw.
    change ("" +:+ String filepath_Separator "") with (String filepath_Separator "").
    change (String filepath_Separator rest)
      with (String filepath_Separator "" +:+ rest).
    apply trim_prefix_app.
  - rewrite Hc. split; [by right|]. split; [by exists ""|].
    intros Hw rest Hp. exfalso. rewrite Hw, Hp in Hc.
    change ("" +:+ String filepath_Separator "") with (String filepath_Separator "") in Hc.
    change (String filepath_Separator rest)
      with (String filepath_Separator "" +:+ rest) in Hc at 1.
    rewrite trim_prefix_app in Hc.
    assert (String.length rest = String.length (String filepath_Separator rest))
      as Hl by (by rewrite <- Hc).
    simpl in Hl. lia.
Qed.

Lemma ReadSourceFile_FileName_witness :
  let read :=
    ReadSourceFile (λ _, true) (λ _, (aaaa, None)) (λ _, (bbbb, None)) "/" in
  ∃ p', read NewPackage "/tmp/hello.tar" = Some (p', None)
        ∧ options NewPackage = Some (mkPackageOptions "")
        ∧ FileName p' = "tmp/hello.tar".
Proof.
  intros read. eexists. split; [reflexivity|]. split; [reflexivity|].
  refine (proj2 (proj2 (ReadSourceFile_FileName (λ _, true) (λ _, (aaaa, None))
                          (λ _, (bbbb, None)) "/" NewPackage _ "/tmp/hello.tar"
                          (mkPackageOptions "") eq_refl eq_refl))
            eq_refl "tmp/hello.tar" eq_refl).
Defined.

(** X15: a working directory that already ends with the separator is never
    stripped: the prefix looked for ends with two separators, so for a path
    below the directory the file name is the whole path. *)
Theorem ReadSourceFile_trailing_separator
    (util_Exists : string → bool)
    (hash_SHA256ForFile hash_SHA512ForFile : string → string * error)
    (filepath_Separator : ascii) (p p' : Package) (path : string)
    (o : PackageOptions) (dir rest : string) :
  ReadSourceFile util_Exists hash_SHA256ForFile hash_SHA512ForFile
    filepath_Separator p path = Some (p', None) →
  options p = Some o →
  WorkDir o = dir +:+ String filepath_Separator "" →
  path = WorkDir o +:+ rest →
  Str.has_prefix (String filepath_Separator "") rest = false →
  FileName p' = path.
Proof.
  intros H Ho Hw Hp Hrest.
  destruct (ReadSourceFile_success_inv _ _ _ _ _ _ _ H)
    as (s256 & s512 & o' & Hex & H256 & H512 & Ho').
  assert (o' = o) as -> by congruence.
  rewrite (ReadSourceFile_ok _ _ _ _ _ _ _ _ _ Hex H256 H512 Ho) in H.
  injection H as <-.
  assert (∀ v q, FileName (set_FileName v q) = v) as -> by (by intros ? []).
  apply trim_prefix_none. rewrite Hp. by rewrite has_prefix_app_same.
Qed.

Lemma ReadSourceFile_trailing_separator_witness :
  let p := mkPackage false "" "" "" "" "" [] "" "" "" "" "" ""
             (mkEntity "" "") (mkEntity "" "") None None None None
             (Some (mkPackageOptions "/work/")) in
  let read :=
    ReadSourceFile (λ _, true) (λ _, (aaaa, None)) (λ _, (bbbb, None)) "/" in
  ∃ p', read p "/work/hello.tar" = Some (p', None)
        ∧ FileName p' = "/work/hello.tar".
Proof.
  intros p read. eexists. split; [reflexivity|].
  exact (ReadSourceFile_trailing_separator (λ _, true) (λ _, (aaaa, None))
           (λ _, (bbbb, None)) "/" p _ "/work/hello.tar" (mkPackageOptions "/work/")
           "/work" "hello.tar" eq_refl eq_refl eq_refl eq_refl eq_refl).
Defined.

(** ** [Render]: failures *)

Section RenderMore.

Variable File_Render : File.t → string * error.

Lemma renderFiles_spec (pid : string) (fs : list (string * File.t)) (doc : string) :
  (Forall (λ kf, (File_Render kf.2).2 = None) fs
   ∧ renderFiles File_Render pid fs doc = (doc +:+ filesDoc File_Render pid fs, None))
  ∨ (∃ k f e, (k, f) ∈ fs ∧ (File_Render f).2 = Some e
       ∧ renderFiles File_Render pid fs doc
         = ("", Some ("rendering file " +:+ File.Name f +:+ ": " +:+ e))).
Proof.
  revert doc. induction fs as [|[k f] fs IH]; intros doc.
  - left. split; [done|]. unfold filesDoc. simpl. by rewrite str_app_nil_r.
  - simpl. destruct (File_Render f) as [frag [e|]] eqn:E.
    + right. exists k, f, e. rewrite E. split; [by left|]. done.
    + destruct (IH (doc +:+ frag +:+ relationship "CONTAINS" pid (File.ID f)))
        as [[Hall ->]|(k' & f' & e' & Hin & He & ->)].
      * left. split; [constructor; [simpl; by rewrite E|done]|].
        unfold filesDoc. simpl. rewrite E. simpl. by rewrite !str_app_assoc.
      * right. exists k', f', e'. split; [by right|]. done.
Qed.

Lemma renderPackages_spec (render : Package → Package * (string * error))
    (verb pid : string) (pkgs : list (string * Package)) (doc : string) :
  (Forall (λ kp, (render kp.2).2.2 = None) pkgs
   ∧ renderPackages render verb pid pkgs doc
     = ((λ kp, (kp.1, (render kp.2).1)) <$> pkgs,
        (doc +:+ Str.concat
                   ((λ kp, (render kp.2).2.1
                           +:+ relationship verb pid (ID (render kp.2).1)) <$> pkgs),
         None)))
  ∨ (∃ k pkg e, (k, pkg) ∈ pkgs ∧ (render pkg).2.2 = Some e
       ∧ (renderPackages render verb pid pkgs doc).2
         = ("", Some ("rendering pkg " +:+ Name (render pkg).1 +:+ ": " +:+ e))).
Proof.
  revert doc. induction pkgs as [|[k pkg] pkgs IH]; intros doc.
  - left. split; [done|]. simpl. by rewrite str_app_nil_r.
  - simpl. destruct (render pkg) as [pkg' [pkgDoc [e|]]] eqn:E.
    + right. exists k, pkg, e. rewrite E. split; [by left|]. done.
    + destruct (IH (doc +:+ pkgDoc +:+ relationship verb pid (ID pkg')))
        as [[Hall ->]|(k' & pkg1 & e' & Hin & He & Hr)].
      * left. split; [constructor; [simpl; by rewrite E|done]|].
        rewrite ?E. simpl. by rewrite !str_app_assoc.
      * right. exists k', pkg1, e'. split; [by right|]. split; [done|].
        destruct (renderPackages _ _ _ pkgs _) as [l r]. simpl in *. done.
Qed.

Lemma renderPackages_children (render : Package → Package * (string * error))
    (verb pid : string) (pkgs : list (string * Package)) (doc : string) :
  Forall2 (λ a b, a.1 = b.1 ∧ (b.2 = a.2 ∨ b.2 = (render a.2).1))
    pkgs (renderPackages render verb pid pkgs doc).1.
Proof.
  revert doc. induction pkgs as [|[k pkg] pkgs IH]; intros doc; simpl; [done|].
  destruct (render pkg) as [pkg' [pkgDoc [e|]]] eqn:E.
  - simpl. constructor; [simpl; rewrite E; simpl; auto|].
    apply Forall_Forall2_diag, Forall_true. auto.
  - specialize (IH (doc +:+ pkgDoc +:+ relationship verb pid (ID pkg'))).
    destruct (renderPackages _ _ _ pkgs _) as [l r]. simpl in *.
    constructor; [simpl; rewrite E; simpl; auto|done].
Qed.

Lemma collect_inr (fs : list (string * File.t)) (a b : list string) (msg : string) :
  collect fs a b = inr msg → incompleteData msg.
Proof.
  revert a b. induction fs as [|[k f] fs IH]; intros a b; simpl; [done|].
  destruct (File.Checksum f) as [cs|]; [|intros [= <-]; right; by left].
  destruct (cs !! "SHA1") as [sha|]; [|intros [= <-]; right; by right].
  apply IH.
Qed.

Lemma deriveFields_inr (p : Package) (msg : string) :
  deriveFields p = inr msg → FilesAnalyzed p = true ∧ incompleteData msg.
Proof.
  unfold deriveFields. destruct (FilesAnalyzed p); [|done].
  destruct (decide _); [intros [= <-]; split; [done|by left]|].
  destruct (collect _ _ _) as [[??]|m] eqn:E; [done|].
  intros [= <-]. split; [done|]. by apply collect_inr in E.
Qed.

(** The outcome of [Render], step by step. *)
Lemma Render_outcome (p : Package) :
  match deriveFields p with
  | inr msg => Render File_Render p = (p, ("", Some msg))
  | inl p1 =>
      (∃ k f e, (k, f) ∈ entries (Files p) ∧ (File_Render f).2 = Some e
         ∧ Render File_Render p
           = (p1, ("", Some ("rendering file " +:+ File.Name f +:+ ": " +:+ e))))
      ∨ (Forall (λ kf, (File_Render kf.2).2 = None) (entries (Files p))
         ∧ ((∃ k pkg e subs deps,
               ((k, pkg) ∈ entries (Packages p) ∨ (k, pkg) ∈ entries (Dependencies p))
               ∧ (Render File_Render pkg).2.2 = Some e
               ∧ Render File_Render p
                 = (set_Dependencies deps (set_Packages subs p1),
                    ("", Some ("rendering pkg " +:+ Name pkg +:+ ": " +:+ e))))
            ∨ (Forall (λ kp, (Render File_Render kp.2).2.2 = None)
                 (entries (Packages p) ++ entries (Dependencies p))
               ∧ Render File_Render p
                 = (set_Dependencies (renderedChildren File_Render <$> Dependencies p)
                      (set_Packages (renderedChildren File_Render <$> Packages p) p1),
                    (execTemplate p1
                     +:+ filesDoc File_Render (ID p) (entries (Files p))
                     +:+ packagesDoc File_Render "CONTAINS" (ID p) (entries (Packages p))
                     +:+ packagesDoc File_Render "DEPENDS_ON" (ID p)
                           (entries (Dependencies p)),
                     None)))))
  end.
Proof.
  rewrite Render_unfold.
  destruct (deriveFields p) as [p1|msg] eqn:Hd; [|done].
  destruct (deriveFields_fields p p1 Hd)
    as (_ & _ & Hid & _ & _ & _ & _ & _ & _ & Hf & _ & Hpk & Hdp).
  rewrite Hid, Hf.
  assert (∀ q, set_Dependencies (Dependencies q) q = q) as Hsd by (by intros []).
  assert (∀ subs q, Dependencies (set_Packages subs q) = Dependencies q) as Hds
    by (by intros ? []).
  assert (∀ pkg, Name (Render File_Render pkg).1 = Name pkg
                 ∧ ID (Render File_Render pkg).1 = ID pkg) as Hkeep.
  { intros pkg. destruct (Render_keeps_ID File_Render pkg) as (? & ? & _). done. }
  destruct (renderFiles_spec (ID p) (entries (Files p)) (execTemplate p1))
    as [[Hall ->]|(k & f & e & Hin & He & ->)].
  2: { left. by exists k, f, e. }
  right. split; [done|].
  assert (∀ (verb : string) (pkgs : list (string * Package)),
            (λ kp : string * Package,
               (Render File_Render kp.2).2.1
               +:+ relationship verb (ID p) (ID (Render File_Render kp.2).1)) <$> pkgs
            = (λ kp : string * Package,
                 (Render File_Render kp.2).2.1 +:+ relationship verb (ID p) (ID kp.2))
                <$> pkgs) as Hext.
  { intros verb pkgs. apply list_fmap_ext. intros i [k pkg] _. simpl.
    by rewrite (proj2 (Hkeep pkg)). }
  destruct (Packages p) as [pkgs|] eqn:HP; simpl.
  - destruct (renderPackages_spec (Render File_Render) "CONTAINS" (ID p) pkgs
                (execTemplate p1 +:+ filesDoc File_Render (ID p) (entries (Files p))))
      as [[HallP ->]|(k & pkg & e & Hin & He & Hr)].
    + rewrite Hext. fold (renderedChildren File_Render pkgs).
      fold (packagesDoc File_Render "CONTAINS" (ID p) pkgs).
      destruct (Dependencies p) as [deps|] eqn:HD; simpl.
      * destruct (renderPackages_spec (Render File_Render) "DEPENDS_ON" (ID p) deps
                    ((execTemplate p1 +:+ filesDoc File_Render (ID p) (entries (Files p)))
                     +:+ packagesDoc File_Render "CONTAINS" (ID p) pkgs))
          as [[HallD ->]|(k & pkg & e & Hin & He & Hr)].
        -- right. split; [by apply Forall_app|].
           rewrite Hext. fold (renderedChildren File_Render deps).
           fold (packagesDoc File_Render "DEPENDS_ON" (ID p) deps).
           by rewrite ?str_app_assoc.
        -- destruct (renderPackages _ _ _ deps _) as [l r]. simpl in Hr. subst r.
           left. exists k, pkg, e. eexists _, _. split; [by right|]. split; [done|].
           rewrite (proj1 (Hkeep pkg)). reflexivity.
      * right. split; [by rewrite app_nil_r|].
        rewrite <- (Hsd (set_Packages _ p1)) at 1. rewrite Hds, Hdp.
        unfold packagesDoc at 2. simpl. by rewrite ?str_app_assoc, ?str_app_nil_r.
    + destruct (renderPackages _ _ _ pkgs _) as [l r]. simpl in Hr. subst r.
      left. exists k, pkg, e.
      eexists (Some l), _. split; [by left|]. split; [done|].
      rewrite <- (Hsd (set_Packages _ p1)) at 1.
      rewrite (proj1 (Hkeep pkg)). reflexivity.
  - destruct (Dependencies p) as [deps|] eqn:HD; simpl.
    + destruct (renderPackages_spec (Render File_Render) "DEPENDS_ON" (ID p) deps
                  (execTemplate p1 +:+ filesDoc File_Render (ID p) (entries (Files p))))
        as [[HallD ->]|(k & pkg & e & Hin & He & Hr)].
      * right. split; [done|].
        rewrite Hext. fold (renderedChildren File_Render deps).
        fold (packagesDoc File_Render "DEPENDS_ON" (ID p) deps).
        unfold packagesDoc at 1. simpl. by rewrite ?str_app_assoc.
      * destruct (renderPackages _ _ _ deps _) as [l r]. simpl in Hr. subst r.
        left. exists k, pkg, e. eexists _, _. split; [by right|]. split; [done|].
        rewrite (proj1 (Hkeep pkg)). reflexivity.
    + right. split; [done|].
      rewrite <- (Hsd (set_Packages _ p1)) at 1. rewrite Hds, Hdp.
      unfold packagesDoc. simpl. by rewrite ?str_app_assoc, ?str_app_nil_r.
Qed.

End RenderMore.

(** X16: a render that fails returns an empty fragment, wherever it fails:
    on the derived fields, on a file, on a sub-package or on a
    dependency. *)
Theorem Render_failure_empty_fragment
    (File_Render : File.t → string * error) (p : Package) :
  (Render File_Render p).2.2 ≠ None → (Render File_Render p).2.1 = "".
Proof.
  pose proof (Render_outcome File_Render p) as H.
  destruct (deriveFields p) as [p1|msg]; [|by rewrite H].
  destruct H as [(k & f & e & _ & _ & ->)|[_ [(k & pkg & e & subs & deps & _ & _ & ->)|[_ ->]]]];
    simpl; done.
Qed.

Lemma Render_failure_empty_fragment_witness :
  (Render emptyFileRender hello).2.2 ≠ None
  ∧ (Render emptyFileRender hello).2.1 = "".
Proof.
  assert ((Render emptyFileRender hello).2.2 ≠ None) as H by (vm_compute; discriminate).
  split; [exact H|exact (Render_failure_empty_fragment emptyFileRender hello H)].
Defined.

(** X17: the error of a failed render is one of the three errors of the
    derived fields (and then the files were analyzed), or the error of one
    of the files of the package behind [rendering file] and the name of
    that file, or the error of the render of one of its sub-packages or
    dependencies behind [rendering pkg] and the name of that package. *)
Theorem Render_error_cases
    (File_Render : File.t → string * error) (p : Package) (err : string) :
  (Render File_Render p).2.2 = Some err →
  (FilesAnalyzed p = true ∧ incompleteData err)
  ∨ (∃ k f e, (k, f) ∈ entries (Files p) ∧ (File_Render f).2 = Some e
       ∧ err = "rendering file " +:+ File.Name f +:+ ": " +:+ e)
  ∨ (∃ k pkg e,
       ((k, pkg) ∈ entries (Packages p) ∨ (k, pkg) ∈ entries (Dependencies p))
       ∧ (Render File_Render pkg).2.2 = Some e
       ∧ err = "rendering pkg " +:+ Name pkg +:+ ": " +:+ e).
Proof.
  pose proof (Render_outcome File_Render p) as H.
  destruct (deriveFields p) as [p1|msg] eqn:Hd.
  - destruct H as [(k & f & e & Hin & He & ->)
                  |[_ [(k & pkg & e & subs & deps & Hin & He & ->)|[_ ->]]]];
      simpl; intros [= <-].
    + right. left. by exists k, f, e.
    + right. right. by exists k, pkg, e.
  - rewrite H. simpl. intros [= <-]. left. by apply deriveFields_inr.
Qed.

Lemma Render_error_cases_witness :
  let failing := λ f : File.t, ("", Some "no such file") in
  (Render failing (hello_example aaaa)).2.2
  = Some "rendering file main.c: no such file"
  ∧ ∃ k f e, (k, f) ∈ entries (Files (hello_example aaaa))
      ∧ (failing f).2 = Some e
      ∧ "rendering file main.c: no such file"
        = "rendering file " +:+ File.Name f +:+ ": " +:+ e.
Proof.
  intros failing.
  assert ((Render failing (hello_example aaaa)).2.2
          = Some "rendering file main.c: no such file") as H
    by (vm_compute; reflexivity).
  split; [exact H|].
  destruct (Render_error_cases failing (hello_example aaaa) _ H)
    as [[_ Hi]|[Hf|(k & pkg & e & [Hin|Hin] & _)]].
  - exfalso. destruct Hi as [Hi|[Hi|Hi]]; vm_compute in Hi; discriminate Hi.
  - exact Hf.
  - exfalso. by apply elem_of_nil in Hin.
  - exfalso. by apply elem_of_nil in Hin.
Defined.

(** ** [Render]: the fragment *)



(** X19: a render succeeds exactly when the fields can be derived, every
    file of the package renders, and every sub-package and dependency
    renders. *)
Theorem Render_succeeds_iff
    (File_Render : File.t → string * error) (p : Package) :
  (Render File_Render p).2.2 = None ↔
  (∃ p1, deriveFields p = inl p1)
  ∧ Forall (λ kf, (File_Render kf.2).2 = None) (entries (Files p))
  ∧ Forall (λ kp, (Render File_Render kp.2).2.2 = None)
      (entries (Packages p) ++ entries (Dependencies p)).
Proof.
  pose proof (Render_outcome File_Render p) as H.
  destruct (deriveFields p) as [p1|msg].
  - destruct H as [(k & f & e & Hin & He & ->)
                  |[Hall [(k & pkg & e & subs & deps & Hin & He & ->)|[HallC ->]]]];
      simpl.
    + split; [done|]. intros (_ & HF & _).
      pose proof (proj1 (Forall_forall _ _) HF (k, f) Hin) as Hk. simpl in Hk.
      congruence.
    + split; [done|]. intros (_ & _ & HF).
      assert ((k, pkg) ∈ entries (Packages p) ++ entries (Dependencies p)) as Hin'
        by (apply elem_of_app; tauto).
      pose proof (proj1 (Forall_forall _ _) HF (k, pkg) Hin') as Hk. simpl in Hk.
      congruence.
    + split; [|done]. intros _. split; [by exists p1|]. done.
  - rewrite H. simpl. split; [done|]. by intros [[p1 ?] _].
Qed.

(** ** [Render]: what it leaves alone *)

Lemma Forall2_child_after_refl (File_Render : File.t → string * error)
    (l : list (string * Package)) :
  Forall2 (child_after File_Render) l l.
Proof. apply Forall_Forall2_diag, Forall_true. intros a. split; auto. Qed.

Lemma Render_children (File_Render : File.t → string * error) (p : Package) :
  option_Forall2 (Forall2 (child_after File_Render))
    (Packages p) (Packages (Render File_Render p).1)
  ∧ option_Forall2 (Forall2 (child_after File_Render))
      (Dependencies p) (Dependencies (Render File_Render p).1).
Proof.
  assert (∀ m : option (list (string * Package)),
            option_Forall2 (Forall2 (child_after File_Render)) m m) as Hrefl.
  { intros [l|]; constructor. apply Forall2_child_after_refl. }
  rewrite Render_unfold.
  destruct (deriveFields p) as [p1|msg] eqn:Hd; [|by simpl].
  destruct (deriveFields_fields p p1 Hd)
    as (_ & _ & _ & _ & _ & _ & _ & _ & _ & _ & _ & Hpk & Hdp).
  assert (∀ subs q, Packages (set_Packages subs q) = subs
                    ∧ Dependencies (set_Packages subs q) = Dependencies q) as HsP
    by (by intros ? []).
  assert (∀ deps q, Packages (set_Dependencies deps q) = Packages q
                    ∧ Dependencies (set_Dependencies deps q) = deps) as HsD
    by (by intros ? []).
  destruct (renderFiles _ _ _ _) as [d [e|]]; simpl; [by rewrite Hpk, Hdp|].
  destruct (Packages p) as [pkgs|] eqn:HP.
  - pose proof (renderPackages_children (Render File_Render) "CONTAINS" (ID p1) pkgs d)
      as Hch.
    destruct (renderPackages _ _ _ pkgs _) as [pkgs1 [d1 [e|]]]; simpl in *.
    + destruct (HsP (Some pkgs1) p1) as [-> ->]. rewrite Hdp.
      split; [by constructor|done].
    + destruct (Dependencies p) as [deps|] eqn:HD.
      * pose proof (renderPackages_children (Render File_Render) "DEPENDS_ON"
                      (ID p1) deps d1) as Hch2.
        destruct (renderPackages _ _ _ deps _) as [deps1 r]; simpl in *.
        destruct (HsD (Some deps1) (set_Packages (Some pkgs1) p1)) as [-> ->].
        destruct (HsP (Some pkgs1) p1) as [-> _].
        split; by constructor.
      * simpl. destruct (HsP (Some pkgs1) p1) as [-> ->]. rewrite Hdp.
        split; by constructor.
  - simpl. destruct (Dependencies p) as [deps|] eqn:HD.
    + pose proof (renderPackages_children (Render File_Render) "DEPENDS_ON"
                    (ID p1) deps d) as Hch2.
      destruct (renderPackages _ _ _ deps _) as [deps1 r]; simpl in *.
      destruct (HsD (Some deps1) (set_Packages None p1)) as [-> ->].
      destruct (HsP None p1) as [-> _].
      split; by constructor.
    + simpl. destruct (HsP None p1) as [-> ->]. rewrite Hdp. split; by constructor.
Qed.

(** X20: whether it succeeds or fails, [Render] assigns no identifier and
    moves no child: the package keeps its ID, its name and its files, each
    map keeps its keys in place, and every sub-package and dependency keeps
    its own ID and name. *)
Theorem Render_keeps_identifiers
    (File_Render : File.t → string * error) (p : Package) :
  let p' := (Render File_Render p).1 in
  let same := λ a b : string * Package,
                a.1 = b.1 ∧ ID a.2 = ID b.2 ∧ Name a.2 = Name b.2 in
  ID p' = ID p ∧ Name p' = Name p ∧ Files p' = Files p
  ∧ keys (Packages p') = keys (Packages p)
  ∧ keys (Dependencies p') = keys (Dependencies p)
  ∧ option_Forall2 (Forall2 same) (Packages p) (Packages p')
  ∧ option_Forall2 (Forall2 same) (Dependencies p) (Dependencies p').
Proof.
  intros p' same.
  destruct (Render_keeps_ID File_Render p) as (Hi & Hn & Hf).
  destruct (Render_children File_Render p) as [HP HD]. fold p' in HP, HD.
  assert (∀ l l', Forall2 (child_after File_Render) l l' → Forall2 same l l') as Hsame.
  { intros l l' H. eapply Forall2_impl; [exact H|].
    intros a b [Hk Hb]. unfold same. destruct Hb as [Hb|Hb]; rewrite Hb; [done|].
    destruct (Render_keeps_ID File_Render a.2) as (? & ? & _). done. }
  assert (∀ m m', option_Forall2 (Forall2 (child_after File_Render)) m m' →
                  option_Forall2 (Forall2 same) m m' ∧ keys m' = keys m) as Hopt.
  { intros m m' [l l' H|]; [|split; [constructor|done]].
    split; [constructor; by apply Hsame|].
    unfold keys. simpl. apply Hsame in H. clear -H.
    induction H as [|a b l l' (Hk & _) _ IH]; [done|].
    simpl. f_equal; [by symmetry|exact IH]. }
  destruct (Hopt _ _ HP) as [? ?]. destruct (Hopt _ _ HD) as [? ?].
  done.
Qed.

(** X21: with FilesAnalyzed false [Render] derives nothing and asks nothing
    of the files: the verification code and the licence information are as
    they were, no file needs a checksum, and a package without files and
    children is returned as it was with its executed template. *)
Theorem Render_not_analyzed
    (File_Render : File.t → string * error) (p : Package) :
  FilesAnalyzed p = false →
  deriveFields p = inl p
  ∧ VerificationCode (Render File_Render p).1 = VerificationCode p
  ∧ LicenseInfoFromFiles (Render File_Render p).1 = LicenseInfoFromFiles p
  ∧ (entries (Files p) = [] → Packages p = None → Dependencies p = None →
     Render File_Render p = (p, (execTemplate p, None))).
Proof.
  intros Hfa.
  assert (deriveFields p = inl p) as Hd by (unfold deriveFields; by rewrite Hfa).
  split; [done|].
  destruct (Render_post File_Render p p Hd) as (subs & deps & Hr).
  destruct (fields_set_children subs deps p) as (_ & _ & _ & Hvc & Hli & _).
  rewrite Hr. split; [done|]. split; [done|].
  intros Hf HP HD. rewrite Render_unfold, Hd, Hf, HP, HD. simpl.
  assert (set_Packages None p = p) as ->; [|done].
  rewrite <- HP. by destruct p.
Qed.

Lemma Render_not_analyzed_witness :
  FilesAnalyzed NewPackage = false
  ∧ Render emptyFileRender NewPackage = (NewPackage, (execTemplate NewPackage, None)).
Proof.
  assert (FilesAnalyzed NewPackage = false) as H by reflexivity.
  split; [exact H|].
  exact (proj2 (proj2 (proj2 (Render_not_analyzed emptyFileRender NewPackage H)))
           eq_refl eq_refl eq_refl).
Defined.

(** ** [Render]: the licence tags of the files *)

Lemma collected_elem_of (tag : string) (l : list string) :
  collected tag l = true ↔ tag ∈ l.
Proof.
  induction l as [|t l IH]; simpl.
  - split; [done|by intros ?%elem_of_nil].
  - rewrite elem_of_cons. destruct (decide (t = tag)) as [->|Hne].
    + split; auto.
    + rewrite IH. split; [auto|]. intros [?|?]; [congruence|done].
Qed.

Lemma collect_tags (fs : list (string * File.t)) :
  ∀ (shaList tags s t : list string),
    NoDup tags →
    collect fs shaList tags = inl (s, t) →
    ∃ new,
      t = tags ++ new
      ∧ NoDup t
      ∧ new `sublist_of` ((λ kf, File.LicenseInfoInFile kf.2) <$> fs)
      ∧ ∀ x, x ∈ new ↔
             (x ∉ tags) ∧ x ≠ "" ∧ ∃ k f, (k, f) ∈ fs ∧ File.LicenseInfoInFile f = x.
Proof.
  induction fs as [|[k f] fs IH]; intros shaList tags s t Hnd; simpl.
  - intros [= _ <-]. exists []. rewrite app_nil_r.
    split; [done|]. split; [done|]. split; [done|].
    intros x. split; [by intros ?%elem_of_nil|].
    intros (_ & _ & k & f & Hin & _). by apply elem_of_nil in Hin.
  - destruct (File.Checksum f) as [cs|]; [|done].
    destruct (cs !! "SHA1") as [sha|]; [|done].
    set (x := File.LicenseInfoInFile f).
    destruct (decide (x ≠ "")) as [Hx|Hx].
    + destruct (collected x tags) eqn:Hc.
      * apply collected_elem_of in Hc.
        intros (new & -> & Hnd' & Hsub & Hiff)%IH; [|done].
        exists new. split; [done|]. split; [done|].
        split; [by apply sublist_cons|].
        intros y. rewrite Hiff. split.
        -- intros (H1 & H2 & k' & f' & Hin & Hf). split; [done|]. split; [done|].
           exists k', f'. split; [by right|done].
        -- intros (H1 & H2 & k' & f' & Hin & Hf). split; [done|]. split; [done|].
           apply elem_of_cons in Hin as [[= -> ->]|Hin]; [|by exists k', f'].
           fold x in Hf. subst y. done.
      * assert (x ∉ tags) as Hnin.
        { intros Hin%collected_elem_of. congruence. }
        intros (new & -> & Hnd' & Hsub & Hiff)%IH.
        2: { apply NoDup_app. split; [done|]. split; [|apply NoDup_singleton].
             intros y Hy ->%list_elem_of_singleton. done. }
        exists (x :: new). rewrite <- app_assoc in *. simpl in *.
        split; [done|]. split; [done|]. split; [by apply sublist_skip|].
        intros y. rewrite elem_of_cons, Hiff. split.
        -- intros [->|(H1 & H2 & k' & f' & Hin & Hf)].
           ++ split; [done|]. split; [done|]. exists k, f. split; [by left|done].
           ++ rewrite elem_of_app, list_elem_of_singleton in H1.
              split; [tauto|]. split; [done|]. exists k', f'. split; [by right|done].
        -- intros (H1 & H2 & k' & f' & Hin & Hf).
           destruct (decide (y = x)) as [->|Hne]; [by left|]. right.
           split; [rewrite elem_of_app, list_elem_of_singleton; tauto|].
           split; [done|].
           apply elem_of_cons in Hin as [[= -> ->]|Hin]; [|by exists k', f'].
           fold x in Hf. congruence.
    + assert (x = "") as Hx' by (by destruct (decide (x = "")); [|destruct Hx]).
      intros (new & -> & Hnd' & Hsub & Hiff)%IH; [|done].
      exists new. split; [done|]. split; [done|].
      split; [by apply sublist_cons|].
      intros y. rewrite Hiff. split.
      * intros (H1 & H2 & k' & f' & Hin & Hf). split; [done|]. split; [done|].
        exists k', f'. split; [by right|done].
      * intros (H1 & H2 & k' & f' & Hin & Hf). split; [done|]. split; [done|].
        apply elem_of_cons in Hin as [[= -> ->]|Hin]; [|by exists k', f'].
        fold x in Hf. congruence.
Qed.

(** The licence information that [deriveFields] leaves, by the tags of the
    files. *)
Lemma deriveFields_license_info (p p1 : Package) :
  FilesAnalyzed p = true →
  deriveFields p = inl p1 →
  ∃ tags,
    NoDup tags
    ∧ tags `sublist_of` ((λ kf, File.LicenseInfoInFile kf.2) <$> entries (Files p))
    ∧ (∀ x, x ∈ tags ↔
            x ≠ "" ∧ ∃ k f, (k, f) ∈ entries (Files p) ∧ File.LicenseInfoInFile f = x)
    ∧ LicenseInfoFromFiles p1
      = LicenseInfoFromFiles p
        ++ filter (λ tag, tag ≠ NONE ∧ tag ≠ NOASSERTION) tags
        ++ (if decide (tags = []) then [NONE] else []).
Proof.
  intros Hfa. unfold deriveFields. rewrite Hfa.
  destruct (decide _); [done|].
  destruct (collect _ _ _) as [[shaList tags]|] eqn:Hc; [|done].
  intros [= <-].
  destruct (collect_tags _ _ _ _ _ (NoDup_nil_2) Hc) as (new & -> & Hnd & Hsub & Hiff).
  simpl in *. exists new. split; [done|]. split; [done|]. split.
  - intros x. rewrite Hiff. split; [by intros (_ & ?)|].
    intros ?. split; [apply not_elem_of_nil|done].
  - destruct p; simpl.
    destruct new as [|t new]; simpl; by rewrite app_nil_r.
Qed.



Lemma filter_none {A : Type} (P : A → Prop) `{∀ x, Decision (P x)} (l : list A) :
  Forall (λ x, ¬ P x) l → filter P l = [].
Proof.
  induction 1 as [|x l Hx Hl IH]; [done|]. by rewrite filter_cons_False.
Qed.

(** X23: when the files are analyzed and their only tags are the sentinels
    [NONE] and [NOASSERTION], at least one file having one, [Render] appends
    nothing to [LicenseInfoFromFiles], not even [NONE]: the sentinel is
    added only when no file has any tag. *)
Theorem Render_sentinel_tags_only
    (File_Render : File.t → string * error) (p : Package) :
  FilesAnalyzed p = true →
  (∀ k f, (k, f) ∈ entries (Files p) → hasSHA1 f) →
  (∀ k f, (k, f) ∈ entries (Files p) →
     File.LicenseInfoInFile f = "" ∨ File.LicenseInfoInFile f = NONE
     ∨ File.LicenseInfoInFile f = NOASSERTION) →
  (∃ k f, (k, f) ∈ entries (Files p) ∧ File.LicenseInfoInFile f ≠ "") →
  LicenseInfoFromFiles (Render File_Render p).1 = LicenseInfoFromFiles p.
Proof.
  intros Hfa Hall Hsent (k0 & f0 & Hin0 & Hne0).
  assert (entries (Files p) ≠ []) as Hne.
  { intros He. rewrite He in Hin0. by apply elem_of_nil in Hin0. }
  destruct (deriveFields_analyzed p Hfa Hne) as (p1 & Hd & _).
  { apply Forall_forall. intros [k f] Hin. by apply (Hall k). }
  destruct (deriveFields_license_info p p1 Hfa Hd) as (tags & _ & _ & Hiff & Heq).
  destruct (Render_post File_Render p p1 Hd) as (subs & deps & ->).
  destruct (fields_set_children subs deps p1) as (_ & _ & _ & _ & -> & _).
  rewrite Heq. rewrite filter_none.
  - rewrite decide_False; [by rewrite !app_nil_r|].
    intros Ht. assert (File.LicenseInfoInFile f0 ∈ tags) as Hin.
    { apply Hiff. split; [done|]. by exists k0, f0. }
    rewrite Ht in Hin. by apply elem_of_nil in Hin.
  - apply Forall_forall. intros x (Hx & k & f & Hin & <-)%Hiff.
    destruct (Hsent k f Hin) as [?|[->| ->]]; [done|tauto..].
Qed.

Lemma Render_sentinel_tags_only_witness :
  FilesAnalyzed none_package = true
  ∧ LicenseInfoFromFiles none_package = []
  ∧ (Render emptyFileRender none_package).2.2 = None
  ∧ LicenseInfoFromFiles (Render emptyFileRender none_package).1 = [].
Proof.
  assert (FilesAnalyzed none_package = true) as H1 by reflexivity.
  assert (Forall (λ kf, hasSHA1 kf.2) (entries (Files none_package))) as HF.
  { apply (bool_decide_unpack _). vm_compute. exact I. }
  assert (∀ k f, (k, f) ∈ entries (Files none_package) → hasSHA1 f) as H2.
  { intros k f Hin. by apply (proj1 (Forall_forall _ _) HF (k, f)). }
  assert (∀ k f, (k, f) ∈ entries (Files none_package) →
            File.LicenseInfoInFile f = "" ∨ File.LicenseInfoInFile f = NONE
            ∨ File.LicenseInfoInFile f = NOASSERTION) as H3.
  { intros k f Hin.
    assert (Forall (λ kf, File.LicenseInfoInFile kf.2 = NONE)
              (entries (Files none_package))) as HN by (repeat constructor).
    right. left. by apply (proj1 (Forall_forall _ _) HN (k, f)). }
  assert (∃ k f, (k, f) ∈ entries (Files none_package)
                 ∧ File.LicenseInfoInFile f ≠ "") as H4.
  { eexists _, _. split; [by left|]. vm_compute. discriminate. }
  split; [exact H1|]. split; [reflexivity|]. split; [vm_compute; reflexivity|].
  exact (Render_sentinel_tags_only emptyFileRender none_package H1 H2 H3 H4).
Defined.

(** ** [Render]: more lines of the fragment *)

Lemma deriveFields_inl_analyzed (p p1 : Package) :
  FilesAnalyzed p = true → deriveFields p = inl p1 →
  entries (Files p) ≠ [] ∧ Forall (λ kf, hasSHA1 kf.2) (entries (Files p)).
Proof.
  intros Hfa. unfold deriveFields. rewrite Hfa.
  destruct (decide _) as [He|He]; [done|].
  intros Hd. split; [intros E; apply He; by rewrite E|].
  destruct (decide (Forall (λ kf, hasSHA1 kf.2) (entries (Files p)))) as [|Hn]; [done|].
  destruct (collect_error _ [] [] Hn) as (msg & Hc & _). by rewrite Hc in Hd.
Qed.

(** X24: every successful render of a package whose files are analyzed
    prints the [PackageVerificationCode] line, with the code the package is
    left with: forty hexadecimal digits, the digest of the sorted SHA1
    values of the files. *)
Theorem Render_prints_VerificationCode
    (File_Render : File.t → string * error) (p p' : Package) (frag : string) :
  Render File_Render p = (p', (frag, None)) →
  FilesAnalyzed p = true →
  has_line frag ("PackageVerificationCode: " +:+ VerificationCode p')
  ∧ VerificationCode p' = Sha1.hex (Str.concat (sort_Strings (fileSHA1s p)))
  ∧ String.length (VerificationCode p') = 40
  ∧ Str.all Sha1.is_hexdigit (VerificationCode p').
Proof.
  intros Hr Hfa.
  destruct (Render_success _ _ _ _ Hr) as (p1 & r & Hd & ->).
  destruct (deriveFields_inl_analyzed p p1 Hfa Hd) as [Hne Hall].
  destruct (deriveFields_analyzed p Hfa Hne Hall) as (p1' & Hd' & Hvc).
  assert (p1' = p1) as -> by congruence.
  assert (VerificationCode p' = VerificationCode p1) as Hp'.
  { pose proof (Render_VerificationCode File_Render p) as H.
    by rewrite Hr, Hd in H. }
  rewrite Hp', Hvc. unfold verificationCodeOf.
  split; [|split; [done|split; [apply sha1_hex_length|apply sha1_hex_all]]].
  apply contains_app_l.
  rewrite <- (htmlEscape_hex (Sha1.hex _)) at 1 by apply sha1_hex_all.
  fold (verificationCodeOf (fileSHA1s p)). rewrite <- Hvc.
  apply line_PackageVerificationCode. rewrite Hvc. apply sha1_hex_nonempty.
Qed.

Lemma Render_prints_VerificationCode_witness :
  let r := Render emptyFileRender (hello_example aaaa) in
  r.2.2 = None ∧ FilesAnalyzed (hello_example aaaa) = true
  ∧ has_line r.2.1 ("PackageVerificationCode: " +:+ VerificationCode r.1).
Proof.
  intros r.
  assert (Render emptyFileRender (hello_example aaaa) = (r.1, (r.2.1, None))) as Hr
    by (vm_compute; reflexivity).
  assert (FilesAnalyzed (hello_example aaaa) = true) as Hfa by reflexivity.
  split; [vm_compute; reflexivity|]. split; [exact Hfa|].
  exact (proj1 (Render_prints_VerificationCode emptyFileRender _ _ _ Hr Hfa)).
Defined.

Lemma line_FilesAnalyzed (p : Package) :
  has_line (execTemplate p)
    ("FilesAnalyzed: " +:+ (if FilesAnalyzed p then "true" else "false")).
Proof.
  apply template_line. rewrite str_app_assoc.
  unfold segments. cbn [tail app]. do 4 right. by left.
Qed.

Lemma line_PackageCopyrightText_unset (p : Package) :
  CopyrightText p = "" →
  has_line (execTemplate p) "PackageCopyrightText: NOASSERTION".
Proof.
  intros H.
  assert (Str.contains (execTemplate p)
            (Str.nl +:+ "PackageCopyrightText: " +:+ "NOASSERTION"
               +:+ Str.nl +:+ Str.nl)) as (a & b & Hab).
  { apply template_segment. unfold segments. cbn [tail app].
    rewrite (decide_True _ _ H). do 8 right.
    apply elem_of_app. right. right. right. by left. }
  exists a, (Str.nl +:+ b). rewrite Hab. by rewrite !str_app_assoc.
Qed.

(** X25: a successful render prints [PackageDownloadLocation: NONE] for a
    package without download location, [PackageCopyrightText: NOASSERTION]
    for one without copyright text, and the flag as [FilesAnalyzed: true]
    or [FilesAnalyzed: false]. *)
Theorem Render_other_sentinels
    (File_Render : File.t → string * error) (p p' : Package) (frag : string) :
  Render File_Render p = (p', (frag, None)) →
  (DownloadLocation p = "" → has_line frag "PackageDownloadLocation: NONE")
  ∧ (CopyrightText p = "" → has_line frag "PackageCopyrightText: NOASSERTION")
  ∧ has_line frag ("FilesAnalyzed: " +:+ (if FilesAnalyzed p then "true" else "false")).
Proof.
  intros (p1 & r & Hd & ->)%Render_success.
  destruct (deriveFields_fields p p1 Hd)
    as (Hfa & _ & _ & Hdl & _ & _ & Hct & _).
  split; [|split].
  - intros H. apply contains_app_l.
    pose proof (line_PackageDownloadLocation p1) as Hl.
    by rewrite Hdl, H in Hl.
  - intros H. apply contains_app_l. apply line_PackageCopyrightText_unset. congruence.
  - apply contains_app_l. rewrite <- Hfa. apply line_FilesAnalyzed.
Qed.

Lemma Render_other_sentinels_witness :
  let r := Render emptyFileRender NewPackage in
  r.2.2 = None
  ∧ DownloadLocation NewPackage = "" ∧ CopyrightText NewPackage = ""
  ∧ has_line r.2.1 "PackageDownloadLocation: NONE"
  ∧ has_line r.2.1 "PackageCopyrightText: NOASSERTION"
  ∧ has_line r.2.1 "FilesAnalyzed: false".
Proof.
  intros r.
  assert (Render emptyFileRender NewPackage = (r.1, (r.2.1, None))) as Hr
    by (vm_compute; reflexivity).
  destruct (Render_other_sentinels emptyFileRender _ _ _ Hr) as (H1 & H2 & H3).
  split; [vm_compute; reflexivity|]. split; [reflexivity|]. split; [reflexivity|].
  split; [exact (H1 eq_refl)|]. split; [exact (H2 eq_refl)|exact H3].
Defined.

(** ** [ReadSourceFile] and [Render] together *)

Lemma sortedEntries_two (a b : string) :
  sortedEntries (Some {[ "SHA256" := a; "SHA512" := b ]})
  = [("SHA256", a); ("SHA512", b)].
Proof. vm_compute. reflexivity. Qed.

(** X26: a package that has read its source file renders the two digests
    as consecutive [PackageChecksum] lines, SHA256 before SHA512, and its
    file name, if it is not empty, as the [PackageFileName] line. *)
Theorem Render_after_ReadSourceFile
    (util_Exists : string → bool)
    (hash_SHA256ForFile hash_SHA512ForFile : string → string * error)
    (filepath_Separator : ascii)
    (File_Render : File.t → string * error)
    (p p' p'' : Package) (path frag : string) :
  ReadSourceFile util_Exists hash_SHA256ForFile hash_SHA512ForFile
    filepath_Separator p path = Some (p', None) →
  Render File_Render p' = (p'', (frag, None)) →
  (hash_SHA256ForFile path).1 ≠ "" → (hash_SHA512ForFile path).1 ≠ "" →
  Str.contains frag
    (Str.nl +:+ "PackageChecksum: SHA256: " +:+ htmlEscape (hash_SHA256ForFile path).1
       +:+ Str.nl
       +:+ "PackageChecksum: SHA512: " +:+ htmlEscape (hash_SHA512ForFile path).1
       +:+ Str.nl)
  ∧ (FileName p' ≠ "" → has_line frag ("PackageFileName: " +:+ htmlEscape (FileName p'))).
Proof.
  intros Hread Hr H256ne H512ne.
  destruct (ReadSourceFile_success_inv _ _ _ _ _ _ _ Hread)
    as (s256 & s512 & o & Hex & H256 & H512 & Ho).
  rewrite (ReadSourceFile_ok _ _ _ _ _ _ _ _ _ Hex H256 H512 Ho) in Hread.
  injection Hread as Hp'. rewrite H256, H512 in *. simpl in *.
  assert (Checksum p' = Some {[ "SHA256" := s256; "SHA512" := s512 ]}) as Hcs
    by (rewrite <- Hp'; by destruct p).
  destruct (Render_success _ _ _ _ Hr) as (p1 & r & Hd & ->).
  destruct (deriveFields_fields p' p1 Hd)
    as (_ & _ & _ & _ & _ & _ & _ & _ & Hfn & _ & Hcs1 & _).
  split.
  - apply contains_app_l.
    assert (checksumLines (Checksum p1)
            = "PackageChecksum: SHA256: " +:+ htmlEscape s256 +:+ Str.nl
              +:+ "PackageChecksum: SHA512: " +:+ htmlEscape s512 +:+ Str.nl) as Hlines.
    { rewrite Hcs1, Hcs. unfold checksumLines. rewrite sortedEntries_two.
      cbn [fmap list_fmap Str.concat fst snd].
      rewrite (ifSet_set _ _ H256ne), (ifSet_set _ _ H512ne).
      by rewrite !str_app_assoc, str_app_nil_r. }
    rewrite <- Hlines. apply template_segment.
    unfold segments. cbn [tail app]. do 2 right. by left.
  - intros H. apply contains_app_l. rewrite <- Hfn in *.
    by apply line_PackageFileName.
Qed.

Lemma Render_after_ReadSourceFile_witness :
  let sha256 := λ _ : string, (aaaa, @None string) in
  let sha512 := λ _ : string, (bbbb, @None string) in
  let r := Render emptyFileRender work_package_read in
  ReadSourceFile (λ _, true) sha256 sha512 "/" work_package "/work/hello.tar"
  = Some (work_package_read, None)
  ∧ r.2.2 = None
  ∧ has_line r.2.1 "PackageFileName: hello.tar"
  ∧ Str.contains r.2.1
      (Str.nl +:+ "PackageChecksum: SHA256: " +:+ htmlEscape aaaa +:+ Str.nl
         +:+ "PackageChecksum: SHA512: " +:+ htmlEscape bbbb +:+ Str.nl).
Proof.
  intros sha256 sha512 r.
  assert (ReadSourceFile (λ _, true) sha256 sha512 "/" work_package "/work/hello.tar"
          = Some (work_package_read, None)) as Hread by reflexivity.
  assert (Render emptyFileRender work_package_read = (r.1, (r.2.1, None))) as Hr
    by (vm_compute; reflexivity).
  assert ((sha256 "/work/hello.tar").1 ≠ "") as H1 by (vm_compute; discriminate).
  assert ((sha512 "/work/hello.tar").1 ≠ "") as H2 by (vm_compute; discriminate).
  assert (FileName work_package_read ≠ "") as H3 by (vm_compute; discriminate).
  destruct (Render_after_ReadSourceFile _ _ _ _ _ _ _ _ _ _ Hread Hr H1 H2) as [Ha Hb].
  split; [exact Hread|]. split; [vm_compute; reflexivity|].
  split; [exact (Hb H3)|exact Ha].
Defined.

(** ** Values printed as they are *)

Lemma htmlEscapeChar_cases (c : ascii) :
  (htmlEscaped c ∧ 3 ≤ String.length (htmlEscapeChar c))
  ∨ (¬ htmlEscaped c ∧ htmlEscapeChar c = String c "").
Proof.
  unfold htmlEscapeChar, htmlEscaped.
  repeat (destruct (decide _) as [->|?]; [left; split; [tauto|simpl; lia]|]).
  right. split; [|done]. intros [?|[?|[?|[?|[?|[?|?]]]]]]; done.
Qed.

Lemma htmlEscape_length (s : string) :
  String.length s ≤ String.length (htmlEscape s).
Proof.
  induction s as [|c s IH]; simpl; [done|].
  rewrite str_app_length.
  destruct (htmlEscapeChar_cases c) as [[_ H]|[_ ->]]; simpl; lia.
Qed.

(** X27: the escaper leaves a value as it is exactly when the value has
    none of the seven bytes it replaces; the name of such a package is
    printed verbatim in the header and in the [PackageName] line of a
    successful render. *)
Theorem Render_prints_verbatim :
  (∀ s, htmlEscape s = s ↔ Str.all (λ c, ¬ htmlEscaped c) s)
  ∧ ∀ (File_Render : File.t → string * error) (p p' : Package) (frag : string),
      Render File_Render p = (p', (frag, None)) →
      Str.all (λ c, ¬ htmlEscaped c) (Name p) →
      (∃ r, frag = "##### Package: " +:+ Name p +:+ Str.nl +:+ r)
      ∧ (Name p ≠ "" → has_line frag ("PackageName: " +:+ Name p)).
Proof.
  assert (∀ s, htmlEscape s = s ↔ Str.all (λ c, ¬ htmlEscaped c) s) as Hiff.
  { induction s as [|c s IH]; simpl; [done|].
    destruct (htmlEscapeChar_cases c) as [[Hc Hl]|[Hc ->]].
    - split; [|tauto]. intros H. exfalso.
      assert (String.length (htmlEscapeChar c +:+ htmlEscape s)
              = String.length (String c s)) as Hlen by (by rewrite H).
      rewrite str_app_length in Hlen. simpl in Hlen.
      pose proof (htmlEscape_length s). lia.
    - rewrite str_app_cons, str_app_nil_l. split.
      + intros [= H]. split; [done|]. by apply IH.
      + intros [_ H]. f_equal. by apply IH. }
  split; [exact Hiff|].
  intros File_Render p p' frag (p1 & r & Hd & ->)%Render_success Hall.
  destruct (deriveFields_fields p p1 Hd) as (_ & Hn & _).
  apply Hiff in Hall. split.
  - destruct (template_header p1) as [r1 ->]. rewrite Hn, Hall.
    eexists. by rewrite !str_app_assoc.
  - intros H. apply contains_app_l. rewrite <- Hall at 1. rewrite <- Hn in *.
    by apply line_PackageName.
Qed.

Lemma Render_prints_verbatim_witness :
  let r := Render emptyFileRender (hello_example aaaa) in
  r.2.2 = None
  ∧ Str.all (λ c, ¬ htmlEscaped c) (Name (hello_example aaaa))
  ∧ Name (hello_example aaaa) ≠ ""
  ∧ has_line r.2.1 ("PackageName: " +:+ Name (hello_example aaaa)).
Proof.
  intros r.
  assert (Render emptyFileRender (hello_example aaaa) = (r.1, (r.2.1, None))) as Hr
    by (vm_compute; reflexivity).
  assert (Str.all (λ c, ¬ htmlEscaped c) (Name (hello_example aaaa))) as Hall.
  { apply (proj1 Render_prints_verbatim). reflexivity. }
  assert (Name (hello_example aaaa) ≠ "") as Hne by (vm_compute; discriminate).
  split; [vm_compute; reflexivity|]. split; [exact Hall|]. split; [exact Hne|].
  exact (proj2 (proj2 Render_prints_verbatim emptyFileRender _ _ _ Hr Hall) Hne).
Defined.

(** ** [AddFile] and [Render] together *)

Lemma sha1Of_attached (p : Package) (f : File.t) :
  sha1Of (attached p f) = sha1Of f ∧ (hasSHA1 (attached p f) ↔ hasSHA1 f).
Proof.
  destruct (attached_fields p f) as (_ & Hc & _).
  unfold sha1Of, hasSHA1. by rewrite Hc.
Qed.

(** X28: for a package with analyzed files that holds no file yet, after
    files that all carry a SHA1 hash are attached by [AddFile] under
    distinct identifiers, [Render] leaves as verification code the digest
    of the sorted SHA1 values of the files that were given. *)
Theorem Render_after_AddFiles
    (File_Render : File.t → string * error) (p : Package) (files : list File.t) :
  FilesAnalyzed p = true →
  entries (Files p) = [] →
  files ≠ [] →
  Forall (attaches p) files →
  NoDup (attachedID p <$> files) →
  Forall hasSHA1 files →
  VerificationCode (Render File_Render (AddFiles p files)).1
  = Sha1.hex (Str.concat (sort_Strings (sha1Of <$> files))).
Proof.
  intros Hfa He Hne Hatt Hids Hsha.
  assert (NoDup (keys (Files p))) as Hnd by (unfold keys; rewrite He; constructor).
  destruct (AddFiles_entries p files p eq_refl Hnd Hatt Hids) as (Hperm & Hfa' & _).
  rewrite He in Hperm. simpl in Hperm. rewrite app_nil_r in Hperm.
  set (q := AddFiles p files) in *.
  assert (fileSHA1s q ≡ₚ sha1Of <$> files) as Hs.
  { unfold fileSHA1s. rewrite Hperm, <- list_fmap_compose.
    apply eq_subrelation; [apply _|].
    clear. induction files as [|f files IH]; simpl; [done|].
    f_equal; [apply sha1Of_attached|exact IH]. }
  assert (entries (Files q) ≠ []) as Hqne.
  { intros Hq. rewrite Hq in Hperm. symmetry in Hperm.
    apply Permutation_nil_r in Hperm. by destruct files. }
  assert (Forall (λ kf, hasSHA1 kf.2) (entries (Files q))) as Hall.
  { rewrite Hperm. apply Forall_fmap. eapply Forall_impl; [exact Hsha|].
    intros f Hf. simpl. by apply sha1Of_attached. }
  destruct (deriveFields_analyzed q) as (q1 & Hd & Hvc); [congruence|done..|].
  rewrite Render_VerificationCode, Hd, Hvc. unfold verificationCodeOf.
  f_equal. f_equal. by apply sort_Strings_perm.
Qed.

Lemma Render_after_AddFiles_witness :
  FilesAnalyzed hello = true ∧ entries (Files hello) = []
  ∧ Forall (attaches hello) [main_c aaaa; util_c bbbb]
  ∧ NoDup (attachedID hello <$> [main_c aaaa; util_c bbbb])
  ∧ Forall hasSHA1 [main_c aaaa; util_c bbbb]
  ∧ VerificationCode
      (Render emptyFileRender (AddFiles hello [main_c aaaa; util_c bbbb])).1
    = Sha1.hex (Str.concat (sort_Strings (sha1Of <$> [main_c aaaa; util_c bbbb]))).
Proof.
  assert (FilesAnalyzed hello = true) as H1 by reflexivity.
  assert (entries (Files hello) = []) as H2 by reflexivity.
  assert ([main_c aaaa; util_c bbbb] ≠ []) as H3 by discriminate.
  assert (Forall (attaches hello) [main_c aaaa; util_c bbbb]) as H4
    by (repeat constructor).
  assert (NoDup (attachedID hello <$> [main_c aaaa; util_c bbbb])) as H5.
  { apply (bool_decide_unpack _). vm_compute. exact I. }
  assert (Forall hasSHA1 [main_c aaaa; util_c bbbb]) as H6.
  { apply (bool_decide_unpack _). vm_compute. exact I. }
  split; [exact H1|]. split; [exact H2|]. split; [exact H4|].
  split; [exact H5|]. split; [exact H6|].
  exact (Render_after_AddFiles emptyFileRender hello _ H1 H2 H3 H4 H5 H6).
Defined.

(** ** The options of a package *)

Lemma deriveFields_options (p p1 : Package) :
  deriveFields p = inl p1 → options p1 = options p.
Proof.
  unfold deriveFields. destruct (FilesAnalyzed p); [|by intros [= <-]].
  destruct (decide _); [done|].
  destruct (collect _ _ _) as [[shaList filesTagList]|msg]; [|done].
  intros [= <-]. destruct (decide _); by destruct p.
Qed.

Lemma preProcessSubPackage_options (p pkg : Package) :
  options (preProcessSubPackage p pkg).1 = options pkg.
Proof.
  unfold preProcessSubPackage.
  assert (∀ id q, options (set_ID id q) = options q) as Hid by (by intros ? []).
  repeat (destruct (decide _) as [?|?] || destruct (has_key _ _));
    simpl; rewrite ?Hid; done.
Qed.

(** X29: no operation sets or clears the options of a package: [AddFile],
    [AddPackage], [AddDependency] and [Render] leave them as they are, in
    the package and in the package that is attached, and so does
    [ReadSourceFile] whatever it returns; so on a package that has options,
    as every package made by [NewPackage], [ReadSourceFile] returns. *)
Theorem operations_keep_options
    (util_Exists : string → bool)
    (hash_SHA256ForFile hash_SHA512ForFile : string → string * error)
    (filepath_Separator : ascii)
    (File_Render : File.t → string * error)
    (p pkg : Package) (f : File.t) (path : string) :
  options p ≠ None →
  options (AddFile p f).1.1 = options p
  ∧ options (AddPackage p pkg).1.1 = options p
  ∧ options (AddPackage p pkg).1.2 = options pkg
  ∧ options (AddDependency p pkg).1.1 = options p
  ∧ options (AddDependency p pkg).1.2 = options pkg
  ∧ options (Render File_Render p).1 = options p
  ∧ ∃ p' e, ReadSourceFile util_Exists hash_SHA256ForFile hash_SHA512ForFile
              filepath_Separator p path = Some (p', e)
            ∧ options p' = options p.
Proof.
  intros Ho.
  assert (∀ fs q, options (set_Files fs q) = options q) as HF by (by intros ? []).
  assert (∀ ps q, options (set_Packages ps q) = options q) as HP by (by intros ? []).
  assert (∀ ps q, options (set_Dependencies ps q) = options q) as HD by (by intros ? []).
  split.
  { unfold AddFile. destruct (Files p); repeat (destruct (decide _)); simpl;
      rewrite ?HF; done. }
  split; [|split].
  { unfold AddPackage.
    destruct (preProcessSubPackage _ pkg) as [pkg' [e|]];
      destruct (Packages p); simpl; rewrite ?HP; done. }
  { unfold AddPackage.
    pose proof (preProcessSubPackage_options
                  (if Packages p is None then set_Packages (Some []) p else p) pkg) as H.
    destruct (preProcessSubPackage _ pkg) as [pkg' [e|]]; exact H. }
  split; [|split].
  { unfold AddDependency.
    destruct (preProcessSubPackage _ pkg) as [pkg' [e|]];
      destruct (Dependencies p); simpl; rewrite ?HD; done. }
  { unfold AddDependency.
    pose proof (preProcessSubPackage_options
                  (if Dependencies p is None then set_Dependencies (Some []) p else p) pkg)
      as H.
    destruct (preProcessSubPackage _ pkg) as [pkg' [e|]]; exact H. }
  split.
  { destruct (deriveFields p) as [p1|msg] eqn:Hd.
    - destruct (Render_post File_Render p p1 Hd) as (subs & deps & ->).
      rewrite HD, HP. by apply deriveFields_options.
    - by rewrite (Render_derive_error File_Render p msg Hd). }
  unfold ReadSourceFile, Options.
  destruct (util_Exists path); simpl; [|by eauto].
  destruct (hash_SHA256ForFile path) as [s256 [e|]]; [by eauto|].
  destruct (hash_SHA512ForFile path) as [s512 [e|]]; [by eauto|].
  assert (∀ cs sf q, options (set_SourceFile sf (set_Checksum cs q)) = options q)
    as Hcs by (by intros ?? []).
  rewrite Hcs. destruct (options p) as [o|] eqn:Hop; [|done].
  eexists _, _. split; [done|].
  assert (∀ fn q, options (set_FileName fn q) = options q) as -> by (by intros ? []).
  by rewrite Hcs.
Qed.

Lemma operations_keep_options_witness :
  options NewPackage ≠ None
  ∧ options (AddFile NewPackage (main_c aaaa)).1.1 = options NewPackage
  ∧ options (Render emptyFileRender NewPackage).1 = options NewPackage
  ∧ ∃ p' e, ReadSourceFile (λ _, true) (λ _, ("aa", None)) (λ _, ("bb", None))
              "/" NewPackage "/x" = Some (p', e)
            ∧ options p' = options NewPackage.
Proof.
  assert (options NewPackage ≠ None) as Ho by discriminate.
  destruct (operations_keep_options (λ _, true) (λ _, ("aa", None))
              (λ _, ("bb", None)) "/"%char emptyFileRender NewPackage NewPackage
              (main_c aaaa) "/x" Ho) as (H1 & _ & _ & _ & _ & H6 & H7).
  split; [exact Ho|]. split; [exact H1|]. split; [exact H6|exact H7].
Defined.
